(** * bgpreader: the command-line driver of the BGPStream engine

    A shallow embedding of [tools/bgpreader.c].  The program is a [main]
    that scans its command line with getopt(3), programs the engine,
    pulls records and prints them.  Everything observable (text written
    to stderr and stdout, every call made on the engine) is recorded as
    a trace of events, and the process status is the outcome.

    The engine (bgpstream.h) is outside this translation unit: it is a
    parameter, a record of the answers its functions give. *)

From Stdlib Require Import ZArith List String Ascii Bool Lia DecimalString
  DecimalPos.
Import ListNotations.
Open Scope string_scope.
Open Scope list_scope.
Open Scope Z_scope.

Infix "+++" := String.append (right associativity, at level 60).

(** ** Characters and strings of the C library *)

Definition nl : string := String (ascii_of_nat 10) EmptyString.
Definition NUL : ascii := ascii_of_nat 0.

(** [*s == c] on a C string: the first character, NUL for the empty string. *)
Definition first_char (s : string) : ascii :=
  match s with
  | EmptyString => NUL
  | String c _ => c
  end.

(** [strchr(s, c)] followed by [*endp = '\0'; endp++]: the text before the
    first [c] and the text after it, [None] when [strchr] returns NULL. *)
Fixpoint strchr_split (c : ascii) (s : string) : option (string * string) :=
  match s with
  | EmptyString => None
  | String a s' =>
      if Ascii.eqb a c then Some (EmptyString, s')
      else match strchr_split c s' with
           | Some (l, r) => Some (String a l, r)
           | None => None
           end
  end.

(** printf's [%d] and [%ld]. *)
Definition dec (z : Z) : string := NilZero.string_of_int (Z.to_int z).

(** printf's [%-15s]: left-justified in a field of at least [n] characters. *)
Fixpoint spaces (n : nat) : string :=
  match n with
  | O => EmptyString
  | S n' => String " " (spaces n')
  end.

Definition pad_right (n : nat) (s : string) : string :=
  s +++ spaces (n - String.length s).

(** The C string held by a byte buffer: the bytes before the first NUL. *)
Fixpoint cstring (buf : list ascii) : string :=
  match buf with
  | [] => EmptyString
  | c :: buf' => if Ascii.eqb c NUL then EmptyString else String c (cstring buf')
  end.

(** [buf[i] = c] on a byte buffer; nothing is modelled out of range. *)
Fixpoint store (i : N) (c : ascii) (buf : list ascii) : list ascii :=
  match buf with
  | [] => []
  | b :: buf' =>
      if N.eqb i 0 then c :: buf' else b :: store (N.pred i) c buf'
  end.

(** *** atoi

    The C library's [atoi], as glibc implements it: [(int) strtol(s, NULL, 10)].
    White space is skipped, an optional sign is read, then the longest run
    of decimal digits; the value saturates at the bounds of [long] and is
    then truncated to 32 bits.  Text without a leading number gives 0. *)

Definition isspace (c : ascii) : bool :=
  let n := nat_of_ascii c in
  (Nat.eqb n 32 || (Nat.leb 9 n && Nat.leb n 13))%bool.

Definition digit_val (c : ascii) : option Z :=
  let n := nat_of_ascii c in
  if (Nat.leb 48 n && Nat.leb n 57)%bool then Some (Z.of_nat n - 48) else None.

Fixpoint skip_space (s : string) : string :=
  match s with
  | String c s' => if isspace c then skip_space s' else s
  | EmptyString => s
  end.

Fixpoint digits (s : string) (acc : Z) : Z :=
  match s with
  | String c s' =>
      match digit_val c with
      | Some d => digits s' (10 * acc + d)
      | None => acc
      end
  | EmptyString => acc
  end.

Definition LONG_MAX : Z := 2 ^ 63 - 1.
Definition LONG_MIN : Z := - 2 ^ 63.

Definition strtol10 (s : string) : Z :=
  let v :=
    match skip_space s with
    | String "-" s' => - digits s' 0
    | String "+" s' => digits s' 0
    | s' => digits s' 0
    end in
  Z.max LONG_MIN (Z.min LONG_MAX v).

(** Conversion to [int] (two's complement, 32 bits). *)
Definition to_int (z : Z) : Z := (z + 2 ^ 31) mod 2 ^ 32 - 2 ^ 31.

(** Conversion to [uint32_t]. *)
Definition to_uint32 (z : Z) : Z := z mod 2 ^ 32.

Definition atoi (s : string) : Z := to_int (strtol10 s).

(** *** getopt

    The C library's [getopt] for short options, as glibc implements it
    when neither [optstring] starts with [+] or [-] nor POSIXLY_CORRECT is
    set: the elements of [argv] that are not options are skipped and, by
    later calls, moved behind the options read after them (PERMUTE), so
    an option after an operand is still met.  [opterr] is 0, so [getopt]
    prints nothing.

    The state kept between calls is [optind], the unread rest of the
    current element ([nextchar], empty between elements), [optopt] as the
    library keeps it (0 until a call answers [?] for a character, which it
    then holds; the variable [optopt] is set from it at every call), and
    the range [first_nonopt, last_nonopt) of the operands skipped so far.
    [argv] is permuted in place, so it is a result too; [optarg] is reset
    by every call and is part of the result.  The result is [None] for -1.
    A read past the end of [argv] ends the options, as [argc < 1] does. *)

Record getopt_state := mk_getopt {
  optind : nat;
  nextchar : string;
  optopt : ascii;
  first_nonopt : nat;
  last_nonopt : nat
}.

(** [strchr(optstring, c)]: the text of [optstring] after the first [c]. *)
Fixpoint find_opt (c : ascii) (optstring : string) : option string :=
  match optstring with
  | EmptyString => None
  | String a rest => if Ascii.eqb a c then Some rest else find_opt c rest
  end.

Definition is_empty (s : string) : bool :=
  match s with
  | EmptyString => true
  | _ => false
  end.

(** [NONOPTION_P]: an element that does not start with [-], or is [-]
    alone. *)
Definition nonoption (a : string) : bool :=
  match a with
  | String "-" (String _ _) => false
  | _ => true
  end.

(** How many elements at the head of [l] the loop over the non-options
    skips. *)
Fixpoint skip_nonoptions (l : list string) : nat :=
  match l with
  | a :: l' => if nonoption a then S (skip_nonoptions l') else O
  | [] => O
  end.

(** [exchange]: the operands in [bottom, middle) and the options in
    [middle, top) change places, each block keeping its order. *)
Definition exchange (argv : list string) (bottom middle top : nat)
  : list string :=
  if (Nat.ltb bottom middle && Nat.ltb middle top)%bool then
    firstn bottom argv ++ firstn (top - middle) (skipn middle argv) ++
    firstn (middle - bottom) (skipn bottom argv) ++ skipn top argv
  else argv.

(** The operands skipped by earlier calls are moved behind the options
    read since; the result is [argv] and the new [first_nonopt]. *)
Definition permute (argv : list string) (g : getopt_state)
  : list string * nat :=
  (* optind moved back by the caller *)
  let last := Nat.min (last_nonopt g) (optind g) in
  let first := Nat.min (first_nonopt g) (optind g) in
  if (negb (Nat.eqb first last) && negb (Nat.eqb last (optind g)))%bool
  then (exchange argv first last (optind g), (first + (optind g - last))%nat)
  else if negb (Nat.eqb last (optind g)) then (argv, optind g)
  else (argv, first).

(** The advance to the next element of [argv], made when [nextchar] is
    empty.  The boolean tells that the options are over. *)
Definition next_element (argv : list string) (g : getopt_state)
  : bool * list string * getopt_state :=
  let '(argv, first) := permute argv g in
  (* skip the operands *)
  let ind := (optind g + skip_nonoptions (skipn (optind g) argv))%nat in
  let last := ind in
  match nth_error argv ind with
  | None =>
      (true, argv,
       mk_getopt (if negb (Nat.eqb first last) then first else ind) ""
         (optopt g) first last)
  | Some a =>
      if String.eqb a "--" then
        (* the end of the options; all that follows is operands *)
        let ind := S ind in
        let '(argv, first) :=
          if (negb (Nat.eqb first last) && negb (Nat.eqb last ind))%bool
          then (exchange argv first last ind, (first + (ind - last))%nat)
          else if Nat.eqb first last then (argv, ind)
          else (argv, first) in
        let last := List.length argv in
        (true, argv,
         mk_getopt (if negb (Nat.eqb first last) then first
                    else List.length argv) ""
           (optopt g) first last)
      else
        (* an option element: its text after the dash is to be read *)
        (false, argv,
         mk_getopt ind (match a with String _ s => s | EmptyString => a end)
           (optopt g) first last)
  end.

(** The next option character of [nextchar].  (The library refuses [;]
    as it does [:]; neither is in the [optstring] of this program, which has
    no optional argument [::] either.) *)
Definition short_option (argv : list string) (optstring : string)
    (g : getopt_state)
  : option (ascii * option string) * list string * getopt_state :=
  match nextchar g with
  | EmptyString => (None, argv, g)
  | String c rest =>
      (* optind moves on when the last character of an element is read *)
      let ind := if is_empty rest then S (optind g) else optind g in
      let f := first_nonopt g in
      let l := last_nonopt g in
      match (if Ascii.eqb c ":" then None else find_opt c optstring) with
      | None => (Some ("?"%char, None), argv, mk_getopt ind rest c f l)
      | Some temp =>
          if Ascii.eqb (first_char temp) ":" then
            (* the option takes an argument *)
            if is_empty rest then
              match nth_error argv ind with
              | None => (Some ("?"%char, None), argv, mk_getopt ind "" c f l)
              | Some a =>
                  (Some (c, Some a), argv, mk_getopt (S ind) "" (optopt g) f l)
              end
            else
              (Some (c, Some rest), argv, mk_getopt (S ind) "" (optopt g) f l)
          else (Some (c, None), argv, mk_getopt ind rest (optopt g) f l)
      end
  end.

Definition getopt (argv : list string) (optstring : string) (g : getopt_state)
  : option (ascii * option string) * list string * getopt_state :=
  if is_empty (nextchar g) then
    match next_element argv g with
    | (true, argv', g') => (None, argv', g')
    | (false, argv', g') => short_option argv' optstring g'
    end
  else short_option argv optstring g.

(** The state before the first call: [optind] is 1, no operand has been
    skipped, and the library's [optopt] is 0.  (The variable [optopt] is
    [?] before the first call; the program reads it after a call only.) *)
Definition getopt_init : getopt_state := mk_getopt 1 "" NUL 1 1.

(** ** The engine's types (bgpstream.h) *)

(** Modelled from the spec: [bgpstream_data_interface_id_t] is declared in
    bgpstream.h; it is an opaque identifier that the code compares with 0
    ("unknown"). *)
Definition bgpstream_data_interface_id_t := Z.

(** Modelled from the spec: [bgpstream_data_interface_info_t] is declared
    in bgpstream.h; the code reads its [name] and [description]. *)
Record bgpstream_data_interface_info_t := mk_info {
  info_name : string;
  info_description : string
}.

(** Modelled from the spec: [bgpstream_data_interface_option_t] is declared
    in bgpstream.h; the code reads its [name] and [description]. *)
Record bgpstream_data_interface_option_t := mk_option {
  option_name : string;
  option_description : string
}.

(** Modelled from the spec: the filter kinds of bgpstream.h that the code
    passes to [bgpstream_add_filter]. *)
Inductive bgpstream_filter_type_t :=
| BGPSTREAM_FILTER_TYPE_PROJECT
| BGPSTREAM_FILTER_TYPE_COLLECTOR
| BGPSTREAM_FILTER_TYPE_RECORD_TYPE.

(** Modelled from the spec: the enumeration of bgpstream.h, with the
    constants [get_dump_type_str] names.  It is a C integer: a value outside
    the named constants is possible, and the function has a case for it. *)
Inductive bgpstream_record_dump_type_t :=
| BGPSTREAM_UPDATE
| BGPSTREAM_RIB
| dump_type_other (n : Z).

(** Modelled from the spec: the enumeration of bgpstream.h, with the
    constants [get_dump_pos_str] names and the values outside them. *)
Inductive bgpstream_dump_position_t :=
| BGPSTREAM_DUMP_START
| BGPSTREAM_DUMP_MIDDLE
| BGPSTREAM_DUMP_END
| dump_position_other (n : Z).

(** Modelled from the spec: the enumeration of bgpstream.h, with the
    constants [get_record_status_str] names and the values outside them. *)
Inductive bgpstream_record_status_t :=
| BGPSTREAM_RECORD_STATUS_VALID_RECORD
| BGPSTREAM_RECORD_STATUS_FILTERED_SOURCE
| BGPSTREAM_RECORD_STATUS_EMPTY_SOURCE
| BGPSTREAM_RECORD_STATUS_CORRUPTED_SOURCE
| BGPSTREAM_RECORD_STATUS_CORRUPTED_RECORD
| record_status_other (n : Z).

(** Modelled from the spec: the record of bgpstream.h, with the fields
    [print_bs_record] reads; the two times are printed with [%ld]. *)
Record bgpstream_record_attributes_t := mk_attributes {
  record_time : Z;
  dump_project : string;
  dump_collector : string;
  dump_type : bgpstream_record_dump_type_t;
  dump_time : Z
}.

Record bgpstream_record_t := mk_record {
  attributes : bgpstream_record_attributes_t;
  status : bgpstream_record_status_t;
  dump_pos : bgpstream_dump_position_t
}.

Definition is_valid_record (s : bgpstream_record_status_t) : bool :=
  match s with
  | BGPSTREAM_RECORD_STATUS_VALID_RECORD => true
  | _ => false
  end.

(** ** Events and the program monad

    A call on the engine is recorded with its arguments;
    [bgpstream_elem_snprintf] with whether it returned the buffer (and not
    NULL), since that is what [print_elem] branches on. *)

Inductive call :=
| bgpstream_create
| bgpstream_get_data_interface_id
| bgpstream_get_data_interfaces
| bgpstream_get_data_interface_info (id : bgpstream_data_interface_id_t)
| bgpstream_get_data_interface_id_by_name (name : string)
| bgpstream_get_data_interface_options (id : bgpstream_data_interface_id_t)
| bgpstream_get_data_interface_option_by_name
    (id : bgpstream_data_interface_id_t) (name : string)
| bgpstream_set_data_interface_option
    (option : bgpstream_data_interface_option_t) (value : string)
| bgpstream_add_filter (kind : bgpstream_filter_type_t) (value : string)
| bgpstream_add_interval_filter (start_time end_time : Z)
| bgpstream_add_rib_period_filter (period : Z)
| bgpstream_set_data_interface (id : bgpstream_data_interface_id_t)
| bgpstream_set_blocking
| bgpstream_record_create
| bgpstream_start
| bgpstream_get_next_record
| bgpstream_record_print_mrt_data (r : bgpstream_record_t)
| bgpstream_record_get_next_elem
| bgpstream_elem_snprintf (returned_buf : bool)
| bgpstream_record_destroy
| bgpstream_stop
| bgpstream_destroy.

Inductive event :=
| Stderr (s : string)
| Stdout (s : string)
| Call (c : call).

(** How a computation ends: with a value, with the process status, by a
    failed [assert] or a NULL dereference, or with the scan's fuel used up
    (which [main_fueled] below excludes for [main]). *)
Inductive outcome (A : Type) :=
| Ret (a : A)
| Exit (status : Z)
| Abort
| NoFuel.
Arguments Ret {A} a.
Arguments Exit {A} status.
Arguments Abort {A}.
Arguments NoFuel {A}.

Definition M (A : Type) : Type := list event * outcome A.

Definition ret {A} (a : A) : M A := ([], Ret a).

Definition bind {A B} (m : M A) (f : A -> M B) : M B :=
  match m with
  | (t, Ret a) => let (t', o) := f a in (t ++ t', o)
  | (t, Exit c) => (t, Exit c)
  | (t, Abort) => (t, Abort)
  | (t, NoFuel) => (t, NoFuel)
  end.

Notation "x <- m ;; k" := (bind m (fun x => k))
  (at level 61, m at next level, right associativity).
Notation "m ;; k" := (bind m (fun _ => k))
  (at level 61, right associativity).

Definition emit (e : event) : M unit := ([e], Ret tt).
Definition fprintf_stderr (s : string) : M unit := emit (Stderr s).
Definition printf (s : string) : M unit := emit (Stdout s).
Definition do_call (c : call) : M unit := emit (Call c).
Definition exit {A} (status : Z) : M A := ([], Exit status).
Definition abort {A} : M A := ([], Abort).
Definition assert (b : bool) : M unit := if b then ret tt else abort.

Fixpoint for_each {A} (l : list A) (body : A -> M unit) : M unit :=
  match l with
  | [] => ret tt
  | a :: l' => body a ;; for_each l' body
  end.

Definition trace {A} (m : M A) : list event := fst m.
Definition result {A} (m : M A) : outcome A := snd m.

(** ** The engine

    Modelled from the spec: the functions of bgpstream.h are outside this
    file; the record below is what they answer during one run, and the
    three version macros.  The records the engine yields are a list: each
    pull gives the value returned by [bgpstream_get_next_record], the
    contents it left in the record handle and the elements the record's
    iterator will give; after the list the engine returns 0.
    [elem_snprintf buf len e] gives the contents of the buffer after the
    call and whether the call returned non-NULL. *)

Record engine (elem : Type) := mk_engine {
  BGPSTREAM_MAJOR_VERSION : Z;
  BGPSTREAM_MID_VERSION : Z;
  BGPSTREAM_MINOR_VERSION : Z;
  create_succeeds : bool;
  data_interface_id : bgpstream_data_interface_id_t;
  data_interfaces : list bgpstream_data_interface_id_t;
  data_interface_info :
    bgpstream_data_interface_id_t -> option bgpstream_data_interface_info_t;
  data_interface_id_by_name : string -> bgpstream_data_interface_id_t;
  data_interface_options :
    bgpstream_data_interface_id_t -> list bgpstream_data_interface_option_t;
  data_interface_option_by_name :
    bgpstream_data_interface_id_t -> string ->
    option bgpstream_data_interface_option_t;
  record_create_succeeds : bool;
  start_ret : Z;
  next_records : list (Z * bgpstream_record_t * list elem);
  elem_snprintf : list ascii -> N -> elem -> list ascii * bool
}.
Arguments BGPSTREAM_MAJOR_VERSION {elem} _.
Arguments BGPSTREAM_MID_VERSION {elem} _.
Arguments BGPSTREAM_MINOR_VERSION {elem} _.
Arguments create_succeeds {elem} _.
Arguments data_interface_id {elem} _.
Arguments data_interfaces {elem} _.
Arguments data_interface_info {elem} _ _.
Arguments data_interface_id_by_name {elem} _ _.
Arguments data_interface_options {elem} _ _.
Arguments data_interface_option_by_name {elem} _ _ _.
Arguments record_create_succeeds {elem} _.
Arguments start_ret {elem} _.
Arguments next_records {elem} _.
Arguments elem_snprintf {elem} _ _ _ _.

(** ** The variables of [main] and the file's globals *)

Definition PROJECT_CMD_CNT : nat := 10.
Definition TYPE_CMD_CNT : nat := 10.
Definition COLLECTOR_CMD_CNT : nat := 100.
Definition WINDOW_CMD_CNT : nat := 1024.
Definition OPTION_CMD_CNT : nat := 1024.

Record window := mk_window {
  start : Z;
  end_ : Z
}.

(** Each array with its count is a list; [datasource_id_default],
    [datasource_id] and [datasource_info] are the globals. *)
Record vars := mk_vars {
  projects : list string;
  types : list string;
  collectors : list string;
  windows : list window;
  interface_options : list string;
  rib_period : Z;
  blocking : bool;
  record_output_on : bool;
  record_bgpdump_output_on : bool;
  elem_output_on : bool;
  datasource_id_default : bgpstream_data_interface_id_t;
  datasource_id : bgpstream_data_interface_id_t;
  datasource_info : option bgpstream_data_interface_info_t
}.

Definition set_projects (v : vars) x :=
  mk_vars x (types v) (collectors v) (windows v) (interface_options v)
    (rib_period v) (blocking v) (record_output_on v)
    (record_bgpdump_output_on v) (elem_output_on v)
    (datasource_id_default v) (datasource_id v) (datasource_info v).
Definition set_types (v : vars) x :=
  mk_vars (projects v) x (collectors v) (windows v) (interface_options v)
    (rib_period v) (blocking v) (record_output_on v)
    (record_bgpdump_output_on v) (elem_output_on v)
    (datasource_id_default v) (datasource_id v) (datasource_info v).
Definition set_collectors (v : vars) x :=
  mk_vars (projects v) (types v) x (windows v) (interface_options v)
    (rib_period v) (blocking v) (record_output_on v)
    (record_bgpdump_output_on v) (elem_output_on v)
    (datasource_id_default v) (datasource_id v) (datasource_info v).
Definition set_windows (v : vars) x :=
  mk_vars (projects v) (types v) (collectors v) x (interface_options v)
    (rib_period v) (blocking v) (record_output_on v)
    (record_bgpdump_output_on v) (elem_output_on v)
    (datasource_id_default v) (datasource_id v) (datasource_info v).
Definition set_interface_options (v : vars) x :=
  mk_vars (projects v) (types v) (collectors v) (windows v) x
    (rib_period v) (blocking v) (record_output_on v)
    (record_bgpdump_output_on v) (elem_output_on v)
    (datasource_id_default v) (datasource_id v) (datasource_info v).
Definition set_rib_period (v : vars) x :=
  mk_vars (projects v) (types v) (collectors v) (windows v)
    (interface_options v) x (blocking v) (record_output_on v)
    (record_bgpdump_output_on v) (elem_output_on v)
    (datasource_id_default v) (datasource_id v) (datasource_info v).
Definition set_blocking (v : vars) x :=
  mk_vars (projects v) (types v) (collectors v) (windows v)
    (interface_options v) (rib_period v) x (record_output_on v)
    (record_bgpdump_output_on v) (elem_output_on v)
    (datasource_id_default v) (datasource_id v) (datasource_info v).
Definition set_record_output_on (v : vars) x :=
  mk_vars (projects v) (types v) (collectors v) (windows v)
    (interface_options v) (rib_period v) (blocking v) x
    (record_bgpdump_output_on v) (elem_output_on v)
    (datasource_id_default v) (datasource_id v) (datasource_info v).
Definition set_record_bgpdump_output_on (v : vars) x :=
  mk_vars (projects v) (types v) (collectors v) (windows v)
    (interface_options v) (rib_period v) (blocking v) (record_output_on v)
    x (elem_output_on v)
    (datasource_id_default v) (datasource_id v) (datasource_info v).
Definition set_elem_output_on (v : vars) x :=
  mk_vars (projects v) (types v) (collectors v) (windows v)
    (interface_options v) (rib_period v) (blocking v) (record_output_on v)
    (record_bgpdump_output_on v) x
    (datasource_id_default v) (datasource_id v) (datasource_info v).
Definition set_datasource (v : vars) id info :=
  mk_vars (projects v) (types v) (collectors v) (windows v)
    (interface_options v) (rib_period v) (blocking v) (record_output_on v)
    (record_bgpdump_output_on v) (elem_output_on v)
    (datasource_id_default v) id info.

(** The variables as [main] initialises them, once the default data
    interface is known. *)
Definition init_vars (id : bgpstream_data_interface_id_t)
    (info : option bgpstream_data_interface_info_t) : vars :=
  mk_vars [] [] [] [] [] 0 false false false false id id info.

(** The result of the pull loop: it ran to its end, or took [goto err]. *)
Inductive loop_exit := LoopDone | GotoErr.

(** ** The program *)

Section Bgpreader.

Context {elem : Type}.
Variable E : engine elem.

Definition data_if_usage (v : vars) : M unit :=
  do_call bgpstream_get_data_interfaces ;;
  for_each (data_interfaces E) (fun id =>
    do_call (bgpstream_get_data_interface_info id) ;;
    match data_interface_info E id with
    | Some info =>
        fprintf_stderr
          ("       " +++ pad_right 15 (info_name info) +++ info_description info
           +++ (if id =? datasource_id_default v then " (default)" else "")
           +++ nl)
    | None => ret tt
    end).

Definition dump_if_options (v : vars) : M unit :=
  assert (negb (datasource_id v =? 0)) ;;
  do_call (bgpstream_get_data_interface_options (datasource_id v)) ;;
  let options := data_interface_options E (datasource_id v) in
  match datasource_info v with
  | Some info =>
      fprintf_stderr
        ("Data interface options for '" +++ info_name info +++ "':" +++ nl)
  | None => abort
  end ;;
  match options with
  | [] => fprintf_stderr ("   [NONE]" +++ nl)
  | _ =>
      for_each options (fun o =>
        fprintf_stderr
          ("   " +++ pad_right 15 (option_name o) +++ option_description o
           +++ nl))
  end ;;
  fprintf_stderr nl.

Definition usage_head : string :=
  "usage: bgpreader -w <start,end> [<options>]" +++ nl +++
  "Available options are:" +++ nl +++
  "   -d <interface> use the given data interface to find available data" +++ nl +++
  "                  available data interfaces are:" +++ nl.

Definition usage_tail : string :=
  "   -o <option-name,option-value>*" +++ nl +++
  "                  set an option for the current data interface." +++ nl +++
  "                  use '-o ?' to get a list of available options for the current" +++ nl +++
  "                  data interface. (data interface can be selected using -d)" +++ nl +++
  "   -p <project>   process records from only the given project (routeviews, ris)*" +++ nl +++
  "   -c <collector> process records from only the given collector*" +++ nl +++
  "   -t <type>      process records with only the given type (ribs, updates)*" +++ nl +++
  "   -w <start,end> process records only within the given time window*" +++ nl +++
  "   -P <period>    process a rib files every <period> seconds (bgp time)" +++ nl +++
  "   -b             make blocking requests for BGP records" +++ nl +++
  "                  allows bgpstream to be used to process data in real-time" +++ nl +++
  nl +++
  "   -r             print info for each BGP record (default)" +++ nl +++
  "   -m             print info for each BGP valid record in bgpdump -m format" +++ nl +++
  "   -e             print info for each element of a valid BGP record" +++ nl +++
  nl +++
  "   -h             print this help menu" +++ nl +++
  "* denotes an option that can be given multiple times" +++ nl.

Definition usage (v : vars) : M unit :=
  fprintf_stderr usage_head ;;
  data_if_usage v ;;
  fprintf_stderr usage_tail.

Definition version_banner : string :=
  "bgpreader version " +++ dec (BGPSTREAM_MAJOR_VERSION E) +++ "." +++
  dec (BGPSTREAM_MID_VERSION E) +++ "." +++ dec (BGPSTREAM_MINOR_VERSION E)
  +++ nl.

(** *** Printing *)

Definition get_dump_type_str (dump_type : bgpstream_record_dump_type_t) : string :=
  match dump_type with
  | BGPSTREAM_UPDATE => "update"
  | BGPSTREAM_RIB => "rib"
  | dump_type_other _ => ""
  end.

Definition get_dump_pos_str (dump_pos : bgpstream_dump_position_t) : string :=
  match dump_pos with
  | BGPSTREAM_DUMP_START => "start"
  | BGPSTREAM_DUMP_MIDDLE => "middle"
  | BGPSTREAM_DUMP_END => "end"
  | dump_position_other _ => ""
  end.

Definition get_record_status_str (status : bgpstream_record_status_t) : string :=
  match status with
  | BGPSTREAM_RECORD_STATUS_VALID_RECORD => "valid_record"
  | BGPSTREAM_RECORD_STATUS_FILTERED_SOURCE => "filtered_source"
  | BGPSTREAM_RECORD_STATUS_EMPTY_SOURCE => "empty_source"
  | BGPSTREAM_RECORD_STATUS_CORRUPTED_SOURCE => "corrupted_source"
  | BGPSTREAM_RECORD_STATUS_CORRUPTED_RECORD => "corrupted_record"
  | record_status_other _ => ""
  end.

Definition print_bs_record (bs_record : bgpstream_record_t) : M unit :=
  printf (dec (record_time (attributes bs_record)) +++ "|") ;;
  printf (dump_project (attributes bs_record) +++ "|") ;;
  printf (dump_collector (attributes bs_record) +++ "|") ;;
  printf (get_dump_type_str (dump_type (attributes bs_record)) +++ "|") ;;
  printf (get_record_status_str (status bs_record) +++ "|") ;;
  printf (dec (dump_time (attributes bs_record)) +++ "|") ;;
  printf (get_dump_pos_str (dump_pos bs_record) +++ "|") ;;
  printf nl.

(** [elem_buf] is the static buffer of 65536 bytes; [print_elem] gives its
    return value and the buffer as the call leaves it. *)
Definition elem_buf_init : list ascii := repeat NUL (N.to_nat 65536).

Definition print_elem (elem_buf : list ascii) (e : elem) : M (Z * list ascii) :=
  let (buf, ok) := elem_snprintf E elem_buf 65536%N e in
  do_call (bgpstream_elem_snprintf ok) ;;
  if ok then
    printf (cstring buf +++ nl) ;;
    ret (0, buf)
  else
    fprintf_stderr ("Failed to construct elem string" +++ nl) ;;
    let buf' := store 65535%N NUL buf in
    fprintf_stderr ("Elem string: " +++ cstring buf' +++ nl) ;;
    ret (-1, buf').

(** *** The option scan *)

Definition optstring : string := "d:o:p:c:t:w:P:brmeh?".

(** [optarg] where the code reads it: NULL is a fault. *)
Definition with_arg {A} (optarg : option string) (k : string -> M A) : M A :=
  match optarg with
  | Some a => k a
  | None => abort
  end.

(** The body of [switch (opt)]. *)
Definition handle_option (opt : ascii) (optarg : option string)
    (optopt : ascii) (v : vars) : M vars :=
  if Ascii.eqb opt "p" then
    if Nat.eqb (List.length (projects v)) PROJECT_CMD_CNT then
      fprintf_stderr
        ("ERROR: A maximum of " +++ dec (Z.of_nat PROJECT_CMD_CNT) +++
         " projects can be specified on the command line" +++ nl) ;;
      usage v ;;
      exit (-1)
    else with_arg optarg (fun a => ret (set_projects v (projects v ++ [a])))
  else if Ascii.eqb opt "c" then
    if Nat.eqb (List.length (collectors v)) COLLECTOR_CMD_CNT then
      fprintf_stderr
        ("ERROR: A maximum of " +++ dec (Z.of_nat COLLECTOR_CMD_CNT) +++
         " collectors can be specified on the command line" +++ nl) ;;
      usage v ;;
      exit (-1)
    else with_arg optarg (fun a => ret (set_collectors v (collectors v ++ [a])))
  else if Ascii.eqb opt "t" then
    if Nat.eqb (List.length (types v)) TYPE_CMD_CNT then
      fprintf_stderr
        ("ERROR: A maximum of " +++ dec (Z.of_nat TYPE_CMD_CNT) +++
         " types can be specified on the command line" +++ nl) ;;
      usage v ;;
      exit (-1)
    else with_arg optarg (fun a => ret (set_types v (types v ++ [a])))
  else if Ascii.eqb opt "w" then
    if Nat.eqb (List.length (windows v)) WINDOW_CMD_CNT then
      fprintf_stderr
        ("ERROR: A maximum of " +++ dec (Z.of_nat WINDOW_CMD_CNT) +++
         " windows can be specified on the command line" +++ nl) ;;
      usage v ;;
      exit (-1)
    else with_arg optarg (fun a =>
      (* split the window into a start and end *)
      match strchr_split "," a with
      | None =>
          fprintf_stderr ("ERROR: Malformed time window (" +++ a +++ ")" +++ nl) ;;
          fprintf_stderr ("ERROR: Expecting start,end" +++ nl) ;;
          usage v ;;
          exit (-1)
      | Some (a', endp) =>
          ret (set_windows v
                 (windows v ++
                  [mk_window (to_uint32 (atoi a')) (to_uint32 (atoi endp))]))
      end)
  else if Ascii.eqb opt "P" then
    with_arg optarg (fun a => ret (set_rib_period v (atoi a)))
  else if Ascii.eqb opt "d" then
    with_arg optarg (fun a =>
      do_call (bgpstream_get_data_interface_id_by_name a) ;;
      let id := data_interface_id_by_name E a in
      if id =? 0 then
        fprintf_stderr
          ("ERROR: Invalid data interface name '" +++ a +++ "'" +++ nl) ;;
        usage (set_datasource v id (datasource_info v)) ;;
        exit (-1)
      else
        do_call (bgpstream_get_data_interface_info id) ;;
        ret (set_datasource v id (data_interface_info E id)))
  else if Ascii.eqb opt "o" then
    if Nat.eqb (List.length (interface_options v)) OPTION_CMD_CNT then
      fprintf_stderr
        ("ERROR: A maximum of " +++ dec (Z.of_nat OPTION_CMD_CNT) +++
         " interface options can be specified" +++ nl) ;;
      usage v ;;
      exit (-1)
    else with_arg optarg (fun a =>
      ret (set_interface_options v (interface_options v ++ [a])))
  else if Ascii.eqb opt "b" then ret (set_blocking v true)
  else if Ascii.eqb opt "r" then ret (set_record_output_on v true)
  else if Ascii.eqb opt "m" then ret (set_record_bgpdump_output_on v true)
  else if Ascii.eqb opt "e" then ret (set_elem_output_on v true)
  else if Ascii.eqb opt ":" then
    fprintf_stderr
      ("ERROR: Missing option argument for -" +++ String optopt "" +++ nl) ;;
    usage v ;;
    exit (-1)
  else if (Ascii.eqb opt "?" || Ascii.eqb opt "v")%bool then
    fprintf_stderr version_banner ;;
    usage v ;;
    exit 0
  else
    usage v ;;
    exit (-1).

(** The test made after each [getopt]: an argument taken from the next
    element of [argv] that is missing or looks like a flag. *)
Definition missing_argument (prevoptind : nat) (g : getopt_state)
    (optarg : option string) : bool :=
  (Nat.eqb (optind g) (prevoptind + 2) &&
   match optarg with
   | None => true
   | Some a => Ascii.eqb (first_char a) "-"
   end)%bool.

(** The [while] loop over [getopt].  Each turn reads at least one character
    of [argv], so [fuel] bounds the turns.  [argv] is passed on as [getopt]
    leaves it. *)
Fixpoint scan (fuel : nat) (argv : list string) (g : getopt_state) (v : vars)
  : M vars :=
  match fuel with
  | O => ([], NoFuel)
  | S fuel' =>
      let prevoptind := optind g in
      match getopt argv optstring g with
      | (None, _, _) => ret v
      | (Some (opt, optarg), argv', g') =>
          let '(opt, g') :=
            if missing_argument prevoptind g' optarg
            then (":"%char,
                  mk_getopt (optind g' - 1) (nextchar g') (optopt g')
                    (first_nonopt g') (last_nonopt g'))
            else (opt, g') in
          v' <- handle_option opt optarg (optopt g') v ;;
          scan fuel' argv' g' v'
      end
  end.

Definition scan_fuel (argv : list string) : nat :=
  S (list_sum (map String.length argv)).

(** *** The second pass over the [-o] entries *)

Fixpoint bind_interface_options (v : vars) (entries : list string) : M unit :=
  match entries with
  | [] => ret tt
  | entry :: entries' =>
      (if Ascii.eqb (first_char entry) "?" then
         dump_if_options v ;;
         usage v ;;
         exit 0
       else
         (* actually set this option *)
         match strchr_split "," entry with
         | None =>
             fprintf_stderr
               ("ERROR: Malformed data interface option (" +++ entry +++ ")"
                +++ nl) ;;
             fprintf_stderr
               ("ERROR: Expecting <option-name>,<option-value>" +++ nl) ;;
             usage v ;;
             exit (-1)
         | Some (name, endp) =>
             do_call (bgpstream_get_data_interface_option_by_name
                        (datasource_id v) name) ;;
             match data_interface_option_by_name E (datasource_id v) name with
             | None =>
                 match datasource_info v with
                 | Some info =>
                     fprintf_stderr
                       ("ERROR: Invalid option '" +++ name +++
                        "' for data interface '" +++ info_name info +++ "'"
                        +++ nl)
                 | None => abort
                 end ;;
                 usage v ;;
                 exit (-1)
             | Some option =>
                 do_call (bgpstream_set_data_interface_option option endp)
             end
         end) ;;
      bind_interface_options v entries'
  end.

(** *** Programming the engine *)

Definition apply_filters (v : vars) : M unit :=
  (* projects *)
  for_each (projects v) (fun p =>
    do_call (bgpstream_add_filter BGPSTREAM_FILTER_TYPE_PROJECT p)) ;;
  (* collectors *)
  for_each (collectors v) (fun c =>
    do_call (bgpstream_add_filter BGPSTREAM_FILTER_TYPE_COLLECTOR c)) ;;
  (* types *)
  for_each (types v) (fun t =>
    do_call (bgpstream_add_filter BGPSTREAM_FILTER_TYPE_RECORD_TYPE t)) ;;
  (* windows *)
  for_each (windows v) (fun w =>
    do_call (bgpstream_add_interval_filter (start w) (end_ w))) ;;
  (* frequencies *)
  (if rib_period v >? 0
   then do_call (bgpstream_add_rib_period_filter (rib_period v))
   else ret tt) ;;
  (* datasource *)
  do_call (bgpstream_set_data_interface (datasource_id v)) ;;
  (* blocking *)
  (if blocking v then do_call bgpstream_set_blocking else ret tt).

(** *** The pull loop *)

(** The [while] loop over the elements of the current record. *)
Fixpoint print_elems (elem_buf : list ascii) (elems : list elem)
  : M (loop_exit * list ascii) :=
  do_call bgpstream_record_get_next_elem ;;
  match elems with
  | [] => ret (LoopDone, elem_buf)
  | bs_elem :: elems' =>
      r <- print_elem elem_buf bs_elem ;;
      if negb (fst r =? 0) then ret (GotoErr, snd r)
      else print_elems (snd r) elems'
  end.

(** The body of the [do] loop after the pull: what is printed for the
    record the engine left in the handle. *)
Definition dispatch (v : vars) (elem_buf : list ascii) (get_next_ret : Z)
    (bs_record : bgpstream_record_t) (elems : list elem)
  : M (loop_exit * list ascii) :=
  (if (negb (get_next_ret =? 0) && record_output_on v)%bool
   then print_bs_record bs_record
   else ret tt) ;;
  if (negb (get_next_ret =? 0) && is_valid_record (status bs_record))%bool then
    (if record_bgpdump_output_on v
     then do_call (bgpstream_record_print_mrt_data bs_record)
     else ret tt) ;;
    if elem_output_on v
    then print_elems elem_buf elems
    else ret (LoopDone, elem_buf)
  else ret (LoopDone, elem_buf).

(** The [do ... while (get_next_ret > 0)] loop over the engine's pulls. *)
Fixpoint pull_loop (v : vars) (elem_buf : list ascii)
    (pulls : list (Z * bgpstream_record_t * list elem)) : M loop_exit :=
  do_call bgpstream_get_next_record ;;
  match pulls with
  | [] => ret LoopDone
  | (get_next_ret, bs_record, elems) :: pulls' =>
      r <- dispatch v elem_buf get_next_ret bs_record elems ;;
      match fst r with
      | GotoErr => ret GotoErr
      | LoopDone =>
          if get_next_ret >? 0 then pull_loop v (snd r) pulls'
          else ret LoopDone
      end
  end.

(** From the creation of the record handle to the end of [main]. *)
Definition stream (v : vars) : M unit :=
  (* allocate memory for bs_record *)
  do_call bgpstream_record_create ;;
  (if record_create_succeeds E then ret tt
   else
     fprintf_stderr ("ERROR: Could not create BGPStream record" +++ nl) ;;
     do_call bgpstream_destroy ;;
     exit (-1)) ;;
  (* turn on interface *)
  do_call bgpstream_start ;;
  (if start_ret E <? 0 then
     fprintf_stderr ("ERROR: Could not init BGPStream" +++ nl) ;;
     exit (-1)
   else ret tt) ;;
  (* use the interface *)
  r <- pull_loop v elem_buf_init (next_records E) ;;
  match r with
  | LoopDone =>
      do_call bgpstream_record_destroy ;;
      do_call bgpstream_stop ;;
      do_call bgpstream_destroy ;;
      exit 0
  | GotoErr =>
      do_call bgpstream_record_destroy ;;
      do_call bgpstream_stop ;;
      do_call bgpstream_destroy ;;
      exit (-1)
  end.

(** *** main *)

(** [argv] holds the program name and the arguments. *)
Definition main (argv : list string) : M unit :=
  do_call bgpstream_create ;;
  (if create_succeeds E then ret tt
   else
     fprintf_stderr ("ERROR: Could not create BGPStream instance" +++ nl) ;;
     exit (-1)) ;;
  do_call bgpstream_get_data_interface_id ;;
  let id := data_interface_id E in
  do_call (bgpstream_get_data_interface_info id) ;;
  let info := data_interface_info E id in
  assert (negb (id =? 0)) ;;
  v <- scan (scan_fuel argv) argv getopt_init (init_vars id info) ;;
  bind_interface_options v (interface_options v) ;;
  let v := set_interface_options v [] in
  (if Nat.eqb (List.length (windows v)) 0 then
     fprintf_stderr
       ("ERROR: At least one time window must be specified using -w" +++ nl) ;;
     usage v ;;
     exit (-1)
   else ret tt) ;;
  (* if the user did not specify any output format
     then the default one is per record *)
  let v :=
    if (negb (record_output_on v) && negb (elem_output_on v) &&
        negb (record_bgpdump_output_on v))%bool
    then set_record_output_on v true
    else v in
  apply_filters v ;;
  stream v.

End Bgpreader.

(** The variables at the start of the scan. *)
Definition scan_start {elem} (E : engine elem) : vars :=
  init_vars (data_interface_id E)
    (data_interface_info E (data_interface_id E)).

(** ** A stub engine, for running the program on concrete command lines *)

Module Stub.

Definition singlefile_options : list bgpstream_data_interface_option_t :=
  [mk_option "rib-file" "rib mrt file to read";
   mk_option "upd-file" "updates mrt file to read"].

(** Two data interfaces, [broker] (1, the default, without options) and
    [singlefile] (2, with two options).  An element is the text its
    serialisation gives, or [None] when it fails. *)
Definition stub (start : Z)
    (pulls : list (Z * bgpstream_record_t * list (option string)))
  : engine (option string) :=
  mk_engine (option string) 1 7 2 true 1 [1; 2]
    (fun id =>
       if id =? 1 then Some (mk_info "broker" "Retrieve metadata from the broker")
       else if id =? 2 then Some (mk_info "singlefile" "Read a single mrt file")
       else None)
    (fun name =>
       if String.eqb name "broker" then 1
       else if String.eqb name "singlefile" then 2 else 0)
    (fun id => if id =? 2 then singlefile_options else [])
    (fun id name =>
       if id =? 2 then
         find (fun o => String.eqb (option_name o) name) singlefile_options
       else None)
    true start pulls
    (fun buf len e =>
       match e with
       | Some text =>
           (list_ascii_of_string text ++ NUL ::
              skipn (S (String.length text)) buf, true)
       | None => (buf, false)
       end).

Definition rec1 : bgpstream_record_t :=
  mk_record (mk_attributes 1420070450 "routeviews" "rrc00" BGPSTREAM_RIB 1420070400)
    BGPSTREAM_RECORD_STATUS_VALID_RECORD BGPSTREAM_DUMP_MIDDLE.

(** The variables after [-r -m -e], and with [singlefile] selected. *)
Definition all_modes : vars :=
  set_elem_output_on
    (set_record_bgpdump_output_on
       (set_record_output_on (scan_start (stub 0 [])) true) true) true.

Definition singlefile : vars :=
  set_datasource (scan_start (stub 0 [])) 2
    (Some (mk_info "singlefile" "Read a single mrt file")).

(** An engine whose second pull returns -1. *)
Definition negative_second : engine (option string) :=
  stub 0 [(1, rec1, [Some "E0"]); (-1, rec1, [Some "E1"])].

(** The variables when the array of windows is full. *)
Definition full_windows : vars :=
  set_windows (scan_start (stub 0 [])) (repeat (mk_window 0 1) WINDOW_CMD_CNT).

(** An engine whose second pull returns 0. *)
Definition zero_second : engine (option string) :=
  stub 0 [(1, rec1, [Some "E0"]); (0, rec1, [Some "E1"]); (1, rec1, [])].

(** An engine that cannot be created. *)
Definition uncreated : engine (option string) :=
  mk_engine (option string) 1 7 2 false 1 [1]
    (fun _ => None) (fun _ => 0) (fun _ => []) (fun _ _ => None)
    true 0 [] (fun buf _ _ => (buf, false)).

(** An engine that gives no description of its data interfaces. *)
Definition undescribed : engine (option string) :=
  mk_engine (option string) 1 7 2 true 1 [1]
    (fun _ => None) (fun _ => 0) (fun _ => []) (fun _ _ => None)
    true 0 [] (fun buf _ _ => (buf, false)).

End Stub.


(** ** Vocabulary of the statements *)

(** What a trace writes to standard output, in order. *)
Fixpoint stdout_text (t : list event) : string :=
  match t with
  | [] => EmptyString
  | Stdout s :: t' => s +++ stdout_text t'
  | _ :: t' => stdout_text t'
  end.

Fixpoint count_char (c : ascii) (s : string) : nat :=
  match s with
  | EmptyString => O
  | String a s' => (if Ascii.eqb a c then 1 else 0) + count_char c s'
  end.

Fixpoint has_char (c : ascii) (s : string) : bool :=
  match s with
  | EmptyString => false
  | String a s' => (Ascii.eqb a c || has_char c s')%bool
  end.

(** The release of the handles, in the order of the end of [main]. *)
Definition teardown : list event :=
  [Call bgpstream_record_destroy; Call bgpstream_stop; Call bgpstream_destroy].

(** What [print_elem] does when the serialisation fails, [buf] being the
    buffer as the engine left it. *)
Definition elem_failure (buf : list ascii) : list event :=
  [Call (bgpstream_elem_snprintf false);
   Stderr ("Failed to construct elem string" +++ nl);
   Stderr ("Elem string: " +++ cstring (store 65535%N NUL buf) +++ nl)].

(** The two ways a loop of the driver ends: without a failed serialisation,
    or right after the diagnostics of the first one. *)
Definition ends_well {elem A} (E : engine elem) (m : M A) (le : loop_exit)
  : Prop :=
  (le = LoopDone /\ ~ In (Call (bgpstream_elem_snprintf false)) (trace m)) \/
  (le = GotoErr /\
   exists t0 buf0 e,
     snd (elem_snprintf E buf0 65536%N e) = false /\
     trace m = t0 ++ elem_failure (fst (elem_snprintf E buf0 65536%N e))).

(** The status [main] returns after the pull loop. *)
Definition loop_status (le : loop_exit) : Z :=
  match le with
  | LoopDone => 0
  | GotoErr => -1
  end.

(** The characters [getopt] accepts as options with this [optstring]. *)
Definition recognized (c : ascii) : bool :=
  match (if Ascii.eqb c ":" then None else find_opt c optstring) with
  | Some _ => true
  | None => false
  end.

(** The text before the first [c] of [s] (all of [s] without one) and the
    text after it. *)
Fixpoint before_char (c : ascii) (s : string) : string :=
  match s with
  | EmptyString => EmptyString
  | String a s' => if Ascii.eqb a c then EmptyString else String a (before_char c s')
  end.

Fixpoint after_char (c : ascii) (s : string) : string :=
  match s with
  | EmptyString => EmptyString
  | String a s' => if Ascii.eqb a c then s' else after_char c s'
  end.

(** Whether [s] starts, after white space and an optional sign, with a
    decimal digit. *)
Definition starts_number (s : string) : bool :=
  let is_digit c := match digit_val c with Some _ => true | None => false end in
  match skip_space s with
  | String "-" s' => is_digit (first_char s')
  | String "+" s' => is_digit (first_char s')
  | s' => is_digit (first_char s')
  end.

(** The lines [dump_if_options] prints for a list of options. *)
Definition option_lines (options : list bgpstream_data_interface_option_t)
  : list event :=
  match options with
  | [] => [Stderr ("   [NONE]" +++ nl)]
  | _ =>
      map (fun o => Stderr ("   " +++ pad_right 15 (option_name o) +++
                            option_description o +++ nl)) options
  end.

(** The characters of [argv] the scan has not read yet: the measure that
    bounds its turns. *)
Definition weight (k : nat) (argv : list string) : nat :=
  list_sum (map String.length (skipn k argv)).

Definition remaining (argv : list string) (g : getopt_state) : nat :=
  match nextchar g with
  | EmptyString => weight (optind g) argv
  | nc => String.length nc + weight (S (optind g)) argv
  end.

(** A computation that does not stop for want of fuel. *)
Definition fueled {A} (m : M A) : Prop := result m <> NoFuel.

(** A computation that ends with a value. *)
Definition returns {A} (m : M A) : Prop := exists a, result m = Ret a.

(** A scan that reaches the end of the options without a fatal error. *)
Definition scan_completes {elem} (E : engine elem) (argv : list string) : Prop :=
  returns (scan E (scan_fuel argv) argv getopt_init (scan_start E)).


(** A property of every event of a computation. *)
Definition all_events (Q : event -> Prop) {A} (m : M A) : Prop :=
  Forall Q (trace m).

(** The calls of the second pass: the look-up of an option name in a data
    interface, and the setting of an option. *)
Definition is_binding_call (e : event) : bool :=
  match e with
  | Call (bgpstream_get_data_interface_option_by_name _ _) => true
  | Call (bgpstream_set_data_interface_option _ _) => true
  | _ => false
  end.

Definition binding_calls (t : list event) : list event :=
  filter is_binding_call t.

(** The part of [main] that follows the scan, [v] being the variables the
    scan leaves: [main] is the start, the scan, then this (see
    [main_after_scan]). *)
Definition after_scan {elem} (E : engine elem) (v : vars) : M unit :=
  bind_interface_options E v (interface_options v) ;;
  let v := set_interface_options v [] in
  (if Nat.eqb (List.length (windows v)) 0 then
     fprintf_stderr
       ("ERROR: At least one time window must be specified using -w" +++ nl) ;;
     usage E v ;;
     exit (-1)
   else ret tt) ;;
  let v :=
    if (negb (record_output_on v) && negb (elem_output_on v) &&
        negb (record_bgpdump_output_on v))%bool
    then set_record_output_on v true
    else v in
  apply_filters v ;;
  stream E v.


(** What [main] does before the scan. *)
Definition startup {elem} (E : engine elem) : M unit :=
  do_call bgpstream_create ;;
  (if create_succeeds E then ret tt
   else
     fprintf_stderr ("ERROR: Could not create BGPStream instance" +++ nl) ;;
     exit (-1)) ;;
  do_call bgpstream_get_data_interface_id ;;
  do_call (bgpstream_get_data_interface_info (data_interface_id E)) ;;
  assert (negb (data_interface_id E =? 0)).

(** A property of the value a computation returns, when it returns one. *)
Definition ensures {A} (Q : A -> Prop) (m : M A) : Prop :=
  forall a, result m = Ret a -> Q a.

(** Every array of [main] holds no more than its size. *)
Definition within_caps (v : vars) : Prop :=
  (List.length (projects v) <= PROJECT_CMD_CNT)%nat /\
  (List.length (types v) <= TYPE_CMD_CNT)%nat /\
  (List.length (collectors v) <= COLLECTOR_CMD_CNT)%nat /\
  (List.length (windows v) <= WINDOW_CMD_CNT)%nat /\
  (List.length (interface_options v) <= OPTION_CMD_CNT)%nat.

(** The events that only print or ask the engine a question: they leave
    the engine as it is. *)
Definition inspects (e : event) : Prop :=
  match e with
  | Stderr _ => True
  | Call bgpstream_create => True
  | Call bgpstream_get_data_interface_id => True
  | Call bgpstream_get_data_interfaces => True
  | Call (bgpstream_get_data_interface_info _) => True
  | Call (bgpstream_get_data_interface_id_by_name _) => True
  | _ => False
  end.

(** An [-o] entry the second pass applies: it does not start with [?], has
    a comma, and the engine knows the name before the first comma for the
    current data interface. *)
Definition bound_option {elem} (E : engine elem) (v : vars) (entry : string)
  : option bgpstream_data_interface_option_t :=
  if Ascii.eqb (first_char entry) "?" then None
  else if has_char "," entry then
    data_interface_option_by_name E (datasource_id v) (before_char "," entry)
  else None.

(** The two calls the second pass makes for an entry it applies. *)
Definition binding_of {elem} (E : engine elem) (v : vars) (entry : string)
  : list event :=
  match bound_option E v entry with
  | Some option =>
      [Call (bgpstream_get_data_interface_option_by_name (datasource_id v)
               (before_char "," entry));
       Call (bgpstream_set_data_interface_option option
               (after_char "," entry))]
  | None => []
  end.

(** What a trace writes to standard error, in order. *)
Fixpoint stderr_text (t : list event) : string :=
  match t with
  | [] => EmptyString
  | Stderr s :: t' => s +++ stderr_text t'
  | _ :: t' => stderr_text t'
  end.

(** The calls of a trace, without the prints. *)
Definition is_call (e : event) : bool :=
  match e with
  | Call _ => true
  | _ => false
  end.

Definition calls (t : list event) : list event := filter is_call t.

(** The buffers a run of element serialisations leaves, one per element,
    each call starting from the buffer the one before left. *)
Fixpoint serialised {elem} (E : engine elem) (buf : list ascii)
    (elems : list elem) : list (list ascii * bool) :=
  match elems with
  | [] => []
  | e :: elems' =>
      elem_snprintf E buf 65536%N e ::
      serialised E (fst (elem_snprintf E buf 65536%N e)) elems'
  end.

(** The repeatable options: the count the [switch] compares with the size
    of the array, the size, and the end of the message. *)
Definition capped (c : ascii) (v : vars) : option (nat * nat * string) :=
  if Ascii.eqb c "p" then
    Some (List.length (projects v), PROJECT_CMD_CNT,
          " projects can be specified on the command line")
  else if Ascii.eqb c "c" then
    Some (List.length (collectors v), COLLECTOR_CMD_CNT,
          " collectors can be specified on the command line")
  else if Ascii.eqb c "t" then
    Some (List.length (types v), TYPE_CMD_CNT,
          " types can be specified on the command line")
  else if Ascii.eqb c "w" then
    Some (List.length (windows v), WINDOW_CMD_CNT,
          " windows can be specified on the command line")
  else if Ascii.eqb c "o" then
    Some (List.length (interface_options v), OPTION_CMD_CNT,
          " interface options can be specified")
  else None.

(** The globals of the data interface agree with the engine: the current
    id is not 0, its description is the engine's, and the default is [d]. *)
Definition datasource_ok {elem} (E : engine elem) (d : Z) (v : vars) : Prop :=
  datasource_id v <> 0 /\
  datasource_info v = data_interface_info E (datasource_id v) /\
  datasource_id_default v = d.

(** The option characters that take an argument with this [optstring]. *)
Definition takes_argument (c : ascii) : bool :=
  match (if Ascii.eqb c ":" then None else find_opt c optstring) with
  | Some temp => Ascii.eqb (first_char temp) ":"
  | None => false
  end.

(** The bodies of the [switch] for a list of options with their arguments,
    from left to right. *)
Fixpoint handle_all {elem} (E : engine elem) (optopt : ascii)
    (opts : list (ascii * string)) (v : vars) : M vars :=
  match opts with
  | [] => ret v
  | (c, a) :: opts' =>
      v' <- handle_option E c (Some a) optopt v ;;
      handle_all E optopt opts' v'
  end.

(** The elements of [argv] for options each followed by its argument. *)
Definition as_argv (opts : list (ascii * string)) : list string :=
  flat_map (fun o => [String "-" (String (fst o) ""); snd o]) opts.

(** The events of the pull loop. *)
Definition loop_event (e : event) : Prop :=
  match e with
  | Stdout _ => True
  | Stderr _ => True
  | Call bgpstream_get_next_record => True
  | Call (bgpstream_record_print_mrt_data _) => True
  | Call bgpstream_record_get_next_elem => True
  | Call (bgpstream_elem_snprintf _) => True
  | _ => False
  end.

(** A computation that ends as the C program means to: with a value or with
    status 0 or -1, not by a failed [assert] or the read of a NULL pointer
    (running out of fuel is the matter of [fueled]). *)
Definition ends_cleanly {A} (m : M A) : Prop :=
  match result m with
  | Ret _ => True
  | Exit c => c = 0 \/ c = -1
  | Abort => False
  | NoFuel => True
  end.

(** The engine has a default data interface and describes it, and it
    describes every data interface it finds by name. *)
Definition describes_interfaces {elem} (E : engine elem) : Prop :=
  data_interface_id E <> 0 /\
  data_interface_info E (data_interface_id E) <> None /\
  forall name, data_interface_id_by_name E name <> 0 ->
               data_interface_info E (data_interface_id_by_name E name) <> None.

(** The current data interface has an id and a description. *)
Definition interface_described (v : vars) : Prop :=
  datasource_id v <> 0 /\ datasource_info v <> None.

(** An event that is not a print on standard output. *)
Definition off_stdout (e : event) : Prop :=
  match e with
  | Stdout _ => False
  | _ => True
  end.

(** What the pull loop may do with the output modes of [v]: each print and
    each call on a record is allowed by the mode it belongs to. *)
Definition mode_event (v : vars) (e : event) : Prop :=
  match e with
  | Stdout _ => record_output_on v = true \/ elem_output_on v = true
  | Stderr _ => elem_output_on v = true
  | Call (bgpstream_record_print_mrt_data r) =>
      record_bgpdump_output_on v = true /\ is_valid_record (status r) = true
  | Call bgpstream_record_get_next_elem => elem_output_on v = true
  | Call (bgpstream_elem_snprintf _) => elem_output_on v = true
  | _ => True
  end.

(** The option characters the next call of [getopt] reads, with the number
    of operands it skips to reach them; [None] when the options are over. *)
Definition next_option (argv : list string) (g : getopt_state)
  : option (nat * string) :=
  match nextchar g with
  | EmptyString =>
      let k := skip_nonoptions (skipn (optind g) argv) in
      match nth_error argv (optind g + k) with
      | Some (String "-" (String c s)) =>
          if String.eqb (String c s) "-" then None else Some (k, String c s)
      | _ => None
      end
  | nc => Some (O, nc)
  end.

(** A command line in plain form: a list of flags ([None]) and of options
    each followed by its argument as an element of its own. *)
Definition item : Type := ascii * option string.

Definition item_argv (items : list item) : list string :=
  flat_map (fun it : item =>
              String "-" (String (fst it) "") ::
              match snd it with
              | Some a => [a]
              | None => []
              end) items.

(** A flag is an option character that takes no argument; the argument of
    an option does not start with a dash. *)
Definition item_ok (it : item) : Prop :=
  match snd it with
  | Some a =>
      takes_argument (fst it) = true /\ Ascii.eqb (first_char a) "-" = false
  | None => recognized (fst it) = true /\ takes_argument (fst it) = false
  end.

(** The bodies of the [switch] for a list of items, from left to right. *)
Fixpoint handle_items {elem} (E : engine elem) (optopt : ascii)
    (items : list item) (v : vars) : M vars :=
  match items with
  | [] => ret v
  | (c, optarg) :: items' =>
      v' <- handle_option E c optarg optopt v ;;
      handle_items E optopt items' v'
  end.

(** The state of [getopt] after the elements of a list of items. *)
Definition after_items (g : getopt_state) (items : list item) : getopt_state :=
  fold_left (fun (g : getopt_state) (it : item) =>
               mk_getopt
                 (match snd it with
                  | Some _ => S (S (optind g))
                  | None => S (optind g)
                  end) "" (optopt g) (optind g) (optind g))
    items g.





(** What [usage] prints and asks: the head of the text, the list of the
    data interfaces, for each of them its description and, when it has
    one, its line (marked when it is the default), then the rest of the
    text. *)
Definition usage_lines {elem} (E : engine elem) (v : vars) : list event :=
  [Stderr usage_head; Call bgpstream_get_data_interfaces] ++
  flat_map (fun id =>
              Call (bgpstream_get_data_interface_info id) ::
              match data_interface_info E id with
              | Some info =>
                  [Stderr ("       " +++ pad_right 15 (info_name info) +++
                           info_description info +++
                           (if id =? datasource_id_default v
                            then " (default)" else "") +++ nl)]
              | None => []
              end) (data_interfaces E) ++
  [Stderr usage_tail].

(** The header of a record as it is printed: seven fields, each followed
    by a bar, and the newline. *)
Definition header_events (r : bgpstream_record_t) : list event :=
  [Stdout (dec (record_time (attributes r)) +++ "|");
   Stdout (dump_project (attributes r) +++ "|");
   Stdout (dump_collector (attributes r) +++ "|");
   Stdout (get_dump_type_str (dump_type (attributes r)) +++ "|");
   Stdout (get_record_status_str (status r) +++ "|");
   Stdout (dec (dump_time (attributes r)) +++ "|");
   Stdout (get_dump_pos_str (dump_pos r) +++ "|");
   Stdout nl].

(** What element mode does for the elements of a record, [buf] being the
    buffer before: for each element the call of the iterator, the
    serialisation and the line printed; at the first failure the two
    diagnostics and nothing more; after the last element the call of the
    iterator that finds none. *)
Fixpoint elem_events {elem} (E : engine elem) (buf : list ascii)
    (elems : list elem) : list event :=
  match elems with
  | [] => [Call bgpstream_record_get_next_elem]
  | e :: elems' =>
      Call bgpstream_record_get_next_elem ::
      if snd (elem_snprintf E buf 65536%N e) then
        Call (bgpstream_elem_snprintf true) ::
        Stdout (cstring (fst (elem_snprintf E buf 65536%N e)) +++ nl) ::
        elem_events E (fst (elem_snprintf E buf 65536%N e)) elems'
      else elem_failure (fst (elem_snprintf E buf 65536%N e))
  end.

(** How element mode ends for the elements of a record, and the buffer it
    leaves. *)
Fixpoint elems_end {elem} (E : engine elem) (buf : list ascii)
    (elems : list elem) : loop_exit * list ascii :=
  match elems with
  | [] => (LoopDone, buf)
  | e :: elems' =>
      if snd (elem_snprintf E buf 65536%N e) then
        elems_end E (fst (elem_snprintf E buf 65536%N e)) elems'
      else (GotoErr, store 65535%N NUL (fst (elem_snprintf E buf 65536%N e)))
  end.

(** What the loop does with the record a pull leaves: nothing after a pull
    that returned 0; else the header in record mode, then, for a valid
    record, the MRT dump in [-m] mode and the elements in element mode. *)
Definition record_events {elem} (E : engine elem) (v : vars)
    (buf : list ascii) (get_next_ret : Z) (r : bgpstream_record_t)
    (elems : list elem) : list event :=
  if get_next_ret =? 0 then []
  else
    (if record_output_on v then header_events r else []) ++
    (if (is_valid_record (status r) && record_bgpdump_output_on v)%bool
     then [Call (bgpstream_record_print_mrt_data r)] else []) ++
    (if (is_valid_record (status r) && elem_output_on v)%bool
     then elem_events E buf elems else []).

Definition record_end {elem} (E : engine elem) (v : vars)
    (buf : list ascii) (get_next_ret : Z) (r : bgpstream_record_t)
    (elems : list elem) : loop_exit * list ascii :=
  if (negb (get_next_ret =? 0) && is_valid_record (status r) &&
      elem_output_on v)%bool
  then elems_end E buf elems
  else (LoopDone, buf).

(** The buffer of [print_elem] after the records of a list of pulls. *)
Fixpoint loop_buf {elem} (E : engine elem) (v : vars) (buf : list ascii)
    (pulls : list (Z * bgpstream_record_t * list elem)) : list ascii :=
  match pulls with
  | [] => buf
  | (get_next_ret, r, elems) :: pulls' =>
      loop_buf E v (snd (record_end E v buf get_next_ret r elems)) pulls'
  end.

(** * Properties *)

(** ** The monad *)

Lemma bind_ret {A B} (t : list event) (a : A) (f : A -> M B) :
  bind (t, Ret a) f = (t ++ trace (f a), result (f a)).
Proof. unfold bind, trace, result. destruct (f a); reflexivity. Qed.

Lemma bind_exit {A B} (t : list event) (c : Z) (f : A -> M B) :
  bind (t, Exit c) f = (t, Exit c).
Proof. reflexivity. Qed.

Lemma bind_emit {B} (e : event) (f : unit -> M B) :
  bind (emit e) f = (e :: trace (f tt), result (f tt)).
Proof. unfold emit. rewrite bind_ret. reflexivity. Qed.

Lemma M_eta {A} (m : M A) : m = (trace m, result m).
Proof. destruct m; reflexivity. Qed.

Lemma bind_trace_result {A B} (m : M A) (f : A -> M B) t a :
  trace m = t -> result m = Ret a ->
  bind m f = (t ++ trace (f a), result (f a)).
Proof.
  intros Ht Hr. rewrite (M_eta m), Ht, Hr. apply bind_ret.
Qed.

(** ** Strings *)

Lemma append_assoc (s1 s2 s3 : string) :
  s1 +++ s2 +++ s3 = (s1 +++ s2) +++ s3.
Proof. induction s1; simpl; congruence. Qed.

Lemma count_char_app c s1 s2 :
  count_char c (s1 +++ s2) = (count_char c s1 + count_char c s2)%nat.
Proof.
  induction s1 as [|a s1 IH]; simpl; [reflexivity|].
  rewrite IH. lia.
Qed.

Lemma count_bar_uint d : count_char "|" (NilEmpty.string_of_uint d) = O.
Proof. induction d; simpl; auto. Qed.

Lemma count_bar_dec z : count_char "|" (dec z) = O.
Proof.
  unfold dec. destruct (Z.to_int z) as [d|d]; simpl;
    destruct d; simpl; auto using count_bar_uint.
Qed.

Lemma count_bar_dump_type d : count_char "|" (get_dump_type_str d) = O.
Proof. destruct d; reflexivity. Qed.

Lemma count_bar_dump_pos p : count_char "|" (get_dump_pos_str p) = O.
Proof. destruct p; reflexivity. Qed.

Lemma count_bar_status s : count_char "|" (get_record_status_str s) = O.
Proof. destruct s; reflexivity. Qed.

(** ** The record header *)

(** C9: the header line of a record is its seven fields, record_time,
    dump_project, dump_collector, dump_type, status, dump_time and
    dump_pos in that order, each followed by a bar, then the newline; so
    the last bar comes immediately before the newline, and the line has
    exactly seven bars besides those inside the project and collector
    names, whether or not a field is empty. *)
Theorem print_bs_record_seven_bars (r : bgpstream_record_t) :
  result (print_bs_record r) = Ret tt /\
  stdout_text (trace (print_bs_record r)) =
    dec (record_time (attributes r)) +++ "|" +++
    dump_project (attributes r) +++ "|" +++
    dump_collector (attributes r) +++ "|" +++
    get_dump_type_str (dump_type (attributes r)) +++ "|" +++
    get_record_status_str (status r) +++ "|" +++
    dec (dump_time (attributes r)) +++ "|" +++
    get_dump_pos_str (dump_pos r) +++ "|" +++ nl /\
  count_char "|" (stdout_text (trace (print_bs_record r))) =
    (7 + count_char "|" (dump_project (attributes r))
       + count_char "|" (dump_collector (attributes r)))%nat.
Proof.
  assert (Htext : stdout_text (trace (print_bs_record r)) =
    dec (record_time (attributes r)) +++ "|" +++
    dump_project (attributes r) +++ "|" +++
    dump_collector (attributes r) +++ "|" +++
    get_dump_type_str (dump_type (attributes r)) +++ "|" +++
    get_record_status_str (status r) +++ "|" +++
    dec (dump_time (attributes r)) +++ "|" +++
    get_dump_pos_str (dump_pos r) +++ "|" +++ nl).
  { unfold print_bs_record, printf. rewrite !bind_emit.
    cbn [trace result fst snd emit stdout_text].
    rewrite <- !append_assoc. reflexivity. }
  split; [reflexivity|]. split; [exact Htext|].
  rewrite Htext, !count_char_app, !count_bar_dec, count_bar_dump_type,
    count_bar_status, count_bar_dump_pos.
  simpl. lia.
Qed.

(** ** The pull loop *)

Lemma trace_bind {A B} (m : M A) (f : A -> M B) a :
  result m = Ret a -> trace (bind m f) = trace m ++ trace (f a).
Proof.
  intros H. rewrite (bind_trace_result m f (trace m) a); auto.
Qed.

Lemma result_bind {A B} (m : M A) (f : A -> M B) a :
  result m = Ret a -> result (bind m f) = result (f a).
Proof.
  intros H. rewrite (bind_trace_result m f (trace m) a); auto.
Qed.

Lemma bind_ret_l {A B} (a : A) (f : A -> M B) : bind (ret a) f = f a.
Proof. unfold ret, bind. destruct (f a); reflexivity. Qed.

Lemma trace_bind_emit {B} (e : event) (f : unit -> M B) :
  trace (bind (emit e) f) = e :: trace (f tt).
Proof. rewrite bind_emit. reflexivity. Qed.

Lemma result_bind_emit {B} (e : event) (f : unit -> M B) :
  result (bind (emit e) f) = result (f tt).
Proof. rewrite bind_emit. reflexivity. Qed.

Lemma M_ext {A} (m : M A) t o : trace m = t -> result m = o -> m = (t, o).
Proof. intros <- <-. apply M_eta. Qed.

(** Runs the calls and prints at the head of a computation. *)
Ltac msimpl :=
  unfold do_call, fprintf_stderr, printf;
  repeat first
    [ rewrite bind_ret_l
    | rewrite trace_bind_emit
    | rewrite result_bind_emit ];
  cbn [app].

Lemma print_bs_record_result r : result (print_bs_record r) = Ret tt.
Proof. reflexivity. Qed.

Lemma trace_ret {A} (a : A) : trace (ret a) = [].
Proof. reflexivity. Qed.

Lemma dispatch_trace {elem} (E : engine elem) (v : vars)
    (buf : list ascii) (get_next_ret : Z) (r : bgpstream_record_t)
    (elems : list elem) :
  get_next_ret <> 0 ->
  trace (dispatch E v buf get_next_ret r elems) =
    (if record_output_on v then trace (print_bs_record r) else []) ++
    (if (is_valid_record (status r) && record_bgpdump_output_on v)%bool
     then [Call (bgpstream_record_print_mrt_data r)] else []) ++
    (if (is_valid_record (status r) && elem_output_on v)%bool
     then trace (print_elems E buf elems) else []).
Proof.
  intros Hret. apply Z.eqb_neq in Hret.
  unfold dispatch. rewrite Hret. cbn [negb andb].
  destruct (record_output_on v), (is_valid_record (status r)),
    (record_bgpdump_output_on v), (elem_output_on v); cbn [andb];
    repeat first
      [ rewrite (trace_bind (print_bs_record r) _ tt (print_bs_record_result r))
      | rewrite (trace_bind (ret tt) _ tt eq_refl)
      | rewrite (trace_bind (do_call _) _ tt eq_refl)
      | rewrite trace_ret ];
    cbn [trace do_call emit fst app]; rewrite ?app_nil_r; reflexivity.
Qed.

(** *** Serialisation of the elements *)

Section Driver.

Context {elem : Type}.
Variable E : engine elem.

Lemma print_elem_eq (buf : list ascii) (e : elem) :
  print_elem E buf e =
    if snd (elem_snprintf E buf 65536%N e) then
      ([Call (bgpstream_elem_snprintf true);
        Stdout (cstring (fst (elem_snprintf E buf 65536%N e)) +++ nl)],
       Ret (0, fst (elem_snprintf E buf 65536%N e)))
    else
      (elem_failure (fst (elem_snprintf E buf 65536%N e)),
       Ret (-1, store 65535%N NUL (fst (elem_snprintf E buf 65536%N e)))).
Proof.
  unfold print_elem. destruct (elem_snprintf E buf 65536%N e) as [b ok].
  destruct ok; reflexivity.
Qed.

Lemma print_elems_eq (elems : list elem) : forall buf,
  print_elems E buf elems =
    (elem_events E buf elems, Ret (elems_end E buf elems)).
Proof.
  induction elems as [|e es IH]; intros buf; [reflexivity|].
  cbn [print_elems elem_events elems_end]. unfold do_call. rewrite bind_emit.
  rewrite print_elem_eq.
  destruct (snd (elem_snprintf E buf 65536%N e)).
  - rewrite bind_ret. cbn [fst snd negb Z.eqb trace result].
    rewrite IH. reflexivity.
  - rewrite bind_ret. cbn [fst snd negb Z.eqb trace result ret].
    rewrite app_nil_r. reflexivity.
Qed.

Lemma print_bs_record_eq r : print_bs_record r = (header_events r, Ret tt).
Proof. reflexivity. Qed.

(** The body of the loop for one pull, event by event. *)
Lemma dispatch_eq v buf get_next_ret r elems :
  dispatch E v buf get_next_ret r elems =
    (record_events E v buf get_next_ret r elems,
     Ret (record_end E v buf get_next_ret r elems)).
Proof.
  unfold dispatch, record_events, record_end.
  destruct (get_next_ret =? 0); cbn [negb andb]; [reflexivity|].
  rewrite print_elems_eq, print_bs_record_eq.
  destruct (record_output_on v), (is_valid_record (status r)),
    (record_bgpdump_output_on v), (elem_output_on v);
    cbn [andb]; unfold do_call;
    rewrite ?bind_ret, ?bind_emit, ?bind_ret_l;
    cbn [trace result fst snd ret app]; rewrite ?app_nil_r; reflexivity.
Qed.

(** One turn of the loop. *)
Lemma pull_loop_cons v buf get_next_ret r elems rest :
  pull_loop E v buf ((get_next_ret, r, elems) :: rest) =
    (Call bgpstream_get_next_record ::
     record_events E v buf get_next_ret r elems ++
     match fst (record_end E v buf get_next_ret r elems) with
     | LoopDone =>
         if get_next_ret >? 0
         then trace (pull_loop E v
                       (snd (record_end E v buf get_next_ret r elems)) rest)
         else []
     | GotoErr => []
     end,
     match fst (record_end E v buf get_next_ret r elems) with
     | LoopDone =>
         if get_next_ret >? 0
         then result (pull_loop E v
                        (snd (record_end E v buf get_next_ret r elems)) rest)
         else Ret LoopDone
     | GotoErr => Ret GotoErr
     end).
Proof.
  cbn [pull_loop]. unfold do_call. rewrite bind_emit, dispatch_eq, bind_ret.
  cbn [trace result fst snd].
  destruct (fst (record_end E v buf get_next_ret r elems));
    [destruct (get_next_ret >? 0)|]; cbn [trace result ret fst snd];
    reflexivity.
Qed.

(** The loop over pulls that all return a positive value and end without
    [goto err], followed by one more pull: the last call of the first is
    that pull, and its record is handled with the buffer the earlier
    records left. *)
Lemma pull_loop_next v before : forall buf,
  Forall (fun p => 0 < fst (fst p)) before ->
  result (pull_loop E v buf before) = Ret LoopDone ->
  forall get_next_ret r elems rest,
    pull_loop E v buf (before ++ (get_next_ret, r, elems) :: rest) =
      (trace (pull_loop E v buf before) ++
       record_events E v (loop_buf E v buf before) get_next_ret r elems ++
       match fst (record_end E v (loop_buf E v buf before)
                    get_next_ret r elems) with
       | LoopDone =>
           if get_next_ret >? 0
           then trace (pull_loop E v
                         (snd (record_end E v (loop_buf E v buf before)
                                 get_next_ret r elems)) rest)
           else []
       | GotoErr => []
       end,
       match fst (record_end E v (loop_buf E v buf before)
                    get_next_ret r elems) with
       | LoopDone =>
           if get_next_ret >? 0
           then result (pull_loop E v
                          (snd (record_end E v (loop_buf E v buf before)
                                  get_next_ret r elems)) rest)
           else Ret LoopDone
       | GotoErr => Ret GotoErr
       end).
Proof.
  induction before as [|[[ret0 r0] es0] before IH];
    intros buf Hpos Hdone get_next_ret r elems rest.
  - cbn [app loop_buf]. rewrite pull_loop_cons. reflexivity.
  - inversion Hpos as [|p ps Hp Hps]; subst. cbn [fst] in Hp.
    assert (Hgt : (ret0 >? 0) = true)
      by (rewrite Z.gtb_ltb; apply Z.ltb_lt; lia).
    rewrite pull_loop_cons in Hdone. cbn [result snd] in Hdone.
    cbn [app loop_buf]. rewrite !pull_loop_cons.
    destruct (fst (record_end E v buf ret0 r0 es0)); [|discriminate].
    rewrite Hgt in *.
    rewrite (IH _ Hps Hdone). cbn [trace result fst snd app].
    rewrite <- app_assoc. reflexivity.
Qed.

Lemma not_in_app {A} (x : A) l1 l2 :
  ~ In x l1 -> ~ In x l2 -> ~ In x (l1 ++ l2).
Proof. intros H1 H2 H. apply in_app_or in H. tauto. Qed.

Lemma print_elems_ends (elems : list elem) : forall buf,
  exists le b, result (print_elems E buf elems) = Ret (le, b) /\
               ends_well E (print_elems E buf elems) le.
Proof.
  induction elems as [|e es IH]; intros buf.
  - exists LoopDone, buf. split; [reflexivity|]. left. split; [reflexivity|].
    simpl. intros [H|[]]. discriminate.
  - cbn [print_elems]. unfold do_call. rewrite bind_emit.
    rewrite print_elem_eq.
    destruct (elem_snprintf E buf 65536%N e) as [b ok] eqn:Hsn. cbn [fst snd].
    destruct ok.
    + rewrite bind_ret. cbn [fst snd negb Z.eqb].
      destruct (IH b) as (le & b' & Hr & Hw).
      exists le, b'. cbn [trace result fst snd]. split; [exact Hr|].
      destruct Hw as [[-> Hn]|[-> (t0 & bf & e' & Hf & Ht)]].
      * left. split; [reflexivity|].
        cbn [app]. intros [H|[H|[H|H]]]; try discriminate. tauto.
      * right. split; [reflexivity|].
        exists (Call bgpstream_record_get_next_elem ::
                Call (bgpstream_elem_snprintf true) ::
                Stdout (cstring b +++ nl) :: t0), bf, e'.
        split; [exact Hf|]. cbn [app]. rewrite Ht. reflexivity.
    + rewrite bind_ret. cbn [fst snd negb Z.eqb].
      exists GotoErr, (store 65535%N NUL b). cbn [trace result fst snd ret].
      split; [reflexivity|]. right. split; [reflexivity|].
      exists [Call bgpstream_record_get_next_elem], buf, e.
      rewrite Hsn. split; [reflexivity|].
      rewrite app_nil_r. reflexivity.
Qed.

Lemma print_bs_record_no_failure r :
  ~ In (Call (bgpstream_elem_snprintf false)) (trace (print_bs_record r)).
Proof.
  unfold print_bs_record, printf. rewrite !bind_emit.
  cbn [trace result fst snd emit]. simpl.
  intuition discriminate.
Qed.

Lemma dispatch_ends v buf get_next_ret r elems :
  exists le b, result (dispatch E v buf get_next_ret r elems) = Ret (le, b) /\
               ends_well E (dispatch E v buf get_next_ret r elems) le.
Proof.
  assert (Hnone : forall t, ~ In (Call (bgpstream_elem_snprintf false)) t ->
            exists le b, result (t, @Ret (loop_exit * list ascii) (LoopDone, buf))
                         = Ret (le, b) /\
                         ends_well E (t, @Ret (loop_exit * list ascii) (LoopDone, buf)) le).
  { intros t Ht. exists LoopDone, buf. split; [reflexivity|]. left. auto. }
  assert (Hpre : forall t, ~ In (Call (bgpstream_elem_snprintf false)) t ->
            exists le b,
              result (t ++ trace (print_elems E buf elems),
                      result (print_elems E buf elems)) = Ret (le, b) /\
              ends_well E (t ++ trace (print_elems E buf elems),
                           result (print_elems E buf elems)) le).
  { intros t Ht. destruct (print_elems_ends elems buf) as (le & b & Hr & Hw).
    exists le, b. split; [exact Hr|].
    destruct Hw as [[-> Hn]|[-> (t0 & bf & e & Hf & Heq)]].
    - left. split; [reflexivity|]. apply not_in_app; assumption.
    - right. split; [reflexivity|]. exists (t ++ t0), bf, e.
      split; [exact Hf|].
      cbn [trace fst]. rewrite Heq, app_assoc. reflexivity. }
  pose proof (print_bs_record_no_failure r) as Hh.
  unfold dispatch.
  destruct (negb (get_next_ret =? 0)); cbn [andb];
    destruct (record_output_on v), (is_valid_record (status r)),
      (record_bgpdump_output_on v), (elem_output_on v);
    repeat first
      [ rewrite (bind_trace_result (print_bs_record r) _ _ tt eq_refl
                   (print_bs_record_result r))
      | rewrite (bind_trace_result (ret tt) _ _ tt eq_refl eq_refl)
      | rewrite (bind_trace_result (do_call _) _ _ tt eq_refl eq_refl) ];
    cbn [trace result do_call emit ret fst snd];
    rewrite ?app_nil_r, ?app_nil_l;
    first
      [ apply Hnone; first [ exact Hh | simpl; intuition discriminate ]
      | rewrite ?app_assoc; apply Hpre;
        first [ exact Hh
              | apply not_in_app; [exact Hh|simpl; intuition discriminate]
              | simpl; intuition discriminate ]
      | apply (Hpre []); simpl; tauto
      | idtac ].
Qed.

Lemma dispatch_result v buf get_next_ret r elems :
  get_next_ret <> 0 ->
  result (dispatch E v buf get_next_ret r elems) =
    if (is_valid_record (status r) && elem_output_on v)%bool
    then result (print_elems E buf elems)
    else Ret (LoopDone, buf).
Proof.
  intros Hret. apply Z.eqb_neq in Hret.
  unfold dispatch. rewrite Hret. cbn [negb andb].
  destruct (record_output_on v), (is_valid_record (status r)),
    (record_bgpdump_output_on v), (elem_output_on v); cbn [andb];
    repeat first
      [ rewrite (result_bind (print_bs_record r) _ tt (print_bs_record_result r))
      | rewrite bind_ret_l
      | rewrite (result_bind (do_call _) _ tt eq_refl) ];
    reflexivity.
Qed.

Lemma pull_loop_ends v pulls : forall buf,
  exists le, result (pull_loop E v buf pulls) = Ret le /\
             ends_well E (pull_loop E v buf pulls) le.
Proof.
  induction pulls as [|[[get_next_ret r] elems] pulls IH]; intros buf.
  - exists LoopDone. split; [reflexivity|]. left. split; [reflexivity|].
    simpl. intuition discriminate.
  - cbn [pull_loop]. unfold do_call. rewrite bind_emit.
    destruct (dispatch_ends v buf get_next_ret r elems) as (le & b & Hr & Hw).
    rewrite (bind_trace_result _ _ _ _ eq_refl Hr). cbn [fst snd].
    destruct Hw as [[-> Hn]|[-> (t0 & bf & e & Hf & Heq)]].
    + destruct (get_next_ret >? 0).
      * destruct (IH b) as (le' & Hr' & Hw'). exists le'.
        cbn [trace result fst snd]. split; [exact Hr'|].
        destruct Hw' as [[-> Hn']|[-> (t0 & bf & e & Hf & Heq)]].
        -- left. split; [reflexivity|].
           intros [H|H]; [discriminate|].
           apply in_app_or in H. tauto.
        -- right. split; [reflexivity|].
           exists (Call bgpstream_get_next_record ::
                   trace (dispatch E v buf get_next_ret r elems) ++ t0), bf, e.
           split; [exact Hf|].
           rewrite Heq. cbn [app]. rewrite app_assoc. reflexivity.
      * exists LoopDone. cbn [trace result fst snd ret].
        split; [reflexivity|]. left. split; [reflexivity|].
        rewrite app_nil_r. intros [H|H]; [discriminate|tauto].
    + exists GotoErr. cbn [trace result fst snd ret].
      split; [reflexivity|]. right. split; [reflexivity|].
      exists (Call bgpstream_get_next_record :: t0), bf, e.
      split; [exact Hf|].
      rewrite app_nil_r, Heq. reflexivity.
Qed.

(** The loop over pulls that all return a positive value and end without
    [goto err], followed by a pull that returns zero or less: the last call
    of the first is that pull, and the record it leaves is dispatched with
    the buffer as the earlier records left it. *)
Lemma pull_loop_reaches v ps : forall buf,
  Forall (fun p => 0 < fst (fst p)) ps ->
  result (pull_loop E v buf ps) = Ret LoopDone ->
  exists buf', forall get_next_ret r elems pulls,
    get_next_ret <= 0 ->
    exists le b,
      result (dispatch E v buf' get_next_ret r elems) = Ret (le, b) /\
      pull_loop E v buf (ps ++ (get_next_ret, r, elems) :: pulls) =
        (trace (pull_loop E v buf ps) ++
         trace (dispatch E v buf' get_next_ret r elems), Ret le).
Proof.
  induction ps as [|[[ret0 r0] es0] ps IH]; intros buf Hpos Hdone.
  - exists buf. intros get_next_ret r elems pulls Hle.
    destruct (dispatch_ends v buf get_next_ret r elems) as (le & b & Hd & _).
    exists le, b. split; [exact Hd|].
    assert (Hgt : (get_next_ret >? 0) = false)
      by (rewrite Z.gtb_ltb; apply Z.ltb_ge; lia).
    cbn [app]. apply M_ext; cbn [pull_loop]; msimpl.
    + rewrite (trace_bind _ _ _ Hd). cbn [fst snd]. rewrite Hgt.
      destruct le; cbn [trace ret fst]; rewrite app_nil_r; reflexivity.
    + rewrite (result_bind _ _ _ Hd). cbn [fst snd]. rewrite Hgt.
      destruct le; reflexivity.
  - inversion Hpos as [|p ps' Hp Hps]; subst. cbn [fst] in Hp.
    assert (Hgt : (ret0 >? 0) = true)
      by (rewrite Z.gtb_ltb; apply Z.ltb_lt; lia).
    destruct (dispatch_ends v buf ret0 r0 es0) as (le0 & b0 & Hd0 & _).
    assert (Hstep : forall rest,
              pull_loop E v buf ((ret0, r0, es0) :: rest) =
                (Call bgpstream_get_next_record ::
                 trace (dispatch E v buf ret0 r0 es0) ++
                 match le0 with
                 | LoopDone => trace (pull_loop E v b0 rest)
                 | GotoErr => []
                 end,
                 match le0 with
                 | LoopDone => result (pull_loop E v b0 rest)
                 | GotoErr => Ret GotoErr
                 end)).
    { intros rest. apply M_ext; cbn [pull_loop]; msimpl.
      - rewrite (trace_bind _ _ _ Hd0). cbn [fst snd]. rewrite Hgt.
        destruct le0; reflexivity.
      - rewrite (result_bind _ _ _ Hd0). cbn [fst snd]. rewrite Hgt.
        destruct le0; reflexivity. }
    rewrite Hstep in Hdone. cbn [result snd] in Hdone.
    destruct le0; [|discriminate].
    destruct (IH b0 Hps Hdone) as (buf' & Hbuf').
    exists buf'. intros get_next_ret r elems pulls Hle.
    destruct (Hbuf' get_next_ret r elems pulls Hle) as (le & b & Hd & Heq).
    exists le, b. split; [exact Hd|].
    cbn [app]. rewrite !Hstep, Heq. cbn [trace result fst snd app].
    rewrite <- app_assoc. reflexivity.
Qed.

(** [stream] once the record handle exists and the engine has started. *)
Lemma stream_started v le :
  record_create_succeeds E = true ->
  0 <= start_ret E ->
  result (pull_loop E v elem_buf_init (next_records E)) = Ret le ->
  stream E v =
    ([Call bgpstream_record_create; Call bgpstream_start] ++
     trace (pull_loop E v elem_buf_init (next_records E)) ++ teardown,
     Exit (loop_status le)).
Proof.
  intros Hc Hs Hr. apply Z.ltb_ge in Hs.
  apply M_ext; unfold stream; rewrite Hc, Hs; msimpl.
  - rewrite (trace_bind _ _ _ Hr). destruct le; reflexivity.
  - rewrite (result_bind _ _ _ Hr). destruct le; reflexivity.
Qed.

(** [stream] when the engine does not start. *)
Lemma stream_not_started v :
  record_create_succeeds E = true ->
  start_ret E < 0 ->
  stream E v =
    ([Call bgpstream_record_create; Call bgpstream_start;
      Stderr ("ERROR: Could not init BGPStream" +++ nl)], Exit (-1)).
Proof.
  intros Hc Hs. apply Z.ltb_lt in Hs.
  unfold stream, do_call. rewrite Hc, Hs. reflexivity.
Qed.

End Driver.

(** C6: for every record of the pull loop (the pull returned nonzero,
    after pulls that returned a positive value without a failed
    serialisation), what the loop does between this pull and the next is,
    in this order: the header, field by field, exactly when record mode is
    on, whatever the status; the engine's MRT dump exactly when the status
    is valid_record and MRT mode is on; the elements, one line each,
    exactly when the status is valid_record and element mode is on.  Then
    the loop goes on with the next pull when this one returned a positive
    value and no serialisation failed, and is left otherwise. *)
Theorem dispatch_header_mrt_elems {elem} (E : engine elem) (v : vars)
    (buf0 : list ascii) (before : list (Z * bgpstream_record_t * list elem))
    (get_next_ret : Z) (r : bgpstream_record_t) (elems : list elem)
    (pulls : list (Z * bgpstream_record_t * list elem)) :
  get_next_ret <> 0 ->
  Forall (fun p => 0 < fst (fst p)) before ->
  result (pull_loop E v buf0 before) = Ret LoopDone ->
  trace (pull_loop E v buf0 (before ++ (get_next_ret, r, elems) :: pulls)) =
    trace (pull_loop E v buf0 before) ++
    (if record_output_on v then header_events r else []) ++
    (if (is_valid_record (status r) && record_bgpdump_output_on v)%bool
     then [Call (bgpstream_record_print_mrt_data r)] else []) ++
    (if (is_valid_record (status r) && elem_output_on v)%bool
     then elem_events E (loop_buf E v buf0 before) elems else []) ++
    match fst (record_end E v (loop_buf E v buf0 before)
                 get_next_ret r elems) with
    | LoopDone =>
        if get_next_ret >? 0
        then trace (pull_loop E v
                      (snd (record_end E v (loop_buf E v buf0 before)
                              get_next_ret r elems)) pulls)
        else []
    | GotoErr => []
    end.
Proof.
  intros Hret Hpos Hdone. apply Z.eqb_neq in Hret.
  rewrite (pull_loop_next E v before buf0 Hpos Hdone). cbn [trace fst].
  unfold record_events. rewrite Hret.
  rewrite <- !app_assoc. reflexivity.
Qed.

(** C1, as the code has it: when [bgpstream_start] returns a negative
    value, [main] prints its diagnostic and returns -1 at once.  None of
    the three calls that release the handles is made on that path, although
    the record handle and the engine exist. *)
Theorem start_failure_exits_without_teardown {elem} (E : engine elem) (v : vars) :
  record_create_succeeds E = true ->
  start_ret E < 0 ->
  stream E v =
    ([Call bgpstream_record_create; Call bgpstream_start;
      Stderr ("ERROR: Could not init BGPStream" +++ nl)], Exit (-1)) /\
  forall e, In e teardown -> ~ In e (trace (stream E v)).
Proof.
  intros Hc Hs. rewrite (stream_not_started E v Hc Hs).
  split; [reflexivity|].
  intros e He Hin. simpl in He, Hin.
  intuition (subst; discriminate).
Qed.

(** C7: when a pull returns a negative value, the record left in the
    handle is still given to the formatters: after that pull (the last call
    of the loop over the pulls before it) come the header, field by field,
    if record mode is on and, if the status reads valid_record, the MRT
    dump and the elements, one line each, of the modes that are on.  Then
    the loop is left: no further pull is made, the handles are released and
    [main] returns, with status -1 if a serialisation failed and 0
    otherwise. *)
Theorem negative_pull_still_dispatched {elem} (E : engine elem) (v : vars)
    (before : list (Z * bgpstream_record_t * list elem))
    (get_next_ret : Z) (r : bgpstream_record_t) (elems : list elem)
    (pulls : list (Z * bgpstream_record_t * list elem)) :
  record_create_succeeds E = true ->
  0 <= start_ret E ->
  next_records E = before ++ (get_next_ret, r, elems) :: pulls ->
  Forall (fun p => 0 < fst (fst p)) before ->
  result (pull_loop E v elem_buf_init before) = Ret LoopDone ->
  get_next_ret < 0 ->
  stream E v =
    ([Call bgpstream_record_create; Call bgpstream_start] ++
     trace (pull_loop E v elem_buf_init before) ++
     (if record_output_on v then header_events r else []) ++
     (if (is_valid_record (status r) && record_bgpdump_output_on v)%bool
      then [Call (bgpstream_record_print_mrt_data r)] else []) ++
     (if (is_valid_record (status r) && elem_output_on v)%bool
      then elem_events E (loop_buf E v elem_buf_init before) elems else []) ++
     [Call bgpstream_record_destroy; Call bgpstream_stop;
      Call bgpstream_destroy],
     Exit (if (is_valid_record (status r) && elem_output_on v)%bool
           then loop_status
                  (fst (elems_end E (loop_buf E v elem_buf_init before) elems))
           else 0)).
Proof.
  intros Hc Hs Hn Hpos Hdone Hneg.
  assert (Hgt : (get_next_ret >? 0) = false)
    by (rewrite Z.gtb_ltb; apply Z.ltb_ge; lia).
  assert (Hnz : (get_next_ret =? 0) = false) by (apply Z.eqb_neq; lia).
  pose proof (pull_loop_next E v before elem_buf_init Hpos Hdone
                get_next_ret r elems pulls) as Hp.
  rewrite <- Hn, Hgt in Hp.
  set (le := fst (record_end E v (loop_buf E v elem_buf_init before)
                    get_next_ret r elems)) in *.
  assert (Hr : result (pull_loop E v elem_buf_init (next_records E)) = Ret le).
  { rewrite Hp. cbn [result snd]. destruct le; reflexivity. }
  rewrite (stream_started E v le Hc Hs Hr). rewrite Hp. cbn [trace fst].
  assert (Hle : le = if (is_valid_record (status r) && elem_output_on v)%bool
                     then fst (elems_end E (loop_buf E v elem_buf_init before)
                                 elems)
                     else LoopDone).
  { subst le. unfold record_end. rewrite Hnz. cbn [negb andb].
    destruct (is_valid_record (status r) && elem_output_on v)%bool;
      reflexivity. }
  unfold record_events, teardown. rewrite Hnz.
  f_equal.
  - f_equal. rewrite <- !app_assoc. do 4 f_equal.
    destruct le; rewrite app_nil_l; reflexivity.
  - rewrite Hle.
    destruct (is_valid_record (status r) && elem_output_on v)%bool;
      reflexivity.
Qed.

Lemma cstring_store_length (buf : list ascii) : forall i : N,
  (N.of_nat (String.length (cstring (store i NUL buf))) <= i)%N.
Proof.
  induction buf as [|b buf IH]; intros i; simpl; [lia|].
  destruct (N.eqb_spec i 0) as [->|Hi]; simpl; [reflexivity|].
  destruct (Ascii.eqb b NUL); simpl; [lia|].
  specialize (IH (N.pred i)). lia.
Qed.

(** C8: whenever the engine's serialisation of an element returns NULL,
    the program writes "Failed to construct elem string" and then the buffer
    that call left, as a string cut at byte 65535; the next things it does
    are to destroy the record, stop the engine and destroy the engine, and
    its status is -1. *)
Theorem elem_failure_is_fatal {elem} (E : engine elem) (v : vars) :
  In (Call (bgpstream_elem_snprintf false)) (trace (stream E v)) ->
  exists t0 buf0 e,
    snd (elem_snprintf E buf0 65536%N e) = false /\
    let text :=
      cstring (store 65535%N NUL (fst (elem_snprintf E buf0 65536%N e))) in
    (N.of_nat (String.length text) <= 65535)%N /\
    trace (stream E v) =
      t0 ++
      [Call (bgpstream_elem_snprintf false);
       Stderr ("Failed to construct elem string" +++ nl);
       Stderr ("Elem string: " +++ text +++ nl);
       Call bgpstream_record_destroy; Call bgpstream_stop;
       Call bgpstream_destroy] /\
    result (stream E v) = Exit (-1).
Proof.
  intros Hin.
  destruct (record_create_succeeds E) eqn:Hc.
  2:{ exfalso. revert Hin. unfold stream. rewrite Hc. msimpl.
      simpl. intuition discriminate. }
  destruct (Z.ltb_spec (start_ret E) 0) as [Hs|Hs].
  { exfalso. rewrite (stream_not_started E v Hc Hs) in Hin.
    simpl in Hin. intuition discriminate. }
  destruct (pull_loop_ends E v (next_records E) elem_buf_init)
    as (le & Hr & Hw).
  rewrite (stream_started E v le Hc Hs Hr) in *. cbn [trace result fst snd] in *.
  destruct Hw as [[-> Hn]|[-> (t0 & buf & e & Hf & Heq)]].
  - exfalso. cbn [app] in Hin.
    destruct Hin as [H|[H|H]]; try discriminate.
    apply in_app_or in H. destruct H as [H|H]; [tauto|].
    simpl in H. intuition discriminate.
  - exists ([Call bgpstream_record_create; Call bgpstream_start] ++ t0), buf, e.
    split; [exact Hf|]. split; [apply cstring_store_length|].
    split; [|reflexivity].
    rewrite Heq. unfold elem_failure, teardown.
    rewrite <- !app_assoc. reflexivity.
Qed.

(** ** The library's [getopt] *)

(** [exchange] leaves the elements from [top] on where they are. *)
Lemma skipn_exchange (argv : list string) (bottom middle top k : nat) :
  (top <= k)%nat ->
  skipn k (exchange argv bottom middle top) = skipn k argv.
Proof.
  intros Hk. unfold exchange.
  destruct (Nat.ltb_spec bottom middle) as [Hb|Hb]; cbn [andb];
    [|reflexivity].
  destruct (Nat.ltb_spec middle top) as [Hm|Hm]; [|reflexivity].
  destruct (Nat.le_gt_cases top (List.length argv)) as [Hl|Hl].
  - rewrite !app_assoc.
    set (pre := (firstn bottom argv ++
                 firstn (top - middle) (skipn middle argv)) ++
                firstn (middle - bottom) (skipn bottom argv)).
    assert (Hlen : List.length pre = top).
    { subst pre. rewrite !length_app, !length_firstn, !length_skipn.
      repeat match goal with
             | |- context [Init.Nat.min ?a ?b] =>
                 destruct (Nat.min_spec a b) as [[? ->]|[? ->]]
             end; lia. }
    rewrite skipn_app, Hlen.
    rewrite (skipn_all2 pre) by lia. cbn [app].
    rewrite skipn_skipn. f_equal. lia.
  - replace (skipn k argv) with (@nil string)
      by (symmetry; apply skipn_all2; lia).
    apply skipn_all2.
    rewrite !length_app, !length_firstn, !length_skipn.
    repeat match goal with
           | |- context [Init.Nat.min ?a ?b] =>
               destruct (Nat.min_spec a b) as [[? ->]|[? ->]]
           end; lia.
Qed.

Lemma nth_error_skipn_eq (l l' : list string) (n i : nat) :
  skipn n l' = skipn n l -> nth_error l' (n + i) = nth_error l (n + i).
Proof.
  intros H. rewrite <- !nth_error_skipn, H. reflexivity.
Qed.

(** The permutation leaves [argv] from [optind] on as it is. *)
Lemma permute_skipn (argv : list string) (g : getopt_state) :
  skipn (optind g) (fst (permute argv g)) = skipn (optind g) argv.
Proof.
  unfold permute.
  destruct (negb _ && negb _)%bool;
    [apply skipn_exchange; lia|].
  destruct (negb _); reflexivity.
Qed.

(** Nothing is permuted when no operand has been skipped since the last
    permutation. *)
Lemma permute_none (argv : list string) (g : getopt_state) :
  first_nonopt g = last_nonopt g -> permute argv g = (argv, optind g).
Proof.
  intros H. unfold permute. rewrite H, Nat.eqb_refl. cbn [negb andb].
  destruct (Nat.eqb_spec (Nat.min (last_nonopt g) (optind g)) (optind g))
    as [He|He]; cbn [negb]; [|reflexivity].
  rewrite He. reflexivity.
Qed.

(** The loop over the operands stops at an option element or at the end. *)
Lemma skip_nonoptions_stops (l : list string) :
  match nth_error l (skip_nonoptions l) with
  | Some a => nonoption a = false
  | None => True
  end.
Proof.
  induction l as [|a l IH]; [exact I|].
  cbn [skip_nonoptions]. destruct (nonoption a) eqn:Ha; [exact IH|exact Ha].
Qed.

Lemma nonoption_false (a : string) :
  nonoption a = false -> exists c s, a = String "-" (String c s).
Proof.
  destruct a as [|d [|c s]]; try discriminate.
  - destruct d as [[] [] [] [] [] [] [] []]; discriminate.
  - destruct d as [[] [] [] [] [] [] [] []]; try discriminate.
    intros _. exists c, s. reflexivity.
Qed.

(** The advance to an option element: [argv] is permuted before [optind]
    at most, the operands before the element are skipped and [nextchar] is
    the text after its dash. *)
Lemma next_element_option (argv : list string) (g : getopt_state) (a : string) :
  nth_error argv (optind g + skip_nonoptions (skipn (optind g) argv)) = Some a ->
  String.eqb a "--" = false ->
  next_element argv g =
    (false, fst (permute argv g),
     mk_getopt (optind g + skip_nonoptions (skipn (optind g) argv))
       (match a with String _ s => s | EmptyString => a end)
       (optopt g) (snd (permute argv g))
       (optind g + skip_nonoptions (skipn (optind g) argv))).
Proof.
  intros Ha Hdd. unfold next_element.
  pose proof (permute_skipn argv g) as Hs.
  destruct (permute argv g) as [argvp first']. cbn [fst snd] in *.
  rewrite Hs, (nth_error_skipn_eq argv argvp (optind g) _ Hs), Ha, Hdd.
  reflexivity.
Qed.

(** The advance at the end of [argv] or at [--]: the options are over. *)
Lemma next_element_end (argv : list string) (g : getopt_state) :
  match nth_error argv (optind g + skip_nonoptions (skipn (optind g) argv)) with
  | Some a => String.eqb a "--" = true
  | None => True
  end ->
  fst (fst (next_element argv g)) = true.
Proof.
  intros H. unfold next_element.
  pose proof (permute_skipn argv g) as Hs.
  destruct (permute argv g) as [argvp first']. cbn [fst snd] in *.
  rewrite Hs, (nth_error_skipn_eq argv argvp (optind g) _ Hs).
  destruct (nth_error argv _) as [a|]; [|reflexivity].
  rewrite H.
  destruct (negb _ && negb _)%bool; [reflexivity|].
  destruct (Nat.eqb _ _); reflexivity.
Qed.

(** [next_option] tells what [getopt] reads next. *)
Lemma getopt_next (argv : list string) (os : string) (g : getopt_state)
    (k : nat) (cs : string) :
  next_option argv g = Some (k, cs) ->
  exists argv' f l,
    getopt argv os g =
      short_option argv' os (mk_getopt (optind g + k) cs (optopt g) f l) /\
    skipn (optind g) argv' = skipn (optind g) argv /\
    cs <> "" /\
    (first_nonopt g = last_nonopt g -> nextchar g = "" ->
     argv' = argv /\ f = optind g /\ l = (optind g + k)%nat).
Proof.
  unfold next_option, getopt. destruct (nextchar g) as [|c nc] eqn:Hn.
  - cbn [is_empty].
    destruct (nth_error argv _) as [[|d [|c s]]|] eqn:Ha; try discriminate;
      destruct d as [[] [] [] [] [] [] [] []]; try discriminate.
    destruct (String.eqb (String c s) "-") eqn:Hd; [discriminate|].
    intros H. inversion H; subst k cs. clear H.
    rewrite (next_element_option argv g _ Ha)
      by (cbn [String.eqb Ascii.eqb Bool.eqb]; exact Hd).
    eexists _, _, _. split; [reflexivity|].
    split; [apply permute_skipn|]. split; [discriminate|].
    intros Hfl _. rewrite (permute_none argv g Hfl). cbn [fst snd].
    repeat split.
  - intros H. inversion H; subst k cs. clear H. cbn [is_empty].
    exists argv, (first_nonopt g), (last_nonopt g).
    split.
    + rewrite Nat.add_0_r. destruct g as [i n o f l]. cbn in *. subst n.
      unfold short_option. reflexivity.
    + split; [reflexivity|]. split; [discriminate|].
      intros _ Hne. discriminate Hne.
Qed.

(** When [next_option] finds none, the options are over. *)
Lemma getopt_over (argv : list string) (os : string) (g : getopt_state) :
  next_option argv g = None -> fst (fst (getopt argv os g)) = None.
Proof.
  unfold next_option, getopt. destruct (nextchar g) as [|c nc] eqn:Hn;
    [|discriminate].
  cbn [is_empty]. intros H.
  assert (He : fst (fst (next_element argv g)) = true).
  { apply next_element_end.
    pose proof (skip_nonoptions_stops (skipn (optind g) argv)) as Hs.
    rewrite nth_error_skipn in Hs.
    destruct (nth_error argv _) as [a|]; [|exact I].
    destruct (nonoption_false a Hs) as (c & s & ->).
    destruct (String.eqb (String c s) "-") eqn:Hd; [|discriminate].
    cbn [String.eqb Ascii.eqb Bool.eqb]. exact Hd. }
  destruct (next_element argv g) as [[[] argv'] g']; [reflexivity|].
  discriminate He.
Qed.

(** An option that takes an argument comes with one. *)
Lemma short_option_optarg argv g opt argv' g' :
  short_option argv optstring g = (Some (opt, None), argv', g') ->
  takes_argument opt = false.
Proof.
  unfold short_option, takes_argument.
  destruct (nextchar g) as [|c rest]; [discriminate|].
  destruct (if Ascii.eqb c ":" then None else find_opt c optstring)
    as [temp|] eqn:Hf.
  - destruct (Ascii.eqb (first_char temp) ":") eqn:Ht.
    + destruct (is_empty rest); [destruct (nth_error argv _)|];
        intros H; inversion H; subst; reflexivity.
    + intros H. inversion H; subst. rewrite Hf. exact Ht.
  - intros H. inversion H; subst. reflexivity.
Qed.

Lemma getopt_optarg argv g opt argv' g' :
  getopt argv optstring g = (Some (opt, None), argv', g') ->
  takes_argument opt = false.
Proof.
  unfold getopt. destruct (is_empty (nextchar g)).
  - destruct (next_element argv g) as [[[] argv1] g1]; [discriminate|].
    apply short_option_optarg.
  - apply short_option_optarg.
Qed.

(** *** The measure of the scan *)

Lemma weight_S k argv a :
  nth_error argv k = Some a ->
  weight k argv = (String.length a + weight (S k) argv)%nat.
Proof.
  unfold weight. revert k. induction argv as [|b argv IH]; intros k H.
  - destruct k; discriminate.
  - destruct k as [|k].
    + inversion H. reflexivity.
    + cbn [skipn]. apply (IH k H).
Qed.

Lemma weight_le k argv : (weight (S k) argv <= weight k argv)%nat.
Proof.
  destruct (nth_error argv k) as [a|] eqn:H.
  - rewrite (weight_S k argv a H). lia.
  - unfold weight. apply nth_error_None in H.
    rewrite !skipn_all2 by lia. reflexivity.
Qed.

Lemma weight_add k n argv : (weight (n + k) argv <= weight n argv)%nat.
Proof.
  induction k as [|k IH]; [rewrite Nat.add_0_r; lia|].
  rewrite Nat.add_succ_r. pose proof (weight_le (n + k) argv). lia.
Qed.

Lemma weight_skipn k n argv argv' :
  (n <= k)%nat -> skipn n argv' = skipn n argv -> weight k argv' = weight k argv.
Proof.
  intros Hk H. unfold weight.
  replace k with ((k - n) + n)%nat by lia.
  rewrite <- !skipn_skipn, H. reflexivity.
Qed.

(** A call that reads an option character uses up a character of [argv]. *)
Lemma short_option_progress argv os g r argv' g' :
  short_option argv os g = (Some r, argv', g') ->
  argv' = argv /\ (remaining argv g' < remaining argv g)%nat.
Proof.
  unfold short_option, remaining.
  destruct (nextchar g) as [|c rest]; [discriminate|].
  pose proof (weight_le (S (optind g)) argv) as Hle.
  destruct (if Ascii.eqb c ":" then None else find_opt c os) as [temp|];
    [destruct (Ascii.eqb (first_char temp) ":");
     [destruct rest as [|r0 rest]; cbn [is_empty];
      [destruct (nth_error argv (S (optind g)))|]|]|];
    intros H; inversion H; subst; (split; [reflexivity|]);
    cbn [nextchar optind String.length];
    try (destruct rest; cbn [is_empty String.length]); lia.
Qed.

Lemma getopt_progress argv os g r argv' g' :
  getopt argv os g = (Some r, argv', g') ->
  (remaining argv' g' < remaining argv g)%nat.
Proof.
  unfold getopt. destruct (nextchar g) as [|c nc] eqn:Hn; cbn [is_empty].
  - pose proof (skip_nonoptions_stops (skipn (optind g) argv)) as Hs.
    rewrite nth_error_skipn in Hs.
    pose proof (next_element_end argv g) as He.
    destruct (nth_error argv (optind g + skip_nonoptions (skipn (optind g) argv)))
      as [a|] eqn:Ha.
    + destruct (nonoption_false a Hs) as (c & s & ->).
      destruct (String.eqb (String "-" (String c s)) "--") eqn:Hd.
      * specialize (He eq_refl).
        destruct (next_element argv g) as [[[] argv1] g1];
          [discriminate|discriminate He].
      * rewrite (next_element_option argv g _ Ha Hd).
        intros H. apply short_option_progress in H. destruct H as [-> H].
        pose proof (permute_skipn argv g) as Hp.
        set (argvp := fst (permute argv g)) in *.
        set (ind := (optind g + skip_nonoptions (skipn (optind g) argv))%nat)
          in *.
        assert (Hw : weight ind argvp =
                     (String.length (String "-" (String c s)) +
                      weight (S ind) argvp)%nat).
        { apply weight_S. subst ind.
          rewrite (nth_error_skipn_eq argv argvp (optind g) _ Hp). exact Ha. }
        assert (Hw' : weight ind argvp = weight ind argv)
          by (apply (weight_skipn ind (optind g)); [subst ind; lia|exact Hp]).
        pose proof (weight_add (skip_nonoptions (skipn (optind g) argv))
                      (optind g) argv) as Hadd.
        fold ind in Hadd.
        unfold remaining in *. rewrite Hn.
        cbn [nextchar optind String.length] in *. lia.
    + specialize (He I).
      destruct (next_element argv g) as [[[] argv1] g1];
        [discriminate|discriminate He].
  - intros H. apply short_option_progress in H. destruct H as [-> H]. exact H.
Qed.

(** ** The option scan *)

Section Scan.

Context {elem : Type}.
Variable E : engine elem.

Lemma for_each_result {A} (l : list A) (body : A -> M unit) :
  (forall a, result (body a) = Ret tt) -> result (for_each l body) = Ret tt.
Proof.
  intros Hb. induction l as [|a l IH]; [reflexivity|].
  cbn [for_each]. rewrite (result_bind _ _ tt (Hb a)). exact IH.
Qed.

Lemma data_if_usage_result v : result (data_if_usage E v) = Ret tt.
Proof.
  unfold data_if_usage. msimpl. apply for_each_result.
  intros id. msimpl. destruct (data_interface_info E id); reflexivity.
Qed.

Lemma usage_result v : result (usage E v) = Ret tt.
Proof.
  unfold usage. msimpl.
  rewrite (result_bind _ _ tt (data_if_usage_result v)). reflexivity.
Qed.

(** What [usage] prints, line by line. *)
Lemma usage_eq v : usage E v = (usage_lines E v, Ret tt).
Proof.
  assert (Hf : forall l,
            for_each l (fun id =>
              do_call (bgpstream_get_data_interface_info id) ;;
              match data_interface_info E id with
              | Some info =>
                  fprintf_stderr
                    ("       " +++ pad_right 15 (info_name info) +++
                     info_description info +++
                     (if id =? datasource_id_default v
                      then " (default)" else "") +++ nl)
              | None => ret tt
              end) =
            (flat_map (fun id =>
               Call (bgpstream_get_data_interface_info id) ::
               match data_interface_info E id with
               | Some info =>
                   [Stderr ("       " +++ pad_right 15 (info_name info) +++
                            info_description info +++
                            (if id =? datasource_id_default v
                             then " (default)" else "") +++ nl)]
               | None => []
               end) l, Ret tt)).
  { induction l as [|id l IH]; [reflexivity|].
    cbn [for_each flat_map]. rewrite IH. unfold do_call, fprintf_stderr.
    rewrite bind_emit.
    destruct (data_interface_info E id); reflexivity. }
  unfold usage, data_if_usage, usage_lines, fprintf_stderr, do_call.
  rewrite Hf. reflexivity.
Qed.

(** A fatal error of the scan: messages, the usage text, then [exit]. *)
Lemma usage_exit {A} v (c : Z) :
  (usage E v ;; @exit A c) = (trace (usage E v), Exit c).
Proof.
  apply M_ext.
  - rewrite (trace_bind _ _ tt (usage_result v)). apply app_nil_r.
  - rewrite (result_bind _ _ tt (usage_result v)). reflexivity.
Qed.

Lemma handle_question optarg optopt v :
  handle_option E "?" optarg optopt v =
    (Stderr (version_banner E) :: trace (usage E v), Exit 0).
Proof.
  unfold handle_option. cbn [Ascii.eqb Bool.eqb andb orb].
  unfold fprintf_stderr. rewrite bind_emit, usage_exit. reflexivity.
Qed.

Lemma handle_h optarg optopt v :
  handle_option E "h" optarg optopt v = (trace (usage E v), Exit (-1)).
Proof.
  unfold handle_option. cbn [Ascii.eqb Bool.eqb andb orb].
  apply usage_exit.
Qed.

Lemma handle_colon optarg optopt v :
  handle_option E ":" optarg optopt v =
    (Stderr ("ERROR: Missing option argument for -" +++ String optopt "" +++ nl)
       :: trace (usage E v), Exit (-1)).
Proof.
  unfold handle_option. cbn [Ascii.eqb Bool.eqb andb orb].
  unfold fprintf_stderr. rewrite bind_emit, usage_exit. reflexivity.
Qed.

(** One turn of the loop, [getopt] having answered. *)
Lemma scan_turn fuel argv g v opt optarg argv' g' :
  getopt argv optstring g = (Some (opt, optarg), argv', g') ->
  scan E (S fuel) argv g v =
    if missing_argument (optind g) g' optarg then
      (Stderr ("ERROR: Missing option argument for -" +++
               String (optopt g') "" +++ nl)
         :: trace (usage E v), Exit (-1))
    else
      v' <- handle_option E opt optarg (optopt g') v ;;
      scan E fuel argv' g' v'.
Proof.
  intros H. cbn [scan]. rewrite H.
  destruct (missing_argument (optind g) g' optarg); [|reflexivity].
  cbn [optopt]. rewrite handle_colon. reflexivity.
Qed.

(** The loop ends when the options are over. *)
Lemma scan_end fuel argv g v :
  next_option argv g = None -> scan E (S fuel) argv g v = ret v.
Proof.
  intros H. apply (getopt_over argv optstring) in H. cbn [scan].
  destruct (getopt argv optstring g) as [[[r|] argv'] g']; [discriminate H|].
  reflexivity.
Qed.

(** One turn of the loop on an option character that takes no argument or
    is not an option, met without skipping an operand: [optind] moves by
    one at most, so the test for a missing argument is not met. *)
Lemma scan_flag fuel argv g v c rest :
  next_option argv g = Some (O, String c rest) ->
  (forall temp, (if Ascii.eqb c ":" then None else find_opt c optstring)
                = Some temp -> Ascii.eqb (first_char temp) ":" = false) ->
  exists argv' g',
    scan E (S fuel) argv g v =
      match (if Ascii.eqb c ":" then None else find_opt c optstring) with
      | None =>
          v' <- handle_option E "?" None c v ;;
          scan E fuel argv' g' v'
      | Some _ =>
          v' <- handle_option E c None (optopt g) v ;;
          scan E fuel argv' g' v'
      end.
Proof.
  intros Hc Hno.
  destruct (getopt_next argv optstring g _ _ Hc)
    as (argv' & f & l & Hg & _ & _ & _).
  rewrite Nat.add_0_r in Hg. unfold short_option in Hg.
  cbn [nextchar optind optopt first_nonopt last_nonopt] in Hg.
  assert (Hind : forall oa,
            missing_argument (optind g)
              (mk_getopt (if is_empty rest then S (optind g) else optind g)
                 rest oa f l) None = false).
  { intros oa. unfold missing_argument. cbn [optind].
    replace (Nat.eqb _ _) with false; [reflexivity|].
    symmetry. apply Nat.eqb_neq. destruct (is_empty rest); lia. }
  destruct (if Ascii.eqb c ":" then None else find_opt c optstring)
    as [temp|] eqn:Hf.
  - rewrite (Hno temp eq_refl) in Hg. eexists _, _.
    rewrite (scan_turn fuel argv g v _ _ _ _ Hg), Hind. reflexivity.
  - eexists _, _.
    rewrite (scan_turn fuel argv g v _ _ _ _ Hg), Hind. reflexivity.
Qed.

End Scan.

(** The recognized option characters are the thirteen of [optstring]. *)
Lemma recognized_chars (c : ascii) :
  recognized c = existsb (Ascii.eqb c) (list_ascii_of_string "dopctwPbrmeh?").
Proof. destruct c as [[] [] [] [] [] [] [] []]; reflexivity. Qed.

(** C2, as the code has it: when the scan meets a flag character that is
    not an option, the program prints the version banner and the usage
    text and exits with status 0.  There is one exception: when the call of
    [getopt] that meets the character moves [optind] on by two (it skipped
    one operand and the character ends its element, or it skipped two and
    the character does not), the test made after the call takes it for a
    missing argument, and the program prints that error for the character
    and the usage text and exits with status -1. *)
Theorem unknown_flag_exits_0_or_missing_argument {elem} (E : engine elem)
    (fuel : nat) (argv : list string) (g : getopt_state) (v : vars)
    (k : nat) (c : ascii) (rest : string) :
  next_option argv g = Some (k, String c rest) ->
  recognized c = false ->
  scan E (S fuel) argv g v =
    if Nat.eqb (k + (if is_empty rest then 1 else 0)) 2 then
      (Stderr ("ERROR: Missing option argument for -" +++ String c "" +++ nl)
         :: usage_lines E v, Exit (-1))
    else (Stderr (version_banner E) :: usage_lines E v, Exit 0).
Proof.
  intros Hc Hr. unfold recognized in Hr.
  destruct (getopt_next argv optstring g _ _ Hc)
    as (argv' & f & l & Hg & _ & _ & _).
  unfold short_option in Hg.
  cbn [nextchar optind optopt first_nonopt last_nonopt] in Hg.
  destruct (if Ascii.eqb c ":" then None else find_opt c optstring);
    [discriminate|].
  rewrite (scan_turn E fuel argv g v _ _ _ _ Hg).
  unfold missing_argument. cbn [optind optopt]. rewrite Bool.andb_true_r.
  replace (Nat.eqb (if is_empty rest then S (optind g + k) else (optind g + k)%nat)
             (optind g + 2))
    with (Nat.eqb (k + (if is_empty rest then 1 else 0)) 2).
  2:{ destruct (is_empty rest);
      destruct (Nat.eqb_spec (k + 1) 2), (Nat.eqb_spec (k + 0) 2);
      symmetry; first [apply Nat.eqb_eq; lia | apply Nat.eqb_neq; lia]. }
  rewrite handle_question, usage_eq. reflexivity.
Qed.

Lemma for_each_usage_no_banner (v : vars) {elem} (E : engine elem) l :
  ~ In (Stderr (version_banner E))
       (trace (for_each l (fun id =>
          do_call (bgpstream_get_data_interface_info id) ;;
          match data_interface_info E id with
          | Some info =>
              fprintf_stderr
                ("       " +++ pad_right 15 (info_name info) +++
                 info_description info +++
                 (if id =? datasource_id_default v then " (default)" else "")
                 +++ nl)
          | None => ret tt
          end))).
Proof.
  induction l as [|id l IH]; [simpl; tauto|].
  cbn [for_each].
  assert (Hb : forall m : M unit, m = ret tt \/ (exists s, m = fprintf_stderr (String " " s)) ->
               result (do_call (bgpstream_get_data_interface_info id) ;; m) = Ret tt /\
               ~ In (Stderr (version_banner E))
                    (trace (do_call (bgpstream_get_data_interface_info id) ;; m))).
  { intros m [->|[s0 ->]]; (split; [reflexivity|]); msimpl; simpl;
      unfold version_banner; intuition discriminate. }
  match goal with |- ~ In _ (trace (bind ?m _)) =>
    assert (Hm : result m = Ret tt /\ ~ In (Stderr (version_banner E)) (trace m))
  end.
  { apply Hb. destruct (data_interface_info E id); [right|left; reflexivity].
    eexists. reflexivity. }
  destruct Hm as [Hr Hn]. rewrite (trace_bind _ _ tt Hr).
  apply not_in_app; assumption.
Qed.

Lemma usage_no_banner {elem} (E : engine elem) (v : vars) :
  ~ In (Stderr (version_banner E)) (trace (usage E v)).
Proof.
  unfold usage. msimpl.
  rewrite (trace_bind _ _ tt (data_if_usage_result E v)).
  intros [H|H]; [unfold version_banner in H; discriminate|].
  apply in_app_or in H. destruct H as [H|H].
  - revert H. unfold data_if_usage. msimpl.
    intros [H|H]; [discriminate|].
    exact (for_each_usage_no_banner v E _ H).
  - simpl in H. unfold version_banner in H. intuition discriminate.
Qed.

(** C3, as the code has it: [-h] is an option of [optstring] without a
    case in the [switch]; it takes the default branch, which prints the
    usage text alone, without the version banner, and exits with
    status -1. *)
Theorem help_flag_h_exits_minus_1 {elem} (E : engine elem) (fuel : nat)
    (argv : list string) (g : getopt_state) (v : vars) (rest : string) :
  next_option argv g = Some (O, String "h" rest) ->
  scan E (S fuel) argv g v = (trace (usage E v), Exit (-1)) /\
  ~ In (Stderr (version_banner E)) (trace (scan E (S fuel) argv g v)).
Proof.
  intros Hc.
  assert (Hs : scan E (S fuel) argv g v = (trace (usage E v), Exit (-1))).
  { destruct (scan_flag E fuel argv g v _ rest Hc) as (argv' & g' & Hs).
    - cbv [find_opt optstring Ascii.eqb Bool.eqb andb].
      intros temp Ht; inversion Ht; reflexivity.
    - rewrite Hs. cbv [find_opt optstring Ascii.eqb Bool.eqb andb].
      rewrite handle_h. reflexivity. }
  split; [exact Hs|]. rewrite Hs. apply usage_no_banner.
Qed.

(** [-?] prints the banner and the usage text and exits with status 0. *)
Lemma question_flag_exits_0 {elem} (E : engine elem) (fuel : nat)
    (argv : list string) (g : getopt_state) (v : vars) (rest : string) :
  next_option argv g = Some (O, String "?" rest) ->
  scan E (S fuel) argv g v =
    (Stderr (version_banner E) :: trace (usage E v), Exit 0).
Proof.
  intros Hc.
  destruct (scan_flag E fuel argv g v _ rest Hc) as (argv' & g' & Hs).
  - cbv [find_opt optstring Ascii.eqb Bool.eqb andb].
    intros temp Ht; inversion Ht; reflexivity.
  - rewrite Hs. cbv [find_opt optstring Ascii.eqb Bool.eqb andb].
    rewrite handle_question. reflexivity.
Qed.

(** ** Time windows *)

Lemma strchr_split_first (c : ascii) (s : string) :
  strchr_split c s =
    if has_char c s then Some (before_char c s, after_char c s) else None.
Proof.
  induction s as [|a s IH]; [reflexivity|].
  simpl. destruct (Ascii.eqb a c); [reflexivity|].
  rewrite IH. simpl. destruct (has_char c s); reflexivity.
Qed.

(** [before_char] and [after_char] split at the first occurrence. *)
Lemma before_after_char (c : ascii) (s : string) :
  has_char c s = true ->
  s = before_char c s +++ String c (after_char c s) /\
  has_char c (before_char c s) = false.
Proof.
  induction s as [|a s IH]; [discriminate|].
  simpl. destruct (Ascii.eqb_spec a c) as [->|Hne]; simpl.
  - intros _. split; reflexivity.
  - intros H. destruct (IH H) as [H1 H2]. split.
    + f_equal. exact H1.
    + destruct (Ascii.eqb_spec a c); [contradiction|exact H2].
Qed.

Lemma digits_no_digit (s : string) (acc : Z) :
  match digit_val (first_char s) with Some _ => true | None => false end = false ->
  digits s acc = acc.
Proof.
  destruct s as [|c s]; [reflexivity|].
  simpl. destruct (digit_val c); [discriminate|reflexivity].
Qed.

Lemma atoi_not_a_number (s : string) : starts_number s = false -> atoi s = 0.
Proof.
  unfold starts_number, atoi, strtol10.
  destruct (skip_space s) as [|c s'] eqn:Hs.
  - intros _. reflexivity.
  - assert (Hsign : forall t, match digit_val (first_char t) with
                              | Some _ => true | None => false end = false ->
              to_int (Z.max LONG_MIN (Z.min LONG_MAX (digits t 0))) = 0 /\
              to_int (Z.max LONG_MIN (Z.min LONG_MAX (- digits t 0))) = 0).
    { intros t Ht. rewrite (digits_no_digit t 0 Ht). split; reflexivity. }
    pose proof (Hsign (String c s')) as Hd. pose proof (Hsign s') as Hs'.
    clear Hsign Hs.
    destruct c as [[] [] [] [] [] [] [] []]; intros H;
      first [ exact (proj1 (Hd H)) | exact (proj1 (Hs' H))
            | exact (proj2 (Hs' H)) ].
Qed.

(** C4, as the code has it: below the cap, a [-w] argument without a comma
    is a fatal usage error whose message names the argument, with status
    -1; an argument with a comma is split at the first one (the start has
    no comma, the end is all that follows) and each side is converted with
    [atoi] and stored as an unsigned 32-bit number, without any check: a
    side that does not start with a number is stored as 0. *)
Theorem window_option_split_at_first_comma {elem} (E : engine elem)
    (v : vars) (optopt : ascii) (a : string) :
  List.length (windows v) <> WINDOW_CMD_CNT ->
  handle_option E "w" (Some a) optopt v =
    (if has_char "," a then
       ([], Ret (set_windows v
                   (windows v ++
                    [mk_window (atoi (before_char "," a) mod 2 ^ 32)
                               (atoi (after_char "," a) mod 2 ^ 32)])))
     else
       ([Stderr ("ERROR: Malformed time window (" +++ a +++ ")" +++ nl);
         Stderr ("ERROR: Expecting start,end" +++ nl)] ++ trace (usage E v),
        Exit (-1))) /\
  (has_char "," a = true ->
   a = before_char "," a +++ "," +++ after_char "," a /\
   has_char "," (before_char "," a) = false) /\
  (starts_number (before_char "," a) = false -> atoi (before_char "," a) = 0) /\
  (starts_number (after_char "," a) = false -> atoi (after_char "," a) = 0).
Proof.
  intros Hcap. apply Nat.eqb_neq in Hcap.
  split; [|split; [apply before_after_char|split; apply atoi_not_a_number]].
  unfold handle_option. cbn [Ascii.eqb Bool.eqb andb orb].
  rewrite Hcap. cbn [with_arg].
  rewrite strchr_split_first.
  destruct (has_char "," a); [reflexivity|].
  unfold fprintf_stderr. rewrite !bind_emit, usage_exit. reflexivity.
Qed.

(** ** The second pass over the [-o] entries *)

Section Binder.

Context {elem : Type}.
Variable E : engine elem.

Lemma for_each_fprintf {A} (l : list A) (f : A -> string) :
  for_each l (fun a => fprintf_stderr (f a)) =
    (map (fun a => Stderr (f a)) l, Ret tt).
Proof.
  induction l as [|a l IH]; [reflexivity|].
  cbn [for_each map]. unfold fprintf_stderr at 1.
  rewrite bind_emit, IH. reflexivity.
Qed.

Lemma dump_if_options_eq v info :
  datasource_id v <> 0 ->
  datasource_info v = Some info ->
  dump_if_options E v =
    ([Call (bgpstream_get_data_interface_options (datasource_id v));
      Stderr ("Data interface options for '" +++ info_name info +++ "':" +++ nl)]
     ++ option_lines (data_interface_options E (datasource_id v))
     ++ [Stderr nl], Ret tt).
Proof.
  intros Hid Hinfo. apply Z.eqb_neq in Hid.
  unfold dump_if_options. rewrite Hid, Hinfo. cbn [negb assert].
  rewrite bind_ret_l. unfold do_call, fprintf_stderr at 1 4.
  rewrite !bind_emit. cbn [trace result fst snd].
  unfold option_lines.
  destruct (data_interface_options E (datasource_id v)) as [|o l] eqn:Ho.
  - reflexivity.
  - rewrite for_each_fprintf. reflexivity.
Qed.

Lemma bind_interface_options_app v (before entries : list string) :
  result (bind_interface_options E v before) = Ret tt ->
  bind_interface_options E v (before ++ entries) =
    (trace (bind_interface_options E v before) ++
     trace (bind_interface_options E v entries),
     result (bind_interface_options E v entries)).
Proof.
  induction before as [|b before IH]; intros Hr.
  - cbn [app trace ret fst bind_interface_options]. apply M_eta.
  - cbn [app bind_interface_options] in *.
    match type of Hr with result (bind ?m _) = _ =>
      destruct m as [t [[]| | |]] eqn:Hm; try discriminate Hr
    end.
    rewrite bind_ret in Hr. rewrite !bind_ret.
    cbn [trace result fst snd] in Hr |- *.
    rewrite (IH Hr). cbn [trace result fst snd].
    rewrite app_assoc. reflexivity.
Qed.

End Binder.

(** C10: when the second pass reaches an entry [?] (the entries before it
    having been applied), it prints the options the engine lists for the
    current data interface, or [NONE] when it lists none, then the usage
    text, line by line (the head, a line for each data interface the
    engine describes, the rest), and exits with status 0; whatever entries
    follow the [?] play no part: none is looked up or applied. *)
Theorem question_entry_ends_binding {elem} (E : engine elem) (v : vars)
    (info : bgpstream_data_interface_info_t) (before after : list string) :
  datasource_id v <> 0 ->
  datasource_info v = Some info ->
  result (bind_interface_options E v before) = Ret tt ->
  bind_interface_options E v (before ++ "?" :: after) =
    (trace (bind_interface_options E v before) ++
     [Call (bgpstream_get_data_interface_options (datasource_id v));
      Stderr ("Data interface options for '" +++ info_name info +++ "':" +++ nl)]
     ++ option_lines (data_interface_options E (datasource_id v))
     ++ [Stderr nl] ++ usage_lines E v,
     Exit 0).
Proof.
  intros Hid Hinfo Hr.
  rewrite (bind_interface_options_app E v before _ Hr).
  assert (Hq : bind_interface_options E v ("?" :: after) =
               (trace (dump_if_options E v) ++ trace (usage E v), Exit 0)).
  { cbn [bind_interface_options first_char Ascii.eqb Bool.eqb andb].
    rewrite (dump_if_options_eq E v info Hid Hinfo).
    rewrite bind_ret. cbn [trace result fst snd].
    rewrite usage_exit. cbn [trace result fst snd]. reflexivity. }
  rewrite Hq, (dump_if_options_eq E v info Hid Hinfo), usage_eq.
  cbn [trace result fst snd]. rewrite <- !app_assoc. reflexivity.
Qed.

(** ** The scan ends *)

Lemma fueled_ret {A} (a : A) : fueled (ret a).
Proof. discriminate. Qed.

Lemma fueled_exit {A} (c : Z) : fueled (@exit A c).
Proof. discriminate. Qed.

Lemma fueled_abort {A} : fueled (@abort A).
Proof. discriminate. Qed.

Lemma fueled_emit (e : event) : fueled (emit e).
Proof. discriminate. Qed.

Lemma fueled_bind {A B} (m : M A) (f : A -> M B) :
  fueled m -> (forall a, fueled (f a)) -> fueled (bind m f).
Proof.
  unfold fueled. intros Hm Hf. destruct m as [t [a| | |]]; cbn in *;
    try congruence.
  specialize (Hf a). destruct (f a). exact Hf.
Qed.

Lemma fueled_for_each {A} (l : list A) (body : A -> M unit) :
  (forall a, fueled (body a)) -> fueled (for_each l body).
Proof.
  intros Hb. induction l; [apply fueled_ret|].
  cbn [for_each]. apply fueled_bind; auto.
Qed.

Ltac fueled :=
  repeat first
    [ apply fueled_ret | apply fueled_exit | apply fueled_abort
    | apply fueled_emit
    | apply fueled_bind; [|intros ?]
    | apply fueled_for_each; intros ?
    | match goal with
      | |- fueled (if ?b then _ else _) => destruct b
      | |- fueled (match ?x with _ => _ end) => destruct x
      | |- fueled (let (_, _) := ?x in _) => destruct x
      end ].

Section Total.

Context {elem : Type}.
Variable E : engine elem.

Lemma fueled_usage v : fueled (usage E v).
Proof. unfold usage, data_if_usage, fprintf_stderr, do_call. fueled. Qed.

Lemma fueled_handle_option opt optarg optopt v :
  fueled (handle_option E opt optarg optopt v).
Proof.
  pose proof fueled_usage as Hu.
  unfold handle_option, with_arg, fprintf_stderr, do_call.
  fueled; apply Hu.
Qed.

(** With more fuel than characters left, the scan does not run out. *)
Lemma scan_fueled fuel : forall argv g v,
  (remaining argv g < fuel)%nat -> fueled (scan E fuel argv g v).
Proof.
  induction fuel as [|fuel IH]; intros argv g v Hlt; [lia|].
  cbn [scan].
  destruct (getopt argv optstring g) as [[[[opt optarg]|] argv'] g'] eqn:Hg;
    [|apply fueled_ret].
  apply getopt_progress in Hg.
  destruct (missing_argument (optind g) g' optarg).
  - rewrite handle_colon. discriminate.
  - apply fueled_bind; [apply fueled_handle_option|].
    intros v'. apply IH. lia.
Qed.

End Total.

(** ** Computations that agree *)

Lemma bind_ext {A B} (m : M A) (k k' : A -> M B) :
  (forall a, k a = k' a) -> bind m k = bind m k'.
Proof.
  intros H. destruct m as [t [a| | |]]; cbn; try reflexivity.
  rewrite H. reflexivity.
Qed.

Lemma bind_ext_returns {A B} (m : M A) (k k' : A -> M B) :
  returns (bind m k) ->
  (forall a, returns (k a) -> k' a = k a) ->
  bind m k' = bind m k.
Proof.
  intros [b Hb] H. destruct m as [t [a| | |]]; cbn in *; try reflexivity.
  rewrite H; [reflexivity|].
  exists b. destruct (k a). exact Hb.
Qed.

Lemma not_returns_exit {A} t c : ~ returns ((t, Exit c) : M A).
Proof. intros [a H]. discriminate. Qed.

Lemma not_returns_nofuel {A} t : ~ returns ((t, NoFuel) : M A).
Proof. intros [a H]. discriminate. Qed.

Section Handlers.

Context {elem : Type}.
Variable E : engine elem.

Lemma returns_bind {A B} (m : M A) (k : A -> M B) :
  returns (bind m k) -> exists a, result m = Ret a /\ returns (k a).
Proof.
  intros [b Hb]. destruct m as [t [a| | |]]; cbn in Hb; try discriminate.
  exists a. split; [reflexivity|]. exists b. destruct (k a). exact Hb.
Qed.


Lemma handle_d a oo v :
  handle_option E "d" (Some a) oo v =
    let id := data_interface_id_by_name E a in
    if id =? 0 then
      (Call (bgpstream_get_data_interface_id_by_name a)
         :: Stderr ("ERROR: Invalid data interface name '" +++ a +++ "'" +++ nl)
         :: trace (usage E (set_datasource v id (datasource_info v))),
       Exit (-1))
    else
      ([Call (bgpstream_get_data_interface_id_by_name a);
        Call (bgpstream_get_data_interface_info id)],
       Ret (set_datasource v id (data_interface_info E id))).
Proof.
  unfold handle_option. cbn [Ascii.eqb Bool.eqb andb orb with_arg].
  unfold do_call, fprintf_stderr. rewrite bind_emit. cbv zeta.
  destruct (data_interface_id_by_name E a =? 0).
  - rewrite bind_emit, usage_exit. reflexivity.
  - rewrite bind_emit. reflexivity.
Qed.

End Handlers.

Lemma all_ret Q {A} (a : A) : all_events Q (ret a).
Proof. constructor. Qed.

Lemma all_exit Q {A} (c : Z) : all_events Q (@exit A c).
Proof. constructor. Qed.

Lemma all_abort Q {A} : all_events Q (@abort A).
Proof. constructor. Qed.

Lemma all_emit (Q : event -> Prop) (e : event) : Q e -> all_events Q (emit e).
Proof. intros H. repeat constructor. exact H. Qed.

Lemma all_bind Q {A B} (m : M A) (k : A -> M B) :
  all_events Q m -> (forall a, all_events Q (k a)) -> all_events Q (bind m k).
Proof.
  unfold all_events. intros Hm Hk.
  destruct m as [t [a| | |]]; cbn in *; auto.
  specialize (Hk a). destruct (k a). cbn in *.
  apply Forall_app. split; assumption.
Qed.

Lemma all_for_each Q {A} (l : list A) (body : A -> M unit) :
  (forall a, all_events Q (body a)) -> all_events Q (for_each l body).
Proof.
  intros Hb. induction l; [apply all_ret|].
  cbn [for_each]. apply all_bind; auto.
Qed.

(** Reduces a property of all the events of a computation to its prints
    and calls. *)
Ltac all_events :=
  repeat first
    [ apply all_ret | apply all_exit | apply all_abort
    | apply all_emit
    | apply all_bind; [|intros ?]
    | apply all_for_each; intros ?
    | match goal with
      | |- all_events _ (if ?b then _ else _) => destruct b
      | |- all_events _ (match ?x with _ => _ end) => destruct x
      end ].

Section SecondPass.

Context {elem : Type}.
Variable E : engine elem.



End SecondPass.

Section NoBinding.

Context {elem : Type}.
Variable E : engine elem.

Let quiet (e : event) : Prop := is_binding_call e = false.

Lemma handle_option_quiet opt optarg oo v :
  all_events quiet (handle_option E opt optarg oo v).
Proof.
  unfold handle_option, with_arg, usage, data_if_usage, fprintf_stderr, do_call.
  all_events; reflexivity.
Qed.

(** The scan neither looks an option name up nor sets an option. *)
Lemma scan_quiet fuel : forall argv g v,
  all_events quiet (scan E fuel argv g v).
Proof.
  induction fuel as [|fuel IH]; intros argv g v; [constructor|].
  cbn [scan].
  destruct (getopt argv optstring g) as [[[[opt optarg]|] argv'] g'];
    [|apply all_ret].
  destruct (missing_argument (optind g) g' optarg);
    (apply all_bind; [apply handle_option_quiet|intros v'; apply IH]).
Qed.

Lemma all_bind_stops Q {A B} (m : M A) (k : A -> M B) :
  ~ returns m -> all_events Q m -> all_events Q (bind m k).
Proof.
  intros Hn Hm. destruct m as [t [a| | |]]; cbn; auto.
  exfalso. apply Hn. exists a. reflexivity.
Qed.

Lemma returns_dec {A} (m : M A) : returns m \/ ~ returns m.
Proof.
  destruct m as [t [a| | |]]; [left; exists a; reflexivity|right..];
    intros [a H]; discriminate.
Qed.

(** When the scan ends in a fatal error, the run has no call of the second
    pass at all. *)
Lemma main_quiet argv :
  ~ scan_completes E argv -> binding_calls (trace (main E argv)) = [].
Proof.
  intros Hn.
  assert (Hq : all_events quiet (main E argv)).
  { unfold main, do_call, assert, fprintf_stderr.
    apply all_bind; [apply all_emit; reflexivity|intros _].
    apply all_bind; [all_events; reflexivity|intros _].
    apply all_bind; [apply all_emit; reflexivity|intros _].
    apply all_bind; [apply all_emit; reflexivity|intros _].
    apply all_bind; [all_events|intros _].
    apply all_bind_stops; [exact Hn|apply scan_quiet]. }
  unfold all_events in Hq. unfold binding_calls.
  induction Hq as [|e t He Ht IH]; [reflexivity|].
  cbn [filter]. unfold quiet in He. rewrite He. exact IH.
Qed.

End NoBinding.

(** ** [main] ends *)

Section MainEnds.

Context {elem : Type}.
Variable E : engine elem.

Lemma fueled_bind_interface_options v entries :
  fueled (bind_interface_options E v entries).
Proof.
  pose proof (fueled_usage E v) as Hu.
  induction entries as [|entry entries IH]; [apply fueled_ret|].
  cbn [bind_interface_options].
  unfold dump_if_options, assert, fprintf_stderr, do_call.
  fueled; assumption.
Qed.

Lemma fueled_print_elems elems : forall buf, fueled (print_elems E buf elems).
Proof.
  induction elems as [|e elems IH]; intros buf; cbn [print_elems];
    unfold print_elem, fprintf_stderr, printf, do_call; fueled; apply IH.
Qed.

Lemma fueled_pull_loop v pulls : forall buf, fueled (pull_loop E v buf pulls).
Proof.
  pose proof fueled_print_elems as He.
  induction pulls as [|[[get_next_ret r] elems] pulls IH]; intros buf;
    cbn [pull_loop];
    unfold dispatch, print_bs_record, fprintf_stderr, printf, do_call;
    fueled; first [apply He | apply IH].
Qed.

Lemma weight_0 argv : weight 0 argv = list_sum (map String.length argv).
Proof. reflexivity. Qed.

(** [main] never stops for want of fuel: the scan always reaches the end
    of the options or a fatal error. *)
Lemma main_fueled argv : fueled (main E argv).
Proof.
  pose proof (fueled_usage E) as Hu.
  pose proof fueled_bind_interface_options as Hb.
  pose proof fueled_pull_loop as Hp.
  assert (Hs : forall v, fueled (scan E (scan_fuel argv) argv getopt_init v)).
  { intros v. apply scan_fueled. unfold remaining, scan_fuel.
    cbn [nextchar optind getopt_init].
    pose proof (weight_le 0 argv) as Hle. rewrite weight_0 in Hle. lia. }
  unfold main, apply_filters, stream, assert, fprintf_stderr, do_call.
  fueled; first [apply Hs | apply Hb | apply Hu | apply Hp].
Qed.

End MainEnds.

(** * The properties on concrete runs *)

(** The scenario of one valid RIB record, in record mode. *)
Example one_record_header :
  stdout_text
    (trace (main (Stub.stub 0 [(1, Stub.rec1, [])])
              ["bgpreader"; "-w"; "1420070400,1420070500"; "-p"; "routeviews";
               "-t"; "ribs"])) =
    "1420070450|routeviews|rrc00|rib|valid_record|1420070400|middle|" +++ nl.
Proof. vm_compute. reflexivity. Qed.

(** Without [-w] the program stops with status -1. *)
Example no_window :
  result (main (Stub.stub 0 []) ["bgpreader"]) = Exit (-1) /\
  In (Stderr ("ERROR: At least one time window must be specified using -w" +++ nl))
     (trace (main (Stub.stub 0 []) ["bgpreader"])).
Proof. split; [reflexivity|]. vm_compute. tauto. Qed.

(** In element mode alone no header is printed. *)
Example elements_only :
  main (Stub.stub 0 [(1, Stub.rec1, [Some "E1"; Some "E2"])])
       ["bgpreader"; "-w"; "1,2"; "-e"] =
    ([Call bgpstream_create; Call bgpstream_get_data_interface_id;
      Call (bgpstream_get_data_interface_info 1);
      Call (bgpstream_add_interval_filter 1 2);
      Call (bgpstream_set_data_interface 1);
      Call bgpstream_record_create; Call bgpstream_start;
      Call bgpstream_get_next_record;
      Call bgpstream_record_get_next_elem;
      Call (bgpstream_elem_snprintf true); Stdout ("E1" +++ nl);
      Call bgpstream_record_get_next_elem;
      Call (bgpstream_elem_snprintf true); Stdout ("E2" +++ nl);
      Call bgpstream_record_get_next_elem;
      Call bgpstream_get_next_record;
      Call bgpstream_record_destroy; Call bgpstream_stop;
      Call bgpstream_destroy], Exit 0).
Proof. vm_compute. reflexivity. Qed.

(** [-h] on the command line: the usage text alone, and status -1. *)
Example help_flag_h_run :
  main (Stub.stub 0 []) ["bgpreader"; "-h"] =
    ([Call bgpstream_create; Call bgpstream_get_data_interface_id;
      Call (bgpstream_get_data_interface_info 1)] ++
     trace (usage (Stub.stub 0 []) (scan_start (Stub.stub 0 []))),
     Exit (-1)).
Proof. vm_compute. reflexivity. Qed.

(** The engine does not start: no handle is released. *)
Example start_failure_run :
  main (Stub.stub (-1) []) ["bgpreader"; "-w"; "1,2"] =
    ([Call bgpstream_create; Call bgpstream_get_data_interface_id;
      Call (bgpstream_get_data_interface_info 1);
      Call (bgpstream_add_interval_filter 1 2);
      Call (bgpstream_set_data_interface 1);
      Call bgpstream_record_create; Call bgpstream_start;
      Stderr ("ERROR: Could not init BGPStream" +++ nl)], Exit (-1)).
Proof. vm_compute. reflexivity. Qed.

(** An unknown flag: the status is 0, not -1. *)
Lemma unknown_flag_counterexample :
  main (Stub.stub 0 []) ["bgpreader"; "-x"] =
    ([Call bgpstream_create; Call bgpstream_get_data_interface_id;
      Call (bgpstream_get_data_interface_info 1);
      Stderr (version_banner (Stub.stub 0 []))] ++
     trace (usage (Stub.stub 0 []) (scan_start (Stub.stub 0 []))),
     Exit 0) /\
  result (main (Stub.stub 0 []) ["bgpreader"; "-x"]) <> Exit (-1).
Proof. split; [vm_compute; reflexivity|]. vm_compute. discriminate. Qed.

(** An unknown flag after one operand: [getopt] has moved [optind] on by
    two, and the test made after the call reports a missing argument. *)
Example unknown_flag_after_operand_run :
  main (Stub.stub 0 []) ["bgpreader"; "x"; "-z"] =
    ([Call bgpstream_create; Call bgpstream_get_data_interface_id;
      Call (bgpstream_get_data_interface_info 1);
      Stderr ("ERROR: Missing option argument for -z" +++ nl)] ++
     usage_lines (Stub.stub 0 []) (scan_start (Stub.stub 0 [])),
     Exit (-1)).
Proof. vm_compute. reflexivity. Qed.

(** A window whose sides are not numbers: no error, the window is (0, 0)
    and the run goes on to its normal end. *)
Lemma window_not_numeric_counterexample :
  main (Stub.stub 0 []) ["bgpreader"; "-w"; "abc,def"] =
    ([Call bgpstream_create; Call bgpstream_get_data_interface_id;
      Call (bgpstream_get_data_interface_info 1);
      Call (bgpstream_add_interval_filter 0 0);
      Call (bgpstream_set_data_interface 1);
      Call bgpstream_record_create; Call bgpstream_start;
      Call bgpstream_get_next_record;
      Call bgpstream_record_destroy; Call bgpstream_stop;
      Call bgpstream_destroy], Exit 0) /\
  result (main (Stub.stub 0 []) ["bgpreader"; "-w"; "abc,def"]) <> Exit (-1).
Proof. split; [vm_compute; reflexivity|]. vm_compute. discriminate. Qed.

(** [-o ?] after [-d singlefile]: the two options of the interface, then
    the usage text, and status 0. *)
Example option_query_run :
  main (Stub.stub 0 []) ["bgpreader"; "-w"; "1,2"; "-d"; "singlefile"; "-o"; "?"] =
    ([Call bgpstream_create; Call bgpstream_get_data_interface_id;
      Call (bgpstream_get_data_interface_info 1);
      Call (bgpstream_get_data_interface_id_by_name "singlefile");
      Call (bgpstream_get_data_interface_info 2);
      Call (bgpstream_get_data_interface_options 2);
      Stderr ("Data interface options for 'singlefile':" +++ nl);
      Stderr ("   rib-file       rib mrt file to read" +++ nl);
      Stderr ("   upd-file       updates mrt file to read" +++ nl);
      Stderr nl] ++
     trace (usage (Stub.stub 0 []) Stub.singlefile), Exit 0).
Proof. vm_compute. reflexivity. Qed.

Lemma start_failure_witness :
  (record_create_succeeds (Stub.stub (-1) []) = true /\
   start_ret (Stub.stub (-1) []) < 0) /\
  (stream (Stub.stub (-1) []) Stub.all_modes =
     ([Call bgpstream_record_create; Call bgpstream_start;
       Stderr ("ERROR: Could not init BGPStream" +++ nl)], Exit (-1)) /\
   forall e, In e teardown ->
             ~ In e (trace (stream (Stub.stub (-1) []) Stub.all_modes))).
Proof.
  split; [split; reflexivity|].
  apply (start_failure_exits_without_teardown (Stub.stub (-1) []) Stub.all_modes);
    reflexivity.
Defined.

Lemma unknown_flag_witness :
  (next_option ["bgpreader"; "-x"] getopt_init = Some (O, String "x" "") /\
   recognized "x" = false) /\
  scan (Stub.stub 0 []) 1 ["bgpreader"; "-x"] getopt_init
       (scan_start (Stub.stub 0 [])) =
    (if Nat.eqb (0 + (if is_empty "" then 1 else 0)) 2 then
       (Stderr ("ERROR: Missing option argument for -" +++ String "x" "" +++ nl)
          :: usage_lines (Stub.stub 0 []) (scan_start (Stub.stub 0 [])),
        Exit (-1))
     else
       (Stderr (version_banner (Stub.stub 0 []))
          :: usage_lines (Stub.stub 0 []) (scan_start (Stub.stub 0 [])),
        Exit 0)).
Proof.
  split; [split; reflexivity|].
  apply (unknown_flag_exits_0_or_missing_argument (Stub.stub 0 []) 0
           ["bgpreader"; "-x"] getopt_init (scan_start (Stub.stub 0 []))
           0 "x" "");
    reflexivity.
Defined.

Lemma help_flag_h_witness :
  next_option ["bgpreader"; "-h"] getopt_init = Some (O, String "h" "") /\
  (scan (Stub.stub 0 []) 1 ["bgpreader"; "-h"] getopt_init
        (scan_start (Stub.stub 0 [])) =
     (trace (usage (Stub.stub 0 []) (scan_start (Stub.stub 0 []))), Exit (-1)) /\
   ~ In (Stderr (version_banner (Stub.stub 0 [])))
        (trace (scan (Stub.stub 0 []) 1 ["bgpreader"; "-h"] getopt_init
                  (scan_start (Stub.stub 0 []))))).
Proof.
  split; [reflexivity|].
  apply (help_flag_h_exits_minus_1 (Stub.stub 0 []) 0 ["bgpreader"; "-h"]
           getopt_init (scan_start (Stub.stub 0 [])) "").
  reflexivity.
Defined.

Lemma window_option_witness :
  List.length (windows (scan_start (Stub.stub 0 []))) <> WINDOW_CMD_CNT /\
  (handle_option (Stub.stub 0 []) "w" (Some "12,x34,5") "?"
     (scan_start (Stub.stub 0 [])) =
     (if has_char "," "12,x34,5" then
        ([], Ret (set_windows (scan_start (Stub.stub 0 []))
                    (windows (scan_start (Stub.stub 0 [])) ++
                     [mk_window (atoi (before_char "," "12,x34,5") mod 2 ^ 32)
                                (atoi (after_char "," "12,x34,5") mod 2 ^ 32)])))
      else
        ([Stderr ("ERROR: Malformed time window (" +++ "12,x34,5" +++ ")" +++ nl);
          Stderr ("ERROR: Expecting start,end" +++ nl)] ++
         trace (usage (Stub.stub 0 []) (scan_start (Stub.stub 0 []))),
         Exit (-1))) /\
   (has_char "," "12,x34,5" = true ->
    "12,x34,5" = before_char "," "12,x34,5" +++ "," +++
                 after_char "," "12,x34,5" /\
    has_char "," (before_char "," "12,x34,5") = false) /\
   (starts_number (before_char "," "12,x34,5") = false ->
    atoi (before_char "," "12,x34,5") = 0) /\
   (starts_number (after_char "," "12,x34,5") = false ->
    atoi (after_char "," "12,x34,5") = 0)).
Proof.
  split; [simpl; discriminate|].
  apply (window_option_split_at_first_comma (Stub.stub 0 [])
           (scan_start (Stub.stub 0 [])) "?" "12,x34,5").
  simpl. discriminate.
Defined.

Lemma dispatch_witness :
  (1 <> 0 /\
   Forall (fun p : Z * bgpstream_record_t * list (option string) =>
             0 < fst (fst p)) [(1, Stub.rec1, [Some "E0"])] /\
   result (pull_loop (Stub.stub 0 []) Stub.all_modes (repeat NUL 8)
             [(1, Stub.rec1, [Some "E0"])]) = Ret LoopDone) /\
  trace (pull_loop (Stub.stub 0 []) Stub.all_modes (repeat NUL 8)
           ([(1, Stub.rec1, [Some "E0"])] ++
            (1, Stub.rec1, [Some "E1"; Some "E2"]) :: [])) =
    trace (pull_loop (Stub.stub 0 []) Stub.all_modes (repeat NUL 8)
             [(1, Stub.rec1, [Some "E0"])]) ++
    (if record_output_on Stub.all_modes then header_events Stub.rec1 else []) ++
    (if (is_valid_record (status Stub.rec1) &&
         record_bgpdump_output_on Stub.all_modes)%bool
     then [Call (bgpstream_record_print_mrt_data Stub.rec1)] else []) ++
    (if (is_valid_record (status Stub.rec1) &&
         elem_output_on Stub.all_modes)%bool
     then elem_events (Stub.stub 0 [])
            (loop_buf (Stub.stub 0 []) Stub.all_modes (repeat NUL 8)
               [(1, Stub.rec1, [Some "E0"])])
            [Some "E1"; Some "E2"]
     else []) ++
    match fst (record_end (Stub.stub 0 []) Stub.all_modes
                 (loop_buf (Stub.stub 0 []) Stub.all_modes (repeat NUL 8)
                    [(1, Stub.rec1, [Some "E0"])])
                 1 Stub.rec1 [Some "E1"; Some "E2"]) with
    | LoopDone =>
        if 1 >? 0
        then trace (pull_loop (Stub.stub 0 []) Stub.all_modes
                      (snd (record_end (Stub.stub 0 []) Stub.all_modes
                              (loop_buf (Stub.stub 0 []) Stub.all_modes
                                 (repeat NUL 8) [(1, Stub.rec1, [Some "E0"])])
                              1 Stub.rec1 [Some "E1"; Some "E2"])) [])
        else []
    | GotoErr => []
    end.
Proof.
  assert (Hpos : Forall (fun p : Z * bgpstream_record_t * list (option string) =>
                           0 < fst (fst p)) [(1, Stub.rec1, [Some "E0"])])
    by (repeat constructor).
  split; [repeat split; first [discriminate | exact Hpos | reflexivity]|].
  apply (dispatch_header_mrt_elems (Stub.stub 0 []) Stub.all_modes
           (repeat NUL 8) [(1, Stub.rec1, [Some "E0"])] 1 Stub.rec1
           [Some "E1"; Some "E2"] []);
    first [discriminate | exact Hpos | reflexivity].
Defined.

Lemma negative_pull_witness :
  (record_create_succeeds Stub.negative_second = true /\
   0 <= start_ret Stub.negative_second /\
   next_records Stub.negative_second =
     [(1, Stub.rec1, [Some "E0"])] ++ (-1, Stub.rec1, [Some "E1"]) :: [] /\
   Forall (fun p : Z * bgpstream_record_t * list (option string) =>
             0 < fst (fst p)) [(1, Stub.rec1, [Some "E0"])] /\
   result (pull_loop Stub.negative_second Stub.all_modes elem_buf_init
             [(1, Stub.rec1, [Some "E0"])]) = Ret LoopDone /\
   -1 < 0) /\
  stream Stub.negative_second Stub.all_modes =
    ([Call bgpstream_record_create; Call bgpstream_start] ++
     trace (pull_loop Stub.negative_second Stub.all_modes elem_buf_init
              [(1, Stub.rec1, [Some "E0"])]) ++
     (if record_output_on Stub.all_modes then header_events Stub.rec1 else []) ++
     (if (is_valid_record (status Stub.rec1) &&
          record_bgpdump_output_on Stub.all_modes)%bool
      then [Call (bgpstream_record_print_mrt_data Stub.rec1)] else []) ++
     (if (is_valid_record (status Stub.rec1) &&
          elem_output_on Stub.all_modes)%bool
      then elem_events Stub.negative_second
             (loop_buf Stub.negative_second Stub.all_modes elem_buf_init
                [(1, Stub.rec1, [Some "E0"])]) [Some "E1"]
      else []) ++
     [Call bgpstream_record_destroy; Call bgpstream_stop;
      Call bgpstream_destroy],
     Exit (if (is_valid_record (status Stub.rec1) &&
               elem_output_on Stub.all_modes)%bool
           then loop_status
                  (fst (elems_end Stub.negative_second
                          (loop_buf Stub.negative_second Stub.all_modes
                             elem_buf_init [(1, Stub.rec1, [Some "E0"])])
                          [Some "E1"]))
           else 0)).
Proof.
  assert (Hpos : Forall (fun p : Z * bgpstream_record_t * list (option string) =>
                           0 < fst (fst p)) [(1, Stub.rec1, [Some "E0"])])
    by (repeat constructor).
  assert (Hdone : result (pull_loop Stub.negative_second Stub.all_modes
                            elem_buf_init [(1, Stub.rec1, [Some "E0"])])
                  = Ret LoopDone) by (vm_compute; reflexivity).
  split; [repeat split; first [reflexivity | lia | exact Hpos | exact Hdone]|].
  apply (negative_pull_still_dispatched Stub.negative_second Stub.all_modes
           [(1, Stub.rec1, [Some "E0"])] (-1) Stub.rec1 [Some "E1"] []);
    first [reflexivity | lia | exact Hpos | exact Hdone].
Defined.

Lemma elem_failure_witness :
  In (Call (bgpstream_elem_snprintf false))
     (trace (stream (Stub.stub 0 [(1, Stub.rec1, [Some "E1"; None; Some "E3"])])
               Stub.all_modes)) /\
  exists t0 buf0 e,
    snd (elem_snprintf (Stub.stub 0 [(1, Stub.rec1, [Some "E1"; None; Some "E3"])])
           buf0 65536%N e) = false /\
    let text :=
      cstring (store 65535%N NUL
                 (fst (elem_snprintf
                         (Stub.stub 0 [(1, Stub.rec1, [Some "E1"; None; Some "E3"])])
                         buf0 65536%N e))) in
    (N.of_nat (String.length text) <= 65535)%N /\
    trace (stream (Stub.stub 0 [(1, Stub.rec1, [Some "E1"; None; Some "E3"])])
             Stub.all_modes) =
      t0 ++
      [Call (bgpstream_elem_snprintf false);
       Stderr ("Failed to construct elem string" +++ nl);
       Stderr ("Elem string: " +++ text +++ nl);
       Call bgpstream_record_destroy; Call bgpstream_stop;
       Call bgpstream_destroy] /\
    result (stream (Stub.stub 0 [(1, Stub.rec1, [Some "E1"; None; Some "E3"])])
              Stub.all_modes) = Exit (-1).
Proof.
  assert (H : In (Call (bgpstream_elem_snprintf false))
     (trace (stream (Stub.stub 0 [(1, Stub.rec1, [Some "E1"; None; Some "E3"])])
               Stub.all_modes))).
  { vm_compute. do 16 right. left. reflexivity. }
  split; [exact H|].
  apply (elem_failure_is_fatal
           (Stub.stub 0 [(1, Stub.rec1, [Some "E1"; None; Some "E3"])])
           Stub.all_modes).
  exact H.
Defined.

Lemma question_entry_witness :
  (datasource_id Stub.singlefile <> 0 /\
   datasource_info Stub.singlefile =
     Some (mk_info "singlefile" "Read a single mrt file") /\
   result (bind_interface_options (Stub.stub 0 []) Stub.singlefile
             ["rib-file,/tmp/rib"]) = Ret tt) /\
  bind_interface_options (Stub.stub 0 []) Stub.singlefile
    (["rib-file,/tmp/rib"] ++ "?" :: ["upd-file,/tmp/upd"; "nonsense"]) =
    (trace (bind_interface_options (Stub.stub 0 []) Stub.singlefile
              ["rib-file,/tmp/rib"]) ++
     [Call (bgpstream_get_data_interface_options (datasource_id Stub.singlefile));
      Stderr ("Data interface options for '" +++
              info_name (mk_info "singlefile" "Read a single mrt file") +++
              "':" +++ nl)]
     ++ option_lines (data_interface_options (Stub.stub 0 [])
                        (datasource_id Stub.singlefile))
     ++ [Stderr nl] ++ usage_lines (Stub.stub 0 []) Stub.singlefile,
     Exit 0).
Proof.
  split; [repeat split; first [reflexivity | discriminate]|].
  apply (question_entry_ends_binding (Stub.stub 0 []) Stub.singlefile
           (mk_info "singlefile" "Read a single mrt file")
           ["rib-file,/tmp/rib"] ["upd-file,/tmp/upd"; "nonsense"]);
    first [reflexivity | discriminate].
Defined.

(** * Further properties of the program *)

(** ** [main] in three parts *)

Lemma bind_assoc {A B C} (m : M A) (f : A -> M B) (g : B -> M C) :
  bind (bind m f) g = bind m (fun a => bind (f a) g).
Proof.
  destruct m as [t [a| | |]]; cbn; try reflexivity.
  destruct (f a) as [t1 [b| | |]]; cbn; try reflexivity.
  destruct (g b). rewrite app_assoc. reflexivity.
Qed.

Lemma main_after_scan {elem} (E : engine elem) (argv : list string) :
  main E argv =
    (startup E ;;
     v <- scan E (scan_fuel argv) argv getopt_init (scan_start E) ;;
     after_scan E v).
Proof.
  unfold main, startup, after_scan, scan_start.
  rewrite !bind_assoc. reflexivity.
Qed.

(** The start of [main] when the engine is created and reports a default
    data interface. *)
Lemma startup_ok {elem} (E : engine elem) :
  create_succeeds E = true ->
  data_interface_id E <> 0 ->
  startup E =
    ([Call bgpstream_create; Call bgpstream_get_data_interface_id;
      Call (bgpstream_get_data_interface_info (data_interface_id E))], Ret tt).
Proof.
  intros Hc Hid. apply Z.eqb_neq in Hid.
  unfold startup. rewrite Hc, Hid. reflexivity.
Qed.

Lemma returns_bind_ret {A B} (m : M A) (k : A -> M B) b :
  result (bind m k) = Ret b -> exists a, result m = Ret a /\ result (k a) = Ret b.
Proof.
  intros Hb. destruct m as [t [a| | |]]; cbn in Hb; try discriminate.
  exists a. split; [reflexivity|]. destruct (k a). exact Hb.
Qed.

(** ** What the scan keeps *)

Lemma ensures_ret {A} (Q : A -> Prop) (a : A) : Q a -> ensures Q (ret a).
Proof. intros H b Hb. inversion Hb. subst. exact H. Qed.

Lemma ensures_exit {A} (Q : A -> Prop) (c : Z) : ensures Q (exit c).
Proof. intros b Hb. discriminate. Qed.

Lemma ensures_abort {A} (Q : A -> Prop) : ensures Q abort.
Proof. intros b Hb. discriminate. Qed.

Lemma ensures_bind {A B} (Q : B -> Prop) (m : M A) (k : A -> M B) :
  (forall a, ensures Q (k a)) -> ensures Q (bind m k).
Proof.
  intros Hk b Hb. destruct m as [t [a| | |]]; cbn in Hb; try discriminate.
  apply (Hk a). destruct (k a). exact Hb.
Qed.

Ltac ensures :=
  repeat match goal with
         | |- ensures _ (exit _) => apply ensures_exit
         | |- ensures _ abort => apply ensures_abort
         | |- ensures _ (bind _ _) => apply ensures_bind; intros ?
         | |- ensures _ (if ?b then _ else _) => destruct b eqn:?
         | |- ensures _ (match ?x with _ => _ end) => destruct x eqn:?
         end.

Section Invariants.

Context {elem : Type}.
Variable E : engine elem.

(** An invariant of the [switch] is an invariant of the scan. *)
Lemma scan_ensures (I : vars -> Prop) :
  (forall opt optarg oo v, I v -> ensures I (handle_option E opt optarg oo v)) ->
  forall fuel argv g v, I v -> ensures I (scan E fuel argv g v).
Proof.
  intros Hh. induction fuel as [|fuel IH]; intros argv g v Hv.
  - intros a Ha. discriminate.
  - cbn [scan].
    destruct (getopt argv optstring g) as [[[[opt optarg]|] argv'] g'];
      [|apply ensures_ret; exact Hv].
    destruct (missing_argument (optind g) g' optarg);
      intros a Ha; apply returns_bind_ret in Ha;
      destruct Ha as (v' & Hv' & Ha); exact (IH _ _ _ (Hh _ _ _ _ Hv _ Hv') _ Ha).
Qed.

End Invariants.

(** X1: the scan never overruns an array: if the projects, types,
    collectors, windows and interface options held so far fit their
    arrays, so do those the scan returns. *)
Theorem scan_within_caps {elem} (E : engine elem) (fuel : nat)
    (argv : list string) (g : getopt_state) (v v' : vars) (t : list event) :
  within_caps v ->
  scan E fuel argv g v = (t, Ret v') ->
  within_caps v'.
Proof.
  intros Hv Hs.
  apply (scan_ensures E within_caps) with (fuel := fuel) (argv := argv)
                                         (g := g) (v := v);
    [|exact Hv|rewrite Hs; reflexivity].
  clear. intros opt optarg oo v (Hp & Ht & Hc & Hw & Ho).
  unfold handle_option, with_arg.
  ensures; apply ensures_ret; unfold within_caps;
    cbn [projects types collectors windows interface_options
         set_projects set_types set_collectors set_windows
         set_interface_options set_rib_period set_blocking
         set_record_output_on set_record_bgpdump_output_on
         set_elem_output_on set_datasource];
    rewrite ?length_app; cbn [List.length];
    repeat match goal with
           | H : Nat.eqb _ _ = false |- _ => apply Nat.eqb_neq in H
           end;
    repeat split; lia.
Qed.

(** X2: the scan keeps the globals of the data interface sound: the
    current id is never 0 (so the [assert] of [dump_if_options] holds), the
    description kept beside it is the engine's description of that id, and
    the default id is never changed. *)
Theorem scan_datasource_ok {elem} (E : engine elem) (fuel : nat)
    (argv : list string) (g : getopt_state) (v v' : vars) (t : list event)
    (d : Z) :
  datasource_ok E d v ->
  scan E fuel argv g v = (t, Ret v') ->
  datasource_ok E d v'.
Proof.
  intros Hv Hs.
  apply (scan_ensures E (datasource_ok E d))
    with (fuel := fuel) (argv := argv) (g := g) (v := v);
    [|exact Hv|rewrite Hs; reflexivity].
  clear. intros opt optarg oo v (Hid & Hinfo & Hd).
  unfold handle_option, with_arg.
  ensures; apply ensures_ret; unfold datasource_ok;
    cbn [datasource_id datasource_info datasource_id_default
         set_projects set_types set_collectors set_windows
         set_interface_options set_rib_period set_blocking
         set_record_output_on set_record_bgpdump_output_on
         set_elem_output_on set_datasource];
    repeat split; auto.
  apply Z.eqb_neq. assumption.
Qed.

(** X3: a repeatable option given when its array is full is refused: the
    message names the size of the array, the usage text follows and the
    status is -1, whatever the argument. *)
Theorem full_array_is_fatal {elem} (E : engine elem) (c : ascii)
    (optarg : option string) (oo : ascii) (v : vars) (cap : nat)
    (text : string) :
  capped c v = Some (cap, cap, text) ->
  handle_option E c optarg oo v =
    (Stderr ("ERROR: A maximum of " +++ dec (Z.of_nat cap) +++ text +++ nl)
       :: trace (usage E v), Exit (-1)).
Proof.
  unfold capped. intros H.
  destruct (Ascii.eqb_spec c "p") as [->|_];
    [|destruct (Ascii.eqb_spec c "c") as [->|_];
      [|destruct (Ascii.eqb_spec c "t") as [->|_];
        [|destruct (Ascii.eqb_spec c "w") as [->|_];
          [|destruct (Ascii.eqb_spec c "o") as [->|_]; [|discriminate]]]]];
    unfold handle_option; cbn [Ascii.eqb Bool.eqb andb orb];
    injection H as Hn Hc Ht; subst text; rewrite <- Hc in Hn |- *;
    rewrite Hn, Nat.eqb_refl; unfold fprintf_stderr;
    rewrite bind_emit, usage_exit; reflexivity.
Qed.

(** ** A refused command line *)

Section Refused.

Context {elem : Type}.
Variable E : engine elem.

Lemma handle_option_inspects opt optarg oo v :
  all_events inspects (handle_option E opt optarg oo v).
Proof.
  unfold handle_option, with_arg, usage, data_if_usage, fprintf_stderr, do_call.
  all_events; exact I.
Qed.

Lemma scan_inspects fuel : forall argv g v,
  all_events inspects (scan E fuel argv g v).
Proof.
  induction fuel as [|fuel IH]; intros argv g v; [constructor|].
  cbn [scan].
  destruct (getopt argv optstring g) as [[[[opt optarg]|] argv'] g'];
    [|apply all_ret].
  destruct (missing_argument (optind g) g' optarg);
    (apply all_bind; [apply handle_option_inspects|intros v'; apply IH]).
Qed.

Lemma startup_inspects : all_events inspects (startup E).
Proof.
  unfold startup, assert, fprintf_stderr, do_call. all_events; exact I.
Qed.

End Refused.

(** X4: the scan only prints and asks the engine questions (the list of
    data interfaces, their descriptions, the id of a name).  So when the
    command line is refused during the scan, the engine has been given no
    filter, no option and no data interface, and was not started. *)
Theorem refused_command_line_leaves_engine {elem} (E : engine elem)
    (argv : list string) :
  ~ scan_completes E argv ->
  all_events inspects (main E argv).
Proof.
  intros Hn. rewrite main_after_scan.
  apply all_bind; [apply startup_inspects|intros _].
  apply all_bind_stops; [exact Hn|apply scan_inspects].
Qed.

(** ** After the scan *)

Section AfterScan.

Context {elem : Type}.
Variable E : engine elem.

Lemma for_each_call {A} (l : list A) (f : A -> call) :
  for_each l (fun a => do_call (f a)) = (map (fun a => Call (f a)) l, Ret tt).
Proof.
  induction l as [|a l IH]; [reflexivity|].
  cbn [for_each map]. unfold do_call at 1. rewrite bind_emit, IH. reflexivity.
Qed.

(** The second pass reads the current data interface and the default id
    only. *)
Lemma bind_interface_options_same v v' entries :
  datasource_id v' = datasource_id v ->
  datasource_info v' = datasource_info v ->
  datasource_id_default v' = datasource_id_default v ->
  bind_interface_options E v' entries = bind_interface_options E v entries.
Proof.
  intros Hid Hinfo Hd.
  induction entries as [|entry entries IH]; [reflexivity|].
  cbn [bind_interface_options]. rewrite IH.
  unfold dump_if_options, usage, data_if_usage. rewrite Hid, Hinfo, Hd.
  reflexivity.
Qed.

End AfterScan.

(** X5: a command line without any time window is refused after the second
    pass over the [-o] entries: the message asks for [-w], the usage text
    follows, the status is -1, and no filter is given to the engine. *)
Theorem no_window_is_fatal {elem} (E : engine elem) (v : vars) :
  windows v = [] ->
  result (bind_interface_options E v (interface_options v)) = Ret tt ->
  after_scan E v =
    (trace (bind_interface_options E v (interface_options v)) ++
     Stderr ("ERROR: At least one time window must be specified using -w" +++ nl)
       :: trace (usage E v),
     Exit (-1)).
Proof.
  intros Hw Hb. unfold after_scan.
  rewrite (bind_trace_result _ _ _ tt eq_refl Hb).
  cbn [windows set_interface_options]. rewrite Hw. cbn [List.length Nat.eqb].
  rewrite usage_exit. unfold fprintf_stderr. rewrite bind_emit.
  cbn [trace result fst snd bind]. reflexivity.
Qed.

(** X6: when none of [-r], [-m] and [-e] was given, the run is the run of
    record mode. *)
Theorem record_mode_is_the_default {elem} (E : engine elem) (v : vars) :
  record_output_on v = false ->
  record_bgpdump_output_on v = false ->
  elem_output_on v = false ->
  after_scan E v = after_scan E (set_record_output_on v true).
Proof.
  intros Hr Hm He. unfold after_scan.
  rewrite (bind_interface_options_same E v (set_record_output_on v true))
    by reflexivity.
  cbn [windows interface_options record_output_on record_bgpdump_output_on
       elem_output_on set_interface_options set_record_output_on].
  rewrite Hr, Hm, He. cbn [negb andb]. reflexivity.
Qed.

Lemma apply_filters_trace (v : vars) :
  apply_filters v =
    (map (fun p => Call (bgpstream_add_filter BGPSTREAM_FILTER_TYPE_PROJECT p))
       (projects v) ++
     map (fun c => Call (bgpstream_add_filter BGPSTREAM_FILTER_TYPE_COLLECTOR c))
       (collectors v) ++
     map (fun t => Call (bgpstream_add_filter BGPSTREAM_FILTER_TYPE_RECORD_TYPE t))
       (types v) ++
     map (fun w => Call (bgpstream_add_interval_filter (start w) (end_ w)))
       (windows v) ++
     (if rib_period v >? 0
      then [Call (bgpstream_add_rib_period_filter (rib_period v))] else []) ++
     Call (bgpstream_set_data_interface (datasource_id v)) ::
     (if blocking v then [Call bgpstream_set_blocking] else []),
     Ret tt).
Proof.
  unfold apply_filters.
  rewrite (for_each_call (projects v)
             (fun p => bgpstream_add_filter BGPSTREAM_FILTER_TYPE_PROJECT p)).
  rewrite (for_each_call (collectors v)
             (fun c => bgpstream_add_filter BGPSTREAM_FILTER_TYPE_COLLECTOR c)).
  rewrite (for_each_call (types v)
             (fun t => bgpstream_add_filter BGPSTREAM_FILTER_TYPE_RECORD_TYPE t)).
  rewrite (for_each_call (windows v)
             (fun w => bgpstream_add_interval_filter (start w) (end_ w))).
  rewrite !bind_ret. cbn [trace result fst snd].
  destruct (rib_period v >? 0), (blocking v); unfold do_call;
    rewrite ?bind_ret_l, ?bind_emit; cbn [trace result fst snd emit ret];
    rewrite ?app_nil_r; reflexivity.
Qed.

(** X7: the engine is programmed in a fixed order, each value once and in
    the order given: the projects, the collectors, the types, the windows,
    the rib period when it is positive, the data interface, and blocking
    mode when [-b] was given. *)
Theorem apply_filters_in_order (v : vars) :
  apply_filters v =
    (map (fun p => Call (bgpstream_add_filter BGPSTREAM_FILTER_TYPE_PROJECT p))
       (projects v) ++
     map (fun c => Call (bgpstream_add_filter BGPSTREAM_FILTER_TYPE_COLLECTOR c))
       (collectors v) ++
     map (fun t => Call (bgpstream_add_filter BGPSTREAM_FILTER_TYPE_RECORD_TYPE t))
       (types v) ++
     map (fun w => Call (bgpstream_add_interval_filter (start w) (end_ w)))
       (windows v) ++
     (if rib_period v >? 0
      then [Call (bgpstream_add_rib_period_filter (rib_period v))] else []) ++
     Call (bgpstream_set_data_interface (datasource_id v)) ::
     (if blocking v then [Call bgpstream_set_blocking] else []),
     Ret tt).
Proof. apply apply_filters_trace. Qed.

(** ** The second pass, entry by entry *)

Section Entries.

Context {elem : Type}.
Variable E : engine elem.

(** One turn of the second pass on an entry it applies. *)
Lemma bind_applied v entry entries option :
  bound_option E v entry = Some option ->
  bind_interface_options E v (entry :: entries) =
    (binding_of E v entry ++ trace (bind_interface_options E v entries),
     result (bind_interface_options E v entries)).
Proof.
  unfold binding_of, bound_option. intros Hb.
  cbn [bind_interface_options]. rewrite strchr_split_first.
  destruct (Ascii.eqb (first_char entry) "?"); [discriminate|].
  destruct (has_char "," entry); [|discriminate].
  rewrite Hb. unfold do_call. rewrite bind_assoc, !bind_emit.
  cbn [trace result fst snd app]. reflexivity.
Qed.

Lemma bind_all_applied v entries :
  Forall (fun entry => bound_option E v entry <> None) entries ->
  bind_interface_options E v entries =
    (flat_map (binding_of E v) entries, Ret tt).
Proof.
  induction 1 as [|entry entries He Hes IH]; [reflexivity|].
  destruct (bound_option E v entry) as [option|] eqn:Hb; [|contradiction].
  rewrite (bind_applied v entry entries option Hb), IH. reflexivity.
Qed.

End Entries.

(** X8: when every [-o] entry has a comma and a name the engine knows for
    the current data interface, the second pass makes, for each entry in
    the order given, one look-up of the text before the first comma and one
    setting of that option to the text after it (which may be empty or
    hold more commas), and nothing else. *)
Theorem entries_bound_in_order {elem} (E : engine elem) (v : vars)
    (entries : list string) :
  Forall (fun entry => bound_option E v entry <> None) entries ->
  bind_interface_options E v entries =
    (flat_map (binding_of E v) entries, Ret tt).
Proof. apply bind_all_applied. Qed.

(** X9: an entry without a comma (and not starting with [?]) is a fatal
    usage error once the entries before it have been applied: the message
    names the entry, the status is -1, and neither this entry nor a later
    one reaches the engine. *)
Theorem entry_without_comma_is_fatal {elem} (E : engine elem) (v : vars)
    (before after : list string) (entry : string) :
  Forall (fun entry => bound_option E v entry <> None) before ->
  Ascii.eqb (first_char entry) "?" = false ->
  has_char "," entry = false ->
  bind_interface_options E v (before ++ entry :: after) =
    (flat_map (binding_of E v) before ++
     [Stderr ("ERROR: Malformed data interface option (" +++ entry +++ ")" +++ nl);
      Stderr ("ERROR: Expecting <option-name>,<option-value>" +++ nl)] ++
     trace (usage E v),
     Exit (-1)).
Proof.
  intros Hb Hq Hc.
  rewrite (bind_interface_options_app E v before)
    by (rewrite (bind_all_applied E v before Hb); reflexivity).
  rewrite (bind_all_applied E v before Hb). cbn [trace fst].
  cbn [bind_interface_options]. rewrite Hq, strchr_split_first, Hc.
  rewrite usage_exit. unfold fprintf_stderr. rewrite !bind_emit.
  cbn [trace result fst snd bind]. reflexivity.
Qed.

(** X10: an entry whose name the engine does not know for the current data
    interface is a fatal usage error: after the look-up, the message names
    the option and the data interface, the status is -1, and no option is
    set for this entry or a later one. *)
Theorem entry_with_unknown_name_is_fatal {elem} (E : engine elem) (v : vars)
    (info : bgpstream_data_interface_info_t) (before after : list string)
    (entry : string) :
  Forall (fun entry => bound_option E v entry <> None) before ->
  datasource_info v = Some info ->
  Ascii.eqb (first_char entry) "?" = false ->
  has_char "," entry = true ->
  data_interface_option_by_name E (datasource_id v) (before_char "," entry)
    = None ->
  bind_interface_options E v (before ++ entry :: after) =
    (flat_map (binding_of E v) before ++
     [Call (bgpstream_get_data_interface_option_by_name (datasource_id v)
              (before_char "," entry));
      Stderr ("ERROR: Invalid option '" +++ before_char "," entry +++
              "' for data interface '" +++ info_name info +++ "'" +++ nl)] ++
     trace (usage E v),
     Exit (-1)).
Proof.
  intros Hb Hinfo Hq Hc Hn.
  rewrite (bind_interface_options_app E v before)
    by (rewrite (bind_all_applied E v before Hb); reflexivity).
  rewrite (bind_all_applied E v before Hb). cbn [trace fst].
  cbn [bind_interface_options]. rewrite Hq, strchr_split_first, Hc, Hn, Hinfo.
  rewrite usage_exit. unfold fprintf_stderr, do_call. rewrite !bind_emit.
  cbn [trace result fst snd bind]. reflexivity.
Qed.

(** X11: the second pass tests the first character only: any entry that
    starts with [?], such as [?rib-file,x], is taken as the query.  The
    options of the current data interface and the usage text are printed,
    the status is 0, and the entry is not applied. *)
Theorem entry_starting_with_question_is_a_query {elem} (E : engine elem)
    (v : vars) (info : bgpstream_data_interface_info_t)
    (before after : list string) (rest : string) :
  Forall (fun entry => bound_option E v entry <> None) before ->
  datasource_id v <> 0 ->
  datasource_info v = Some info ->
  bind_interface_options E v (before ++ String "?" rest :: after) =
    (flat_map (binding_of E v) before ++
     [Call (bgpstream_get_data_interface_options (datasource_id v));
      Stderr ("Data interface options for '" +++ info_name info +++ "':" +++ nl)]
     ++ option_lines (data_interface_options E (datasource_id v))
     ++ [Stderr nl] ++ usage_lines E v,
     Exit 0).
Proof.
  intros Hb Hid Hinfo.
  rewrite (bind_interface_options_app E v before)
    by (rewrite (bind_all_applied E v before Hb); reflexivity).
  rewrite (bind_all_applied E v before Hb). cbn [trace fst].
  cbn [bind_interface_options first_char Ascii.eqb Bool.eqb andb].
  rewrite usage_exit, (dump_if_options_eq E v info Hid Hinfo), usage_eq.
  rewrite bind_ret. cbn [trace result fst snd bind].
  rewrite <- !app_assoc. reflexivity.
Qed.

(** ** Options and their arguments *)

Lemma takes_argument_chars (c : ascii) :
  takes_argument c = existsb (Ascii.eqb c) (list_ascii_of_string "dopctwP").
Proof. destruct c as [[] [] [] [] [] [] [] []]; reflexivity. Qed.

Lemma takes_argument_not_dash (c : ascii) :
  takes_argument c = true -> Ascii.eqb c "-" = false.
Proof. destruct c as [[] [] [] [] [] [] [] []]; (discriminate || reflexivity). Qed.

Lemma recognized_not_dash (c : ascii) :
  recognized c = true -> Ascii.eqb c "-" = false.
Proof. destruct c as [[] [] [] [] [] [] [] []]; (discriminate || reflexivity). Qed.

Lemma takes_argument_not_colon (c : ascii) :
  takes_argument c = true -> Ascii.eqb c ":" = false.
Proof. destruct c as [[] [] [] [] [] [] [] []]; (discriminate || reflexivity). Qed.

Lemma skipn_cons_S {A} (l l' : list A) (a : A) (n : nat) :
  skipn n l = a :: l' -> nth_error l n = Some a /\ skipn (S n) l = l'.
Proof.
  revert n. induction l as [|b l IH]; intros n H.
  - destruct n; discriminate.
  - destruct n as [|n].
    + inversion H. split; reflexivity.
    + cbn [skipn nth_error] in *. apply IH. exact H.
Qed.

Lemma item_argv_cons (it : item) (items : list item) :
  item_argv (it :: items) = item_argv [it] ++ item_argv items.
Proof.
  unfold item_argv. cbn [flat_map]. rewrite app_nil_r. reflexivity.
Qed.

Lemma after_items_facts (items : list item) : forall g,
  nextchar g = "" ->
  first_nonopt g = last_nonopt g ->
  nextchar (after_items g items) = "" /\
  first_nonopt (after_items g items) = last_nonopt (after_items g items) /\
  optopt (after_items g items) = optopt g /\
  optind (after_items g items) =
    (optind g + List.length (item_argv items))%nat.
Proof.
  induction items as [|[c oa] items IH]; intros g Hn Hfl.
  - cbn. repeat split; try assumption. lia.
  - change (after_items g ((c, oa) :: items))
      with (after_items (after_items g [(c, oa)]) items).
    destruct (IH (after_items g [(c, oa)]) eq_refl eq_refl)
      as (H1 & H2 & H3 & H4).
    rewrite H1, H2, H3, H4. repeat split.
    rewrite (item_argv_cons (c, oa) items), length_app.
    destruct oa; cbn; lia.
Qed.

Lemma items_weight (items : list item) :
  (List.length items <= list_sum (map String.length (item_argv items)))%nat.
Proof.
  induction items as [|[c oa] items IH]; [simpl; lia|].
  rewrite (item_argv_cons (c, oa) items), map_app, list_sum_app.
  set (r := list_sum (map String.length (item_argv items))) in *.
  destruct oa; simpl; lia.
Qed.

Section Items.

Context {elem : Type}.
Variable E : engine elem.

(** [optopt] is read in the case of a missing argument only. *)
Lemma handle_option_optopt c optarg oo oo' v :
  Ascii.eqb c ":" = false ->
  handle_option E c optarg oo v = handle_option E c optarg oo' v.
Proof.
  intros Hc. unfold handle_option. rewrite Hc. reflexivity.
Qed.

(** One turn of the loop on an option that takes an argument, alone in
    its element and met without skipping an operand. *)
Lemma scan_argument fuel argv g v c :
  next_option argv g = Some (O, String c "") ->
  takes_argument c = true ->
  exists argv' f l,
    (first_nonopt g = last_nonopt g -> nextchar g = "" ->
     argv' = argv /\ f = optind g /\ l = optind g) /\
    scan E (S fuel) argv g v =
      match nth_error argv (S (optind g)) with
      | None => (Stderr (version_banner E) :: trace (usage E v), Exit 0)
      | Some a =>
          if Ascii.eqb (first_char a) "-" then
            (Stderr ("ERROR: Missing option argument for -" +++
                     String (optopt g) "" +++ nl)
               :: trace (usage E v), Exit (-1))
          else
            v' <- handle_option E c (Some a) (optopt g) v ;;
            scan E fuel argv'
              (mk_getopt (S (S (optind g))) "" (optopt g) f l) v'
      end.
Proof.
  intros Hc Ht.
  destruct (getopt_next argv optstring g _ _ Hc)
    as (argv' & f & l & Hg & Hsk & _ & Hsame).
  rewrite Nat.add_0_r in *.
  exists argv', f, l. split; [exact Hsame|].
  assert (Hnth : nth_error argv' (S (optind g)) = nth_error argv (S (optind g))).
  { replace (S (optind g)) with (optind g + 1)%nat by lia.
    apply nth_error_skipn_eq. exact Hsk. }
  unfold short_option in Hg.
  cbn [nextchar optind optopt first_nonopt last_nonopt is_empty] in Hg.
  unfold takes_argument in Ht.
  destruct (if Ascii.eqb c ":" then None else find_opt c optstring)
    as [temp|]; [|discriminate].
  rewrite Ht, Hnth in Hg.
  destruct (nth_error argv (S (optind g))) as [a|].
  - rewrite (scan_turn E fuel argv g v _ _ _ _ Hg).
    unfold missing_argument. cbn [optind optopt].
    replace (Nat.eqb (S (S (optind g))) (optind g + 2)) with true
      by (symmetry; apply Nat.eqb_eq; lia).
    cbn [andb]. reflexivity.
  - rewrite (scan_turn E fuel argv g v _ _ _ _ Hg).
    unfold missing_argument. cbn [optind optopt].
    replace (Nat.eqb (S (optind g)) (optind g + 2)) with false
      by (symmetry; apply Nat.eqb_neq; lia).
    cbn [andb]. rewrite handle_question. reflexivity.
Qed.

(** One turn of the loop on an item. *)
Lemma scan_item fuel argv g v c oa tl :
  nextchar g = "" ->
  first_nonopt g = last_nonopt g ->
  skipn (optind g) argv = item_argv [(c, oa)] ++ tl ->
  item_ok (c, oa) ->
  scan E (S fuel) argv g v =
    (v' <- handle_option E c oa (optopt g) v ;;
     scan E fuel argv (after_items g [(c, oa)]) v').
Proof.
  intros Hn Hfl Hsk Hok. unfold item_ok in Hok. cbn [fst snd] in Hok.
  cbn [item_argv flat_map fst snd app] in Hsk. rewrite app_nil_r in Hsk.
  assert (Hdash : Ascii.eqb c "-" = false).
  { destruct oa; destruct Hok as [H1 H2];
      [apply takes_argument_not_dash|apply recognized_not_dash]; assumption. }
  assert (Hopt : next_option argv g = Some (O, String c "")).
  { unfold next_option. rewrite Hn, Hsk.
    cbn [skip_nonoptions nonoption]. rewrite Nat.add_0_r.
    destruct (skipn_cons_S _ _ _ _ Hsk) as [H0 _]. rewrite H0.
    cbn [String.eqb]. rewrite Hdash. reflexivity. }
  destruct oa as [a|].
  - destruct Hok as [Ht Ha].
    destruct (scan_argument fuel argv g v c Hopt Ht)
      as (argv' & f & l & Hsame & Hs).
    destruct (Hsame Hfl Hn) as (-> & -> & ->).
    destruct (skipn_cons_S _ _ _ _ Hsk) as [_ H1].
    cbn [app] in H1. destruct (skipn_cons_S _ _ _ _ H1) as [H2 _].
    rewrite Hs, H2, Ha. reflexivity.
  - destruct Hok as [Hr Ht].
    destruct (scan_flag E fuel argv g v c "" Hopt) as (argv' & g' & Hs).
    { intros temp Hf. unfold takes_argument in Ht. rewrite Hf in Ht.
      exact Ht. }
    (* the state after the turn *)
    destruct (getopt_next argv optstring g _ _ Hopt)
      as (argv1 & f & l & Hg & _ & _ & Hsame).
    destruct (Hsame Hfl Hn) as (-> & -> & ->).
    rewrite Nat.add_0_r in Hg. unfold short_option in Hg.
    cbn [nextchar optind optopt first_nonopt last_nonopt is_empty] in Hg.
    unfold recognized in Hr. unfold takes_argument in Ht.
    destruct (if Ascii.eqb c ":" then None else find_opt c optstring)
      as [temp|]; [|discriminate].
    rewrite Ht in Hg.
    rewrite (scan_turn E fuel argv g v _ _ _ _ Hg).
    unfold missing_argument. cbn [optind optopt].
    replace (Nat.eqb (S (optind g)) (optind g + 2)) with false
      by (symmetry; apply Nat.eqb_neq; lia).
    reflexivity.
Qed.

(** The loop over the elements of a list of items: the bodies of the
    [switch], from left to right.  [argv] is not permuted. *)
Lemma scan_items items : forall fuel argv g v tl,
  nextchar g = "" ->
  first_nonopt g = last_nonopt g ->
  skipn (optind g) argv = item_argv items ++ tl ->
  Forall item_ok items ->
  scan E (List.length items + fuel) argv g v =
    (v' <- handle_items E (optopt g) items v ;;
     scan E fuel argv (after_items g items) v').
Proof.
  induction items as [|[c oa] items IH]; intros fuel argv g v tl Hn Hfl Hsk Hall.
  - cbn [List.length Nat.add handle_items after_items fold_left].
    rewrite bind_ret_l. reflexivity.
  - inversion Hall as [|it its Hok Hall']; subst.
    cbn [List.length Nat.add handle_items].
    rewrite (item_argv_cons (c, oa) items), <- app_assoc in Hsk.
    rewrite (scan_item _ argv g v c oa _ Hn Hfl Hsk Hok).
    rewrite bind_assoc. apply bind_ext. intros v'.
    change (after_items g ((c, oa) :: items))
      with (after_items (after_items g [(c, oa)]) items).
    destruct (after_items_facts [(c, oa)] g Hn Hfl) as (H1 & H2 & H3 & H4).
    rewrite <- H3.
    apply (IH fuel argv _ v' tl H1 H2); [|exact Hall'].
    rewrite H4. rewrite Nat.add_comm, <- skipn_skipn, Hsk.
    rewrite skipn_app, skipn_all, Nat.sub_diag. reflexivity.
Qed.

(** [main] on a command line that starts with a list of items. *)
Lemma main_items prog items tl :
  Forall item_ok items ->
  exists fuel,
    main E (prog :: item_argv items ++ tl) =
      (startup E ;;
       v <- handle_items E NUL items (scan_start E) ;;
       v' <- scan E (S fuel) (prog :: item_argv items ++ tl)
               (after_items getopt_init items) v ;;
       after_scan E v').
Proof.
  intros Hall.
  pose proof (items_weight items) as Hw.
  set (w := list_sum (map String.length (prog :: item_argv items ++ tl))).
  assert (Hle : (List.length items <= w)%nat).
  { subst w. change (prog :: item_argv items ++ tl)
      with ([prog] ++ item_argv items ++ tl).
    rewrite !map_app, !list_sum_app. lia. }
  exists (w - List.length items)%nat.
  rewrite main_after_scan. f_equal.
  assert (Hf : scan_fuel (prog :: item_argv items ++ tl) =
               (List.length items + S (w - List.length items))%nat).
  { unfold scan_fuel. fold w. lia. }
  rewrite Hf.
  rewrite (scan_items items _ _ getopt_init (scan_start E) tl);
    [|reflexivity|reflexivity|reflexivity|exact Hall].
  rewrite bind_assoc. reflexivity.
Qed.

Lemma next_option_after prog items tl :
  next_option (prog :: item_argv items ++ tl) (after_items getopt_init items) =
  next_option tl (mk_getopt 0 "" NUL 0 0).
Proof.
  destruct (after_items_facts items getopt_init eq_refl eq_refl)
    as (H1 & _ & _ & H4).
  assert (Hs : skipn (1 + List.length (item_argv items))
                 (prog :: item_argv items ++ tl) = tl).
  { cbn [Nat.add skipn]. rewrite skipn_app, skipn_all, Nat.sub_diag.
    reflexivity. }
  unfold next_option. rewrite H1, H4. cbn [nextchar optind getopt_init].
  rewrite <- !nth_error_skipn, Hs. reflexivity.
Qed.

End Items.

Lemma bind_ret_r {A} (m : M A) : bind m (fun a => ret a) = m.
Proof.
  destruct m as [t [a| | |]]; cbn; try reflexivity.
  rewrite app_nil_r. reflexivity.
Qed.

Section ItemRuns.

Context {elem : Type}.
Variable E : engine elem.

(** [main] on a command line of items. *)
Lemma main_items_only prog items :
  Forall item_ok items ->
  main E (prog :: item_argv items) =
    (startup E ;;
     v <- handle_items E NUL items (scan_start E) ;;
     after_scan E v).
Proof.
  intros Hall. destruct (main_items E prog items [] Hall) as (fuel & Hm).
  pose proof (next_option_after prog items []) as Hn.
  rewrite app_nil_r in *. rewrite Hm. apply bind_ext. intros _. apply bind_ext. intros v.
  rewrite (scan_end E fuel _ _ v); [apply bind_ret_l|].
  rewrite Hn. reflexivity.
Qed.

(** The scan of a command line of items. *)
Lemma scan_items_only prog items :
  Forall item_ok items ->
  scan E (scan_fuel (prog :: item_argv items)) (prog :: item_argv items)
    getopt_init (scan_start E) =
  handle_items E NUL items (scan_start E).
Proof.
  intros Hall.
  pose proof (items_weight items) as Hw.
  set (w := list_sum (map String.length (prog :: item_argv items))).
  assert (Hle : (List.length items <= w)%nat).
  { subst w. change (prog :: item_argv items) with ([prog] ++ item_argv items).
    rewrite !map_app, !list_sum_app. lia. }
  assert (Hf : scan_fuel (prog :: item_argv items) =
               (List.length items + S (w - List.length items))%nat).
  { unfold scan_fuel. fold w. lia. }
  rewrite Hf.
  rewrite (scan_items E items _ _ getopt_init (scan_start E) []);
    [|reflexivity|reflexivity|cbn [optind getopt_init skipn];
      rewrite app_nil_r; reflexivity|exact Hall].
  cbn [optopt getopt_init].
  rewrite <- (bind_ret_r (handle_items E NUL items (scan_start E))) at 2.
  apply bind_ext. intros v.
  apply scan_end.
  pose proof (next_option_after prog items []) as Hn.
  rewrite app_nil_r in Hn. rewrite Hn. reflexivity.
Qed.

Lemma as_argv_items (opts : list (ascii * string)) :
  as_argv opts = item_argv (map (fun o => (fst o, Some (snd o))) opts).
Proof.
  induction opts as [|[c a] opts IH]; [reflexivity|].
  unfold as_argv, item_argv in *. cbn [flat_map map fst snd].
  rewrite IH. reflexivity.
Qed.

Lemma handle_all_items oo oo' (opts : list (ascii * string)) : forall v,
  Forall (fun o => takes_argument (fst o) = true /\
                   Ascii.eqb (first_char (snd o)) "-" = false) opts ->
  handle_all E oo opts v =
  handle_items E oo' (map (fun o => (fst o, Some (snd o))) opts) v.
Proof.
  induction opts as [|[c a] opts IH]; intros v Hall; [reflexivity|].
  inversion Hall as [|o os [Ht _] Hall']; subst. cbn [fst snd] in Ht.
  cbn [handle_all handle_items map fst snd].
  rewrite (handle_option_optopt E c (Some a) oo oo' v
             (takes_argument_not_colon c Ht)).
  apply bind_ext. intros v'. apply IH. exact Hall'.
Qed.

End ItemRuns.

(** X12: when an option that takes an argument is followed by an element
    that starts with [-], that element is not taken as the argument: after
    a command line of flags and of options with their arguments, the
    program reports a missing argument, prints the usage text and stops
    with status -1 without running the option (for [-d], no name is looked
    up).  The message does not name the option: it prints [optopt], which
    is the NUL character there.  (When the call that reads the option has
    skipped an operand, the element is taken as the argument.) *)
Theorem flag_is_not_an_argument {elem} (E : engine elem) (prog : string)
    (items : list item) (c : ascii) (a : string) (rest : list string) :
  Forall item_ok items ->
  takes_argument c = true ->
  first_char a = "-"%char ->
  main E (prog :: item_argv items ++ String "-" (String c "") :: a :: rest) =
    (startup E ;;
     v <- handle_items E NUL items (scan_start E) ;;
     (Stderr ("ERROR: Missing option argument for -" +++ String NUL "" +++ nl)
        :: usage_lines E v, Exit (-1))).
Proof.
  intros Hall Ht Ha.
  destruct (main_items E prog items (String "-" (String c "") :: a :: rest) Hall)
    as (fuel & Hm).
  rewrite Hm. apply bind_ext. intros _. apply bind_ext. intros v.
  pose proof (next_option_after prog items
                (String "-" (String c "") :: a :: rest)) as Hn.
  destruct (after_items_facts items getopt_init eq_refl eq_refl)
    as (H1 & H2 & H3 & H4).
  assert (Hopt : next_option
                   (prog :: item_argv items ++
                    String "-" (String c "") :: a :: rest)
                   (after_items getopt_init items) = Some (O, String c "")).
  { rewrite Hn. unfold next_option.
    cbn [nextchar optind skipn skip_nonoptions nonoption Nat.add nth_error
         String.eqb].
    rewrite (takes_argument_not_dash c Ht). reflexivity. }
  destruct (scan_argument E fuel _ _ v c Hopt Ht) as (argv' & f & l & _ & Hs).
  rewrite Hs, H3, H4. cbn [optind optopt getopt_init].
  assert (Hnth : nth_error
                   (prog :: item_argv items ++
                    String "-" (String c "") :: a :: rest)
                   (S (1 + List.length (item_argv items))) = Some a).
  { change (prog :: item_argv items ++ String "-" (String c "") :: a :: rest)
      with ([prog] ++ item_argv items ++ String "-" (String c "") :: a :: rest).
    rewrite nth_error_app2 by (cbn [List.length]; lia).
    rewrite nth_error_app2 by (cbn [List.length]; lia).
    cbn [List.length].
    replace (S (1 + List.length (item_argv items)) - 1 -
             List.length (item_argv items))%nat with 1%nat by lia.
    reflexivity. }
  rewrite Hnth, Ha, usage_eq. reflexivity.
Qed.

(** X13: when an option that takes an argument is the last element of a
    command line of flags and of options with their arguments, [getopt]
    answers [?] and the program takes the help branch: it prints the
    version banner and the usage text and stops with status 0, not with an
    error.  (It is otherwise after an operand: see the exception of the
    unknown flag.) *)
Theorem option_without_argument_at_end {elem} (E : engine elem)
    (prog : string) (items : list item) (c : ascii) :
  Forall item_ok items ->
  takes_argument c = true ->
  main E (prog :: item_argv items ++ [String "-" (String c "")]) =
    (startup E ;;
     v <- handle_items E NUL items (scan_start E) ;;
     (Stderr (version_banner E) :: usage_lines E v, Exit 0)).
Proof.
  intros Hall Ht.
  destruct (main_items E prog items [String "-" (String c "")] Hall)
    as (fuel & Hm).
  rewrite Hm. apply bind_ext. intros _. apply bind_ext. intros v.
  pose proof (next_option_after prog items [String "-" (String c "")]) as Hn.
  destruct (after_items_facts items getopt_init eq_refl eq_refl)
    as (H1 & H2 & H3 & H4).
  assert (Hopt : next_option
                   (prog :: item_argv items ++ [String "-" (String c "")])
                   (after_items getopt_init items) = Some (O, String c "")).
  { rewrite Hn. unfold next_option.
    cbn [nextchar optind skipn skip_nonoptions nonoption Nat.add nth_error
         String.eqb].
    rewrite (takes_argument_not_dash c Ht). reflexivity. }
  destruct (scan_argument E fuel _ _ v c Hopt Ht) as (argv' & f & l & _ & Hs).
  rewrite Hs, H4. cbn [optind getopt_init].
  assert (Hnth : nth_error
                   (prog :: item_argv items ++ [String "-" (String c "")])
                   (S (1 + List.length (item_argv items))) = None).
  { apply nth_error_None. cbn [List.length Nat.add].
    rewrite length_app. cbn [List.length]. lia. }
  rewrite Hnth, usage_eq. reflexivity.
Qed.

(** X14: for a command line made of options that take an argument, each
    followed by its argument as a separate element that does not start
    with [-], the run is the start of [main], then the bodies of the
    [switch] for the options from left to right, then the part of [main]
    that follows the scan. *)
Theorem options_run_left_to_right {elem} (E : engine elem) (prog : string)
    (opts : list (ascii * string)) :
  Forall (fun o => takes_argument (fst o) = true /\
                   Ascii.eqb (first_char (snd o)) "-" = false) opts ->
  main E (prog :: as_argv opts) =
    (startup E ;;
     v <- handle_all E "?" opts (scan_start E) ;;
     after_scan E v).
Proof.
  intros Hall. rewrite as_argv_items.
  rewrite (main_items_only E prog).
  - rewrite <- (handle_all_items E "?" NUL opts (scan_start E) Hall).
    reflexivity.
  - clear -Hall. induction Hall as [|[c a] opts [Ht Ha] _ IH]; [constructor|].
    cbn [map]. constructor; [|exact IH]. split; assumption.
Qed.

(** ** The driver, run by run *)

Lemma last_cons {A} (l : list A) : forall a d, last (a :: l) d = last l a.
Proof.
  induction l as [|b l IH]; intros a d; [reflexivity|].
  change (last (b :: l) d = last (b :: l) a).
  rewrite (IH b d), (IH b a). reflexivity.
Qed.

Section Runs.

Context {elem : Type}.
Variable E : engine elem.

Lemma print_elems_loop_events elems : forall buf,
  all_events loop_event (print_elems E buf elems).
Proof.
  induction elems as [|e elems IH]; intros buf; cbn [print_elems];
    unfold print_elem, fprintf_stderr, printf, do_call.
  - all_events; exact I.
  - apply all_bind; [apply all_emit; exact I|intros _].
    destruct (elem_snprintf E buf 65536%N e) as [b ok].
    apply all_bind; [destruct ok; all_events; exact I|intros r].
    destruct (negb (fst r =? 0)); [apply all_ret|apply IH].
Qed.

Lemma dispatch_loop_events v buf get_next_ret r elems :
  all_events loop_event (dispatch E v buf get_next_ret r elems).
Proof.
  pose proof (print_elems_loop_events elems buf) as He.
  unfold dispatch, print_bs_record, printf, do_call.
  all_events; first [exact I | exact He].
Qed.

Lemma pull_loop_loop_events v pulls : forall buf,
  all_events loop_event (pull_loop E v buf pulls).
Proof.
  induction pulls as [|[[get_next_ret r] elems] pulls IH]; intros buf;
    cbn [pull_loop]; unfold do_call.
  - all_events; exact I.
  - apply all_bind; [apply all_emit; exact I|intros _].
    apply all_bind; [apply dispatch_loop_events|intros x].
    destruct (fst x); [|apply all_ret].
    destruct (get_next_ret >? 0); [apply IH|apply all_ret].
Qed.

Lemma dispatch_zero v buf r elems :
  dispatch E v buf 0 r elems = ([], Ret (LoopDone, buf)).
Proof. reflexivity. Qed.

Lemma print_elems_all_serialised elems : forall buf,
  Forall (fun r => snd r = true) (serialised E buf elems) ->
  print_elems E buf elems =
    (flat_map (fun r => [Call bgpstream_record_get_next_elem;
                         Call (bgpstream_elem_snprintf true);
                         Stdout (cstring (fst r) +++ nl)])
       (serialised E buf elems) ++ [Call bgpstream_record_get_next_elem],
     Ret (LoopDone, last (map fst (serialised E buf elems)) buf)).
Proof.
  induction elems as [|e elems IH]; intros buf Hall; [reflexivity|].
  cbn [serialised] in Hall. inversion Hall as [|r rs Hr Hrs]; subst.
  cbn [print_elems serialised]. unfold do_call. rewrite bind_emit.
  rewrite print_elem_eq, Hr, bind_ret. cbn [fst snd negb Z.eqb].
  rewrite (IH _ Hrs). cbn [trace result fst snd flat_map map app].
  rewrite last_cons. reflexivity.
Qed.

End Runs.

(** X15: when every element of a record is serialised, the element loop
    prints one line per element, in the order of the iterator: the text the
    engine left in the buffer, up to its first NUL, and a newline.  The
    loop asks for one element more than it prints, writes nothing to
    standard error and ends normally, leaving the last buffer. *)
Theorem elements_one_per_line {elem} (E : engine elem) (buf : list ascii)
    (elems : list elem) :
  Forall (fun r => snd r = true) (serialised E buf elems) ->
  print_elems E buf elems =
    (flat_map (fun r => [Call bgpstream_record_get_next_elem;
                         Call (bgpstream_elem_snprintf true);
                         Stdout (cstring (fst r) +++ nl)])
       (serialised E buf elems) ++ [Call bgpstream_record_get_next_elem],
     Ret (LoopDone, last (map fst (serialised E buf elems)) buf)).
Proof. apply print_elems_all_serialised. Qed.

(** X16: a pull that returns 0 ends the run normally: whatever the record
    handle holds, nothing is printed for it, no later record is asked for,
    the handles are released and the status is 0. *)
Theorem zero_pull_ends_run {elem} (E : engine elem) (v : vars)
    (before : list (Z * bgpstream_record_t * list elem))
    (r : bgpstream_record_t) (elems : list elem)
    (pulls : list (Z * bgpstream_record_t * list elem)) :
  record_create_succeeds E = true ->
  0 <= start_ret E ->
  next_records E = before ++ (0, r, elems) :: pulls ->
  Forall (fun p => 0 < fst (fst p)) before ->
  result (pull_loop E v elem_buf_init before) = Ret LoopDone ->
  stream E v =
    ([Call bgpstream_record_create; Call bgpstream_start] ++
     trace (pull_loop E v elem_buf_init before) ++ teardown,
     Exit 0).
Proof.
  intros Hc Hs Hn Hpos Hdone.
  destruct (pull_loop_reaches E v before elem_buf_init Hpos Hdone)
    as (buf & Hbuf).
  destruct (Hbuf 0 r elems pulls ltac:(lia)) as (le & b & Hd & Hp).
  rewrite dispatch_zero in Hd, Hp. cbn [trace result fst snd] in Hd, Hp.
  inversion Hd; subst le b. rewrite app_nil_r, <- Hn in Hp.
  rewrite (stream_started E v LoopDone Hc Hs) by (rewrite Hp; reflexivity).
  rewrite Hp. reflexivity.
Qed.

(** X17: once the engine has started, the status of the run is -1 exactly
    when the serialisation of an element failed, and 0 otherwise; in
    particular a pull that returns a negative value ends the run with
    status 0. *)
Theorem status_tells_serialisation_failure {elem} (E : engine elem)
    (v : vars) :
  record_create_succeeds E = true ->
  0 <= start_ret E ->
  (result (stream E v) = Exit 0 /\
   ~ In (Call (bgpstream_elem_snprintf false)) (trace (stream E v))) \/
  (result (stream E v) = Exit (-1) /\
   In (Call (bgpstream_elem_snprintf false)) (trace (stream E v))).
Proof.
  intros Hc Hs.
  destruct (pull_loop_ends E v (next_records E) elem_buf_init)
    as (le & Hr & Hw).
  rewrite (stream_started E v le Hc Hs Hr). cbn [trace result fst snd].
  destruct Hw as [[-> Hn]|[-> (t0 & buf & e & Hf & Heq)]].
  - left. split; [reflexivity|].
    cbn [app]. intros [H|[H|H]]; try discriminate.
    apply in_app_or in H. destruct H as [H|H]; [tauto|].
    simpl in H. intuition discriminate.
  - right. split; [reflexivity|].
    rewrite Heq. cbn [app]. right. right.
    apply in_or_app. left. apply in_or_app. right. left. reflexivity.
Qed.

(** X18: every run of the driver has one of three shapes.  The record
    handle cannot be created: the engine is destroyed and nothing else is
    done.  The engine does not start: nothing is released.  The engine
    starts: the loop runs, and then the record is destroyed, the engine
    stopped and destroyed, once each and in this order, as the last three
    events.  So the engine is started at most once and no handle is
    released twice or used after its release. *)
Theorem driver_run_shapes {elem} (E : engine elem) (v : vars) :
  stream E v =
    ([Call bgpstream_record_create;
      Stderr ("ERROR: Could not create BGPStream record" +++ nl);
      Call bgpstream_destroy], Exit (-1)) \/
  stream E v =
    ([Call bgpstream_record_create; Call bgpstream_start;
      Stderr ("ERROR: Could not init BGPStream" +++ nl)], Exit (-1)) \/
  exists t status,
    Forall loop_event t /\
    (status = 0 \/ status = -1) /\
    stream E v =
      ([Call bgpstream_record_create; Call bgpstream_start] ++ t ++
       [Call bgpstream_record_destroy; Call bgpstream_stop;
        Call bgpstream_destroy], Exit status).
Proof.
  destruct (record_create_succeeds E) eqn:Hc.
  2:{ left. unfold stream. rewrite Hc. reflexivity. }
  destruct (Z.ltb_spec (start_ret E) 0) as [Hs|Hs].
  { right. left. apply (stream_not_started E v Hc Hs). }
  right. right.
  destruct (pull_loop_ends E v (next_records E) elem_buf_init)
    as (le & Hr & _).
  exists (trace (pull_loop E v elem_buf_init (next_records E))), (loop_status le).
  split; [apply pull_loop_loop_events|].
  split; [destruct le; auto|].
  apply (stream_started E v le Hc Hs Hr).
Qed.

(** ** [-o] before or after [-d] *)








Section MoveEntry.

Context {elem : Type}.
Variable E : engine elem.

Let quiet (e : event) : Prop := is_binding_call e = false.













Lemma scan_start_fields :
  interface_options (scan_start E) = [] /\
  datasource_id (scan_start E) = data_interface_id E.
Proof. split; reflexivity. Qed.








End MoveEntry.


(** ** Numbers on the command line *)

Lemma digits_uint_acc (d : Decimal.uint) : forall acc : positive,
  digits (NilEmpty.string_of_uint d) (Z.pos acc) = Z.pos (Pos.of_uint_acc d acc).
Proof.
  induction d as [|d IH|d IH|d IH|d IH|d IH|d IH|d IH|d IH|d IH|d IH];
    intros acc; [reflexivity|..];
    cbn [NilEmpty.string_of_uint Pos.of_uint_acc]; rewrite <- IH;
    match goal with
    | |- digits (String _ ?s) ?a = digits _ ?b =>
        transitivity (digits s b); [|reflexivity]
    end;
    match goal with
    | |- digits (String ?c ?s) ?a = digits ?s ?b =>
        change (digits (String c s) a) with
          (digits s (10 * a + (Z.of_nat (nat_of_ascii c) - 48)))
    end;
    f_equal;
    match goal with
    | |- context [Z.of_nat (nat_of_ascii ?c)] =>
        let k := eval vm_compute in (Z.of_nat (nat_of_ascii c)) in
        change (Z.of_nat (nat_of_ascii c)) with k
    end; lia.
Qed.

Lemma digits_uint (d : Decimal.uint) :
  digits (NilEmpty.string_of_uint d) 0 = Z.of_N (Pos.of_uint d).
Proof.
  induction d as [|d IH|d IH|d IH|d IH|d IH|d IH|d IH|d IH|d IH|d IH];
    [reflexivity|exact IH|..];
    cbn [Pos.of_uint Z.of_N]; rewrite <- digits_uint_acc; reflexivity.
Qed.

Lemma digits_dec_pos (p : positive) : digits (dec (Z.pos p)) 0 = Z.pos p.
Proof.
  unfold dec. cbn [Z.to_int NilZero.string_of_int].
  unfold NilZero.string_of_uint.
  pose proof (Unsigned.of_to p) as Hp.
  destruct (Pos.to_uint p) eqn:Hd; [discriminate Hp|..];
    rewrite digits_uint, Hp; reflexivity.
Qed.

Lemma strtol10_unsigned (d : Decimal.uint) :
  strtol10 (NilZero.string_of_uint d) =
    Z.max LONG_MIN (Z.min LONG_MAX (digits (NilZero.string_of_uint d) 0)).
Proof. destruct d; reflexivity. Qed.

Lemma strtol10_dec (n : Z) :
  strtol10 (dec n) = Z.max LONG_MIN (Z.min LONG_MAX n).
Proof.
  destruct n as [|p|p].
  - reflexivity.
  - pose proof (digits_dec_pos p) as Hp. unfold dec in *.
    cbn [Z.to_int NilZero.string_of_int] in *.
    rewrite strtol10_unsigned, Hp. reflexivity.
  - pose proof (digits_dec_pos p) as Hp. unfold dec in *.
    cbn [Z.to_int NilZero.string_of_int] in *.
    change (strtol10 (String "-" (NilZero.string_of_uint (Pos.to_uint p))))
      with (Z.max LONG_MIN
              (Z.min LONG_MAX (- digits (NilZero.string_of_uint (Pos.to_uint p)) 0))).
    rewrite Hp. reflexivity.
Qed.

Lemma atoi_dec (n : Z) : - 2 ^ 31 <= n < 2 ^ 31 -> atoi (dec n) = n.
Proof.
  intros Hn. unfold atoi, to_int, LONG_MIN, LONG_MAX. rewrite strtol10_dec.
  unfold LONG_MIN, LONG_MAX.
  rewrite Z.min_r, Z.max_r by lia.
  rewrite Z.mod_small by lia. lia.
Qed.

Lemma to_uint32_atoi_dec (n : Z) :
  0 <= n < 2 ^ 32 -> to_uint32 (atoi (dec n)) = n.
Proof.
  intros Hn. unfold to_uint32, atoi, to_int. rewrite strtol10_dec.
  unfold LONG_MIN, LONG_MAX.
  rewrite Z.min_r, Z.max_r by lia.
  rewrite Zminus_mod_idemp_l.
  replace (n + 2 ^ 31 - 2 ^ 31) with n by lia.
  apply Z.mod_small. exact Hn.
Qed.

Lemma has_comma_uint d : has_char "," (NilEmpty.string_of_uint d) = false.
Proof. induction d; simpl; auto. Qed.

Lemma has_comma_dec z : has_char "," (dec z) = false.
Proof.
  unfold dec. destruct (Z.to_int z) as [d|d]; simpl;
    destruct d; simpl; auto using has_comma_uint.
Qed.

Lemma has_char_app c s1 s2 :
  has_char c (s1 +++ s2) = (has_char c s1 || has_char c s2)%bool.
Proof.
  induction s1 as [|a s1 IH]; [reflexivity|].
  simpl. rewrite IH. destruct (Ascii.eqb a c); reflexivity.
Qed.

Lemma before_after_char_app c s1 s2 :
  has_char c s1 = false ->
  before_char c (s1 +++ String c s2) = s1 /\
  after_char c (s1 +++ String c s2) = s2.
Proof.
  induction s1 as [|a s1 IH]; simpl.
  - intros _. rewrite Ascii.eqb_refl. split; reflexivity.
  - destruct (Ascii.eqb a c); [discriminate|]. simpl. intros H.
    destruct (IH H) as [H1 H2]. rewrite H1, H2. split; reflexivity.
Qed.

(** X19: a window given as two decimal numbers below 2^32 with a comma
    between them is stored with exactly these two bounds. *)
Theorem window_of_decimal_bounds {elem} (E : engine elem) (v : vars)
    (optopt : ascii) (a b : Z) :
  List.length (windows v) <> WINDOW_CMD_CNT ->
  0 <= a < 2 ^ 32 ->
  0 <= b < 2 ^ 32 ->
  handle_option E "w" (Some (dec a +++ "," +++ dec b)) optopt v =
    ([], Ret (set_windows v (windows v ++ [mk_window a b]))).
Proof.
  intros Hcap Ha Hb. apply Nat.eqb_neq in Hcap.
  unfold handle_option. cbn [Ascii.eqb Bool.eqb andb orb].
  rewrite Hcap. cbn [with_arg]. rewrite strchr_split_first.
  change (dec a +++ "," +++ dec b) with (dec a +++ String "," (dec b)).
  destruct (before_after_char_app "," (dec a) (dec b) (has_comma_dec a))
    as [H1 H2].
  rewrite H1, H2, has_char_app, has_comma_dec.
  cbn [has_char Ascii.eqb Bool.eqb andb orb].
  rewrite (to_uint32_atoi_dec a Ha), (to_uint32_atoi_dec b Hb).
  reflexivity.
Qed.

(** X20: the period given to [-P] as a decimal number that fits an [int]
    is stored as that number; a period that is zero or negative is stored
    too, and then no rib-period filter is given to the engine. *)
Theorem rib_period_of_decimal {elem} (E : engine elem) (v : vars)
    (optopt : ascii) (n : Z) :
  - 2 ^ 31 <= n < 2 ^ 31 ->
  handle_option E "P" (Some (dec n)) optopt v = ([], Ret (set_rib_period v n)) /\
  (In (Call (bgpstream_add_rib_period_filter n))
      (trace (apply_filters (set_rib_period v n))) <-> 0 < n).
Proof.
  intros Hn. split.
  - unfold handle_option. cbn [Ascii.eqb Bool.eqb andb orb with_arg].
    rewrite (atoi_dec n Hn). reflexivity.
  - rewrite apply_filters_trace. cbn [trace fst rib_period set_rib_period].
    rewrite !in_app_iff, !in_map_iff.
    destruct (n >? 0) eqn:Hgt.
    + apply Z.gtb_lt in Hgt. split; [intros _; exact Hgt|].
      intros _. right. right. right. right. left. left. reflexivity.
    + assert (Hle : n <= 0) by (apply Z.ltb_ge; rewrite <- Z.gtb_ltb; exact Hgt).
      split; [|lia].
      intros [[x [Hx _]]|[[x [Hx _]]|[[x [Hx _]]|[[x [Hx _]]|[[]|[Hx|Hx]]]]]];
        try discriminate Hx.
      destruct (blocking (set_rib_period v n)); cbn in Hx;
        [destruct Hx as [Hx|[]]; discriminate Hx | destruct Hx].
Qed.

(** ** How a run ends *)

Lemma ends_cleanly_ret {A} (a : A) : ends_cleanly (ret a).
Proof. exact I. Qed.

Lemma ends_cleanly_emit (e : event) : ends_cleanly (emit e).
Proof. exact I. Qed.

Lemma ends_cleanly_exit {A} (c : Z) : c = 0 \/ c = -1 -> ends_cleanly (@exit A c).
Proof. intros H. exact H. Qed.

Lemma ends_cleanly_bind {A B} (m : M A) (k : A -> M B) :
  ends_cleanly m -> (forall a, result m = Ret a -> ends_cleanly (k a)) ->
  ends_cleanly (bind m k).
Proof.
  unfold ends_cleanly. intros Hm Hk.
  destruct m as [t [a| | |]]; cbn in *; try assumption.
  specialize (Hk a eq_refl). destruct (k a). exact Hk.
Qed.

Lemma ends_cleanly_returns {A} (m : M A) a : result m = Ret a -> ends_cleanly m.
Proof. unfold ends_cleanly. intros ->. exact I. Qed.

Section Clean.

Context {elem : Type}.
Variable E : engine elem.
Hypothesis HE : describes_interfaces E.

Lemma ends_cleanly_usage_exit {A} v (c : Z) :
  c = 0 \/ c = -1 -> ends_cleanly (usage E v ;; @exit A c).
Proof. intros H. rewrite usage_exit. exact H. Qed.

Lemma handle_option_described opt optarg oo v :
  interface_described v ->
  ensures interface_described (handle_option E opt optarg oo v).
Proof.
  intros [Hid Hinfo]. destruct HE as (_ & _ & Hname).
  unfold handle_option, with_arg.
  ensures; apply ensures_ret; unfold interface_described;
    cbn [datasource_id datasource_info
         set_projects set_types set_collectors set_windows
         set_interface_options set_rib_period set_blocking
         set_record_output_on set_record_bgpdump_output_on
         set_elem_output_on set_datasource];
    try (split; assumption).
  split; [apply Z.eqb_neq; assumption|].
  apply Hname. apply Z.eqb_neq. assumption.
Qed.

Lemma handle_option_clean opt optarg oo v :
  (optarg = None -> takes_argument opt = false) ->
  ends_cleanly (handle_option E opt optarg oo v).
Proof.
  intros Harg.
  assert (Hu : forall A c v, c = 0 \/ c = -1 ->
                             ends_cleanly (usage E v ;; @exit A c))
    by (intros; apply ends_cleanly_usage_exit; assumption).
  unfold handle_option, with_arg, fprintf_stderr, do_call.
  repeat match goal with
         | |- ends_cleanly (if Ascii.eqb opt ?c then _ else _) =>
             destruct (Ascii.eqb_spec opt c) as [->|?]
         | |- ends_cleanly (if ?b then _ else _) => destruct b
         | |- ends_cleanly (match optarg with _ => _ end) =>
             destruct optarg; [|specialize (Harg eq_refl); discriminate Harg]
         | |- ends_cleanly (match ?x with _ => _ end) => destruct x
         | |- ends_cleanly (bind (emit _) _) =>
             apply ends_cleanly_bind; [apply ends_cleanly_emit|intros ? _]
         | |- ends_cleanly (usage E _ ;; exit _) => apply Hu; auto
         | |- ends_cleanly (ret _) => exact I
         end.
Qed.

Lemma scan_clean fuel : forall argv g v,
  ends_cleanly (scan E fuel argv g v).
Proof.
  induction fuel as [|fuel IH]; intros argv g v; [exact I|].
  cbn [scan].
  destruct (getopt argv optstring g) as [[[[opt optarg]|] argv'] g'] eqn:Hg;
    [|exact I].
  destruct (missing_argument (optind g) g' optarg) eqn:Hm.
  - apply ends_cleanly_bind; [|intros; apply IH].
    apply handle_option_clean. intros _. reflexivity.
  - apply ends_cleanly_bind; [|intros; apply IH].
    apply handle_option_clean. intros ->. exact (getopt_optarg _ _ _ _ _ Hg).
Qed.

Lemma scan_described argv fuel g v :
  interface_described v -> ensures interface_described (scan E fuel argv g v).
Proof.
  apply (scan_ensures E interface_described).
  intros. apply handle_option_described. assumption.
Qed.

Lemma bind_interface_options_clean v entries :
  interface_described v -> ends_cleanly (bind_interface_options E v entries).
Proof.
  intros [Hid Hinfo].
  destruct (datasource_info v) as [info|] eqn:Hi; [|congruence].
  induction entries as [|entry entries IH]; [exact I|].
  cbn [bind_interface_options].
  apply ends_cleanly_bind; [|intros; exact IH].
  destruct (Ascii.eqb (first_char entry) "?").
  - rewrite (dump_if_options_eq E v info Hid Hi).
    rewrite bind_ret. rewrite usage_exit. cbn. left. reflexivity.
  - destruct (strchr_split "," entry) as [[name value]|].
    + unfold do_call, fprintf_stderr.
      apply ends_cleanly_bind; [exact I|intros _ _].
      destruct (data_interface_option_by_name E (datasource_id v) name).
      * exact I.
      * rewrite Hi. apply ends_cleanly_bind; [exact I|intros _ _].
        rewrite usage_exit. right. reflexivity.
    + unfold fprintf_stderr.
      apply ends_cleanly_bind; [exact I|intros _ _].
      apply ends_cleanly_bind; [exact I|intros _ _].
      rewrite usage_exit. right. reflexivity.
Qed.

Lemma startup_clean : ends_cleanly (startup E).
Proof.
  destruct HE as (Hid & _). unfold startup, do_call, fprintf_stderr, assert.
  apply Z.eqb_neq in Hid. rewrite Hid. cbn [negb].
  destruct (create_succeeds E); cbn; auto.
Qed.

Lemma stream_exits v :
  result (stream E v) = Exit 0 \/ result (stream E v) = Exit (-1).
Proof.
  destruct (record_create_succeeds E) eqn:Hc.
  2:{ right. unfold stream. rewrite Hc. reflexivity. }
  destruct (Z.ltb_spec (start_ret E) 0) as [Hs|Hs].
  { right. rewrite (stream_not_started E v Hc Hs). reflexivity. }
  destruct (pull_loop_ends E v (next_records E) elem_buf_init)
    as (le & Hr & _).
  rewrite (stream_started E v le Hc Hs Hr). destruct le; auto.
Qed.

Lemma after_scan_clean v :
  interface_described v -> ends_cleanly (after_scan E v).
Proof.
  intros Hv. unfold after_scan.
  apply ends_cleanly_bind; [apply bind_interface_options_clean; exact Hv|].
  intros _ _. cbv zeta.
  apply ends_cleanly_bind.
  - destruct (Nat.eqb _ 0); [|exact I].
    unfold fprintf_stderr. apply ends_cleanly_bind; [exact I|intros _ _].
    rewrite usage_exit. right. reflexivity.
  - intros _ _. apply ends_cleanly_bind.
    + rewrite apply_filters_trace. exact I.
    + intros _ _. unfold ends_cleanly.
      destruct (stream_exits
                  (if (negb (record_output_on (set_interface_options v [])) &&
                       negb (elem_output_on (set_interface_options v [])) &&
                       negb (record_bgpdump_output_on (set_interface_options v [])))%bool
                   then set_record_output_on (set_interface_options v []) true
                   else set_interface_options v [])) as [H|H];
        rewrite H; auto.
Qed.

Lemma after_scan_exits v : ensures (fun _ => False) (after_scan E v).
Proof.
  unfold after_scan. ensures. intros ? Ha.
  match type of Ha with
  | result (stream E ?w) = _ => destruct (stream_exits w) as [H|H]
  end; congruence.
Qed.

End Clean.

(** X21: with an engine that has a default data interface and describes
    the interfaces it names, every run of [main] ends with status 0 or -1,
    whatever the command line: no [assert] fails, no NULL pointer is read
    ([optarg] of an option that takes an argument, the description of the
    current data interface), and [main] does not fall off its end. *)
Theorem main_exits_0_or_minus_1 {elem} (E : engine elem) (argv : list string) :
  describes_interfaces E ->
  result (main E argv) = Exit 0 \/ result (main E argv) = Exit (-1).
Proof.
  intros HE.
  pose proof (main_fueled E argv) as Hf. unfold fueled in Hf.
  assert (Hv : interface_described (scan_start E)).
  { destruct HE as (H1 & H2 & _). split; assumption. }
  assert (Hc : ends_cleanly (main E argv)).
  { rewrite main_after_scan.
    apply ends_cleanly_bind; [apply startup_clean; exact HE|intros _ _].
    apply ends_cleanly_bind; [apply scan_clean|].
    intros v Hs. apply after_scan_clean.
    exact (scan_described E HE argv _ _ _ Hv v Hs). }
  assert (Hr : ensures (fun _ => False) (main E argv)).
  { rewrite main_after_scan. apply ensures_bind. intros _.
    apply ensures_bind. intros v. apply after_scan_exits. }
  unfold ends_cleanly in Hc. unfold ensures in Hr.
  destruct (result (main E argv)) as [a|c| |].
  - destruct (Hr a eq_refl).
  - destruct Hc as [-> | ->]; auto.
  - destruct Hc.
  - congruence.
Qed.

(** ** The text of the record header *)


(** ** The usage text and the data interface *)

Lemma for_each_ext {A} (l : list A) (f g : A -> M unit) :
  (forall a, f a = g a) -> for_each l f = for_each l g.
Proof.
  intros H. induction l as [|a l IH]; [reflexivity|].
  cbn [for_each]. rewrite H, IH. reflexivity.
Qed.

Lemma usage_default_only {elem} (E : engine elem) (v v' : vars) :
  datasource_id_default v = datasource_id_default v' ->
  usage E v = usage E v'.
Proof.
  intros H. unfold usage, data_if_usage. rewrite H. reflexivity.
Qed.

(** X23: a name given to [-d] that the engine does not know is a fatal
    usage error: after the look-up, the message names it and the status is
    -1.  The usage text is the one printed at any other point of the scan,
    although the current id has been set to 0 by then. *)
Theorem unknown_interface_is_fatal {elem} (E : engine elem) (a : string)
    (optopt : ascii) (v : vars) :
  data_interface_id_by_name E a = 0 ->
  handle_option E "d" (Some a) optopt v =
    (Call (bgpstream_get_data_interface_id_by_name a)
       :: Stderr ("ERROR: Invalid data interface name '" +++ a +++ "'" +++ nl)
       :: trace (usage E v),
     Exit (-1)).
Proof.
  intros H. rewrite handle_d. cbv zeta. rewrite H. cbn [Z.eqb].
  rewrite (usage_default_only E (set_datasource v 0 (datasource_info v)) v);
    reflexivity.
Qed.

(** X24: the usage text is the same before and after the scan: it depends
    on the default data interface only, which no option changes, so the
    mark [(default)] stays on the engine's default after [-d]. *)
Theorem usage_same_after_scan {elem} (E : engine elem) (fuel : nat)
    (argv : list string) (g : getopt_state) (v v' : vars) (t : list event) :
  scan E fuel argv g v = (t, Ret v') ->
  usage E v' = usage E v.
Proof.
  intros Hs. apply usage_default_only.
  apply (scan_ensures E (fun w => datasource_id_default w = datasource_id_default v))
    with (fuel := fuel) (argv := argv) (g := g) (v := v);
    [|reflexivity|rewrite Hs; reflexivity].
  clear. intros opt optarg oo w Hw.
  unfold handle_option, with_arg.
  ensures; apply ensures_ret;
    cbn [datasource_id_default
         set_projects set_types set_collectors set_windows
         set_interface_options set_rib_period set_blocking
         set_record_output_on set_record_bgpdump_output_on
         set_elem_output_on set_datasource];
    exact Hw.
Qed.

(** X25: when the engine cannot be created, [main] prints one message and
    ends with status -1 whatever the command line: the options are not read
    and no usage text is printed. *)
Theorem create_failure_is_fatal {elem} (E : engine elem) (argv : list string) :
  create_succeeds E = false ->
  main E argv =
    ([Call bgpstream_create;
      Stderr ("ERROR: Could not create BGPStream instance" +++ nl)], Exit (-1)).
Proof.
  intros H. unfold main, do_call, fprintf_stderr. rewrite H.
  rewrite bind_emit. rewrite bind_assoc, bind_emit. reflexivity.
Qed.

(** ** Standard output *)

Lemma off_stdout_text (t : list event) :
  Forall off_stdout t -> stdout_text t = "".
Proof.
  induction 1 as [|e t He _ IH]; [reflexivity|].
  destruct e; cbn [stdout_text]; [exact IH|destruct He|exact IH].
Qed.

Lemma inspects_off_stdout (t : list event) :
  Forall inspects t -> Forall off_stdout t.
Proof.
  apply Forall_impl. intros [s|s|c] H; [exact I|destruct H|exact I].
Qed.

Lemma started_or_bind {A B} (c : call) (m : M A) (k : A -> M B) :
  all_events off_stdout m ->
  (forall a, In (Call c) (trace (k a)) \/ all_events off_stdout (k a)) ->
  In (Call c) (trace (bind m k)) \/ all_events off_stdout (bind m k).
Proof.
  unfold all_events. intros Hm Hk.
  destruct m as [t [a| | |]]; cbn in *; auto.
  specialize (Hk a). destruct (k a) as [t' o]. cbn in *.
  destruct Hk as [Hk|Hk].
  - left. apply in_or_app. right. exact Hk.
  - right. apply Forall_app. split; assumption.
Qed.

Section Quiet.

Context {elem : Type}.
Variable E : engine elem.

Lemma stream_started_or_quiet v :
  In (Call bgpstream_start) (trace (stream E v)) \/
  all_events off_stdout (stream E v).
Proof.
  unfold stream, do_call, fprintf_stderr.
  rewrite bind_emit. cbn [trace fst].
  destruct (record_create_succeeds E).
  - left. rewrite bind_ret_l, bind_emit. cbn [trace fst].
    right. left. reflexivity.
  - right. unfold all_events. rewrite bind_assoc, bind_emit.
    rewrite bind_assoc, bind_emit. repeat constructor.
Qed.

Lemma bind_interface_options_off_stdout v entries :
  all_events off_stdout (bind_interface_options E v entries).
Proof.
  induction entries as [|entry entries IH]; [apply all_ret|].
  cbn [bind_interface_options].
  unfold dump_if_options, usage, data_if_usage, assert, fprintf_stderr, do_call.
  all_events; first [exact I | exact IH].
Qed.

Lemma after_scan_started_or_quiet v :
  In (Call bgpstream_start) (trace (after_scan E v)) \/
  all_events off_stdout (after_scan E v).
Proof.
  unfold after_scan.
  apply started_or_bind; [apply bind_interface_options_off_stdout|intros _].
  cbv zeta.
  apply started_or_bind.
  { unfold usage, data_if_usage, fprintf_stderr, do_call. all_events; exact I. }
  intros _.
  apply started_or_bind.
  { unfold all_events. rewrite apply_filters_trace. cbn [trace fst].
    repeat (apply Forall_app; split);
      try (apply Forall_forall; intros e He; apply in_map_iff in He;
           destruct He as (x & <- & _); exact I).
    - destruct (_ >? 0); repeat constructor.
    - constructor; [exact I|]. destruct (blocking _); repeat constructor. }
  intros _. apply stream_started_or_quiet.
Qed.

End Quiet.

(** X26: nothing is written on standard output unless the engine has been
    started: the usage text, the version and every error of the command
    line go to standard error. *)
Theorem stdout_only_after_start {elem} (E : engine elem) (argv : list string) :
  ~ In (Call bgpstream_start) (trace (main E argv)) ->
  stdout_text (trace (main E argv)) = "".
Proof.
  intros Hn. apply off_stdout_text.
  assert (H : In (Call bgpstream_start) (trace (main E argv)) \/
              all_events off_stdout (main E argv)).
  { rewrite main_after_scan.
    apply started_or_bind;
      [apply inspects_off_stdout; apply startup_inspects|intros _].
    apply started_or_bind;
      [apply inspects_off_stdout; apply scan_inspects|intros v].
    apply after_scan_started_or_quiet. }
  destruct H as [H|H]; [contradiction|exact H].
Qed.

(** ** The output modes in the pull loop *)

Section Modes.

Context {elem : Type}.
Variable E : engine elem.

Lemma print_elems_mode_events v elems :
  elem_output_on v = true ->
  forall buf, all_events (mode_event v) (print_elems E buf elems).
Proof.
  intros He.
  induction elems as [|e elems IH]; intros buf; cbn [print_elems];
    unfold print_elem, fprintf_stderr, printf, do_call.
  - all_events; exact He.
  - apply all_bind; [apply all_emit; exact He|intros _].
    destruct (elem_snprintf E buf 65536%N e) as [b ok].
    apply all_bind.
    + destruct ok; all_events; cbn; auto.
    + intros r. destruct (negb (fst r =? 0)); [apply all_ret|apply IH].
Qed.

Lemma dispatch_mode_events v buf get_next_ret r elems :
  all_events (mode_event v) (dispatch E v buf get_next_ret r elems).
Proof.
  unfold dispatch, print_bs_record, printf, do_call.
  destruct (negb (get_next_ret =? 0)); cbn [andb].
  - apply all_bind.
    + destruct (record_output_on v) eqn:Hr; all_events; cbn; auto.
    + intros _. destruct (is_valid_record (status r)) eqn:Hv; [|apply all_ret].
      apply all_bind.
      * destruct (record_bgpdump_output_on v) eqn:Hm; all_events; cbn; auto.
      * intros _. destruct (elem_output_on v) eqn:He; [|apply all_ret].
        apply print_elems_mode_events. exact He.
  - all_events.
Qed.

Lemma pull_loop_mode_events v pulls : forall buf,
  all_events (mode_event v) (pull_loop E v buf pulls).
Proof.
  induction pulls as [|[[get_next_ret r] elems] pulls IH]; intros buf;
    cbn [pull_loop]; unfold do_call.
  - all_events; exact I.
  - apply all_bind; [apply all_emit; exact I|intros _].
    apply all_bind; [apply dispatch_mode_events|intros x].
    destruct (fst x); [|apply all_ret].
    destruct (get_next_ret >? 0); [apply IH|apply all_ret].
Qed.

End Modes.

(** X27: the pull loop keeps to the output modes, over all the records of
    a run: it prints on standard output only in record or element mode,
    hands a record to the MRT printer only in [-m] mode and only when the
    record is valid, and reads elements (and reports a failed serialisation)
    only in element mode. *)
Theorem pull_loop_keeps_modes {elem} (E : engine elem) (v : vars)
    (buf : list ascii) (pulls : list (Z * bgpstream_record_t * list elem)) :
  all_events (mode_event v) (pull_loop E v buf pulls).
Proof. apply pull_loop_mode_events. Qed.

(** ** The further properties on the stub engine *)

Lemma scan_within_caps_witness :
  (within_caps (scan_start (Stub.stub 0 [])) /\
   scan (Stub.stub 0 []) 20 ["bgpreader"; "-w"; "1,2"; "-p"; "ris"] getopt_init
        (scan_start (Stub.stub 0 [])) =
     ([], Ret (set_projects
                 (set_windows (scan_start (Stub.stub 0 [])) [mk_window 1 2])
                 ["ris"]))) /\
  within_caps (set_projects
                 (set_windows (scan_start (Stub.stub 0 [])) [mk_window 1 2])
                 ["ris"]).
Proof.
  assert (H : within_caps (scan_start (Stub.stub 0 [])))
    by (unfold within_caps, PROJECT_CMD_CNT, TYPE_CMD_CNT, COLLECTOR_CMD_CNT,
          WINDOW_CMD_CNT, OPTION_CMD_CNT; simpl; lia).
  split; [split; [exact H | reflexivity]|].
  apply (scan_within_caps (Stub.stub 0 []) 20
           ["bgpreader"; "-w"; "1,2"; "-p"; "ris"] getopt_init
           (scan_start (Stub.stub 0 []))
           (set_projects
              (set_windows (scan_start (Stub.stub 0 [])) [mk_window 1 2])
              ["ris"]) []);
    [exact H | reflexivity].
Defined.

Lemma scan_datasource_ok_witness :
  (datasource_ok (Stub.stub 0 []) 1 (scan_start (Stub.stub 0 [])) /\
   scan (Stub.stub 0 []) 16 ["bgpreader"; "-d"; "singlefile"] getopt_init
        (scan_start (Stub.stub 0 [])) =
     ([Call (bgpstream_get_data_interface_id_by_name "singlefile");
       Call (bgpstream_get_data_interface_info 2)], Ret Stub.singlefile)) /\
  datasource_ok (Stub.stub 0 []) 1 Stub.singlefile.
Proof.
  assert (H : datasource_ok (Stub.stub 0 []) 1 (scan_start (Stub.stub 0 [])))
    by (repeat split; first [reflexivity | discriminate]).
  split; [split; [exact H | reflexivity]|].
  apply (scan_datasource_ok (Stub.stub 0 []) 16
           ["bgpreader"; "-d"; "singlefile"] getopt_init
           (scan_start (Stub.stub 0 [])) Stub.singlefile
           [Call (bgpstream_get_data_interface_id_by_name "singlefile");
            Call (bgpstream_get_data_interface_info 2)] 1);
    [exact H | reflexivity].
Defined.

Lemma full_array_witness :
  capped "w" Stub.full_windows =
    Some (WINDOW_CMD_CNT, WINDOW_CMD_CNT,
          " windows can be specified on the command line") /\
  handle_option (Stub.stub 0 []) "w" (Some "1,2") "?" Stub.full_windows =
    (Stderr ("ERROR: A maximum of " +++ dec (Z.of_nat WINDOW_CMD_CNT) +++
             " windows can be specified on the command line" +++ nl)
       :: trace (usage (Stub.stub 0 []) Stub.full_windows), Exit (-1)).
Proof.
  split; [reflexivity|].
  apply (full_array_is_fatal (Stub.stub 0 []) "w" (Some "1,2") "?"
           Stub.full_windows WINDOW_CMD_CNT
           " windows can be specified on the command line").
  reflexivity.
Defined.

Lemma refused_command_line_witness :
  ~ scan_completes (Stub.stub 0 []) ["bgpreader"; "-w"; "12"] /\
  all_events inspects (main (Stub.stub 0 []) ["bgpreader"; "-w"; "12"]).
Proof.
  assert (H : ~ scan_completes (Stub.stub 0 []) ["bgpreader"; "-w"; "12"]).
  { unfold scan_completes, returns. intros [a Ha]. vm_compute in Ha.
    discriminate Ha. }
  split; [exact H|].
  apply (refused_command_line_leaves_engine (Stub.stub 0 [])
           ["bgpreader"; "-w"; "12"]).
  exact H.
Defined.

Lemma no_window_witness :
  (windows Stub.singlefile = [] /\
   result (bind_interface_options (Stub.stub 0 []) Stub.singlefile
             (interface_options Stub.singlefile)) = Ret tt) /\
  after_scan (Stub.stub 0 []) Stub.singlefile =
    (trace (bind_interface_options (Stub.stub 0 []) Stub.singlefile
              (interface_options Stub.singlefile)) ++
     Stderr ("ERROR: At least one time window must be specified using -w" +++ nl)
       :: trace (usage (Stub.stub 0 []) Stub.singlefile),
     Exit (-1)).
Proof.
  split; [split; reflexivity|].
  apply (no_window_is_fatal (Stub.stub 0 []) Stub.singlefile); reflexivity.
Defined.

Lemma record_mode_default_witness :
  (record_output_on (set_windows Stub.singlefile [mk_window 1 2]) = false /\
   record_bgpdump_output_on (set_windows Stub.singlefile [mk_window 1 2]) = false /\
   elem_output_on (set_windows Stub.singlefile [mk_window 1 2]) = false) /\
  after_scan (Stub.stub 0 [(1, Stub.rec1, [Some "E0"])])
    (set_windows Stub.singlefile [mk_window 1 2]) =
  after_scan (Stub.stub 0 [(1, Stub.rec1, [Some "E0"])])
    (set_record_output_on (set_windows Stub.singlefile [mk_window 1 2]) true).
Proof.
  split; [repeat split|].
  apply (record_mode_is_the_default (Stub.stub 0 [(1, Stub.rec1, [Some "E0"])])
           (set_windows Stub.singlefile [mk_window 1 2])); reflexivity.
Defined.

Lemma entries_bound_witness :
  Forall (fun entry => bound_option (Stub.stub 0 []) Stub.singlefile entry <> None)
    ["rib-file,/tmp/rib"; "upd-file,a,b"; "rib-file,"] /\
  bind_interface_options (Stub.stub 0 []) Stub.singlefile
    ["rib-file,/tmp/rib"; "upd-file,a,b"; "rib-file,"] =
    (flat_map (binding_of (Stub.stub 0 []) Stub.singlefile)
       ["rib-file,/tmp/rib"; "upd-file,a,b"; "rib-file,"], Ret tt).
Proof.
  assert (H : Forall (fun entry =>
                        bound_option (Stub.stub 0 []) Stub.singlefile entry <> None)
                ["rib-file,/tmp/rib"; "upd-file,a,b"; "rib-file,"])
    by (repeat constructor; discriminate).
  split; [exact H|].
  apply (entries_bound_in_order (Stub.stub 0 []) Stub.singlefile
           ["rib-file,/tmp/rib"; "upd-file,a,b"; "rib-file,"]).
  exact H.
Defined.

Lemma entry_without_comma_witness :
  (Forall (fun entry => bound_option (Stub.stub 0 []) Stub.singlefile entry <> None)
     ["rib-file,/tmp/rib"] /\
   Ascii.eqb (first_char "nonsense") "?" = false /\
   has_char "," "nonsense" = false) /\
  bind_interface_options (Stub.stub 0 []) Stub.singlefile
    (["rib-file,/tmp/rib"] ++ "nonsense" :: ["upd-file,/tmp/upd"]) =
    (flat_map (binding_of (Stub.stub 0 []) Stub.singlefile) ["rib-file,/tmp/rib"] ++
     [Stderr ("ERROR: Malformed data interface option (" +++ "nonsense" +++ ")"
              +++ nl);
      Stderr ("ERROR: Expecting <option-name>,<option-value>" +++ nl)] ++
     trace (usage (Stub.stub 0 []) Stub.singlefile),
     Exit (-1)).
Proof.
  assert (H : Forall (fun entry =>
                        bound_option (Stub.stub 0 []) Stub.singlefile entry <> None)
                ["rib-file,/tmp/rib"])
    by (repeat constructor; discriminate).
  split; [repeat split; first [exact H | reflexivity]|].
  apply (entry_without_comma_is_fatal (Stub.stub 0 []) Stub.singlefile
           ["rib-file,/tmp/rib"] ["upd-file,/tmp/upd"] "nonsense");
    first [exact H | reflexivity].
Defined.

Lemma entry_with_unknown_name_witness :
  (Forall (fun entry => bound_option (Stub.stub 0 []) Stub.singlefile entry <> None)
     ["rib-file,/tmp/rib"] /\
   datasource_info Stub.singlefile =
     Some (mk_info "singlefile" "Read a single mrt file") /\
   Ascii.eqb (first_char "db-name,bgp") "?" = false /\
   has_char "," "db-name,bgp" = true /\
   data_interface_option_by_name (Stub.stub 0 []) (datasource_id Stub.singlefile)
     (before_char "," "db-name,bgp") = None) /\
  bind_interface_options (Stub.stub 0 []) Stub.singlefile
    (["rib-file,/tmp/rib"] ++ "db-name,bgp" :: ["upd-file,/tmp/upd"]) =
    (flat_map (binding_of (Stub.stub 0 []) Stub.singlefile) ["rib-file,/tmp/rib"] ++
     [Call (bgpstream_get_data_interface_option_by_name
              (datasource_id Stub.singlefile) (before_char "," "db-name,bgp"));
      Stderr ("ERROR: Invalid option '" +++ before_char "," "db-name,bgp" +++
              "' for data interface '" +++
              info_name (mk_info "singlefile" "Read a single mrt file") +++
              "'" +++ nl)] ++
     trace (usage (Stub.stub 0 []) Stub.singlefile),
     Exit (-1)).
Proof.
  assert (H : Forall (fun entry =>
                        bound_option (Stub.stub 0 []) Stub.singlefile entry <> None)
                ["rib-file,/tmp/rib"])
    by (repeat constructor; discriminate).
  split; [repeat split; first [exact H | reflexivity]|].
  apply (entry_with_unknown_name_is_fatal (Stub.stub 0 []) Stub.singlefile
           (mk_info "singlefile" "Read a single mrt file")
           ["rib-file,/tmp/rib"] ["upd-file,/tmp/upd"] "db-name,bgp");
    first [exact H | reflexivity].
Defined.

Lemma entry_starting_with_question_witness :
  (Forall (fun entry => bound_option (Stub.stub 0 []) Stub.singlefile entry <> None)
     ["rib-file,/tmp/rib"] /\
   datasource_id Stub.singlefile <> 0 /\
   datasource_info Stub.singlefile =
     Some (mk_info "singlefile" "Read a single mrt file")) /\
  bind_interface_options (Stub.stub 0 []) Stub.singlefile
    (["rib-file,/tmp/rib"] ++ String "?" "rib-file,x" :: ["upd-file,/tmp/upd"]) =
    (flat_map (binding_of (Stub.stub 0 []) Stub.singlefile) ["rib-file,/tmp/rib"] ++
     [Call (bgpstream_get_data_interface_options (datasource_id Stub.singlefile));
      Stderr ("Data interface options for '" +++
              info_name (mk_info "singlefile" "Read a single mrt file") +++
              "':" +++ nl)]
     ++ option_lines (data_interface_options (Stub.stub 0 [])
                        (datasource_id Stub.singlefile))
     ++ [Stderr nl] ++ usage_lines (Stub.stub 0 []) Stub.singlefile,
     Exit 0).
Proof.
  assert (H : Forall (fun entry =>
                        bound_option (Stub.stub 0 []) Stub.singlefile entry <> None)
                ["rib-file,/tmp/rib"])
    by (repeat constructor; discriminate).
  split; [repeat split; first [exact H | reflexivity | discriminate]|].
  apply (entry_starting_with_question_is_a_query (Stub.stub 0 [])
           Stub.singlefile (mk_info "singlefile" "Read a single mrt file")
           ["rib-file,/tmp/rib"] ["upd-file,/tmp/upd"] "rib-file,x");
    first [exact H | reflexivity | discriminate].
Defined.

Lemma flag_is_not_an_argument_witness :
  (Forall item_ok [("w"%char, Some "1,2"); ("r"%char, None)] /\
   takes_argument "d" = true /\
   first_char "-m" = "-"%char) /\
  main (Stub.stub 0 [])
    ("bgpreader" ::
     item_argv [("w"%char, Some "1,2"); ("r"%char, None)] ++
     String "-" (String "d" "") :: "-m" :: ["singlefile"]) =
    (startup (Stub.stub 0 []) ;;
     v <- handle_items (Stub.stub 0 []) NUL
            [("w"%char, Some "1,2"); ("r"%char, None)]
            (scan_start (Stub.stub 0 [])) ;;
     (Stderr ("ERROR: Missing option argument for -" +++ String NUL "" +++ nl)
        :: usage_lines (Stub.stub 0 []) v, Exit (-1))).
Proof.
  assert (H : Forall item_ok [("w"%char, Some "1,2"); ("r"%char, None)])
    by (repeat constructor).
  split; [repeat split; exact H|].
  apply (flag_is_not_an_argument (Stub.stub 0 []) "bgpreader"
           [("w"%char, Some "1,2"); ("r"%char, None)] "d" "-m" ["singlefile"]);
    first [exact H | reflexivity].
Defined.

Lemma option_without_argument_witness :
  (Forall item_ok [("r"%char, None); ("p"%char, Some "ris")] /\
   takes_argument "w" = true) /\
  main (Stub.stub 0 [])
    ("bgpreader" ::
     item_argv [("r"%char, None); ("p"%char, Some "ris")] ++
     [String "-" (String "w" "")]) =
    (startup (Stub.stub 0 []) ;;
     v <- handle_items (Stub.stub 0 []) NUL
            [("r"%char, None); ("p"%char, Some "ris")]
            (scan_start (Stub.stub 0 [])) ;;
     (Stderr (version_banner (Stub.stub 0 []))
        :: usage_lines (Stub.stub 0 []) v, Exit 0)).
Proof.
  assert (H : Forall item_ok [("r"%char, None); ("p"%char, Some "ris")])
    by (repeat constructor).
  split; [split; [exact H|reflexivity]|].
  apply (option_without_argument_at_end (Stub.stub 0 []) "bgpreader"
           [("r"%char, None); ("p"%char, Some "ris")] "w");
    first [exact H | reflexivity].
Defined.


Lemma options_run_left_to_right_witness :
  Forall (fun o : ascii * string =>
            takes_argument (fst o) = true /\
            Ascii.eqb (first_char (snd o)) "-" = false)
    [("w"%char, "1,2"); ("d"%char, "singlefile"); ("o"%char, "rib-file,/tmp/rib")] /\
  main (Stub.stub 0 [])
    ("bgpreader" ::
     as_argv [("w"%char, "1,2"); ("d"%char, "singlefile");
              ("o"%char, "rib-file,/tmp/rib")]) =
    (startup (Stub.stub 0 []) ;;
     v <- handle_all (Stub.stub 0 []) "?"
            [("w"%char, "1,2"); ("d"%char, "singlefile");
             ("o"%char, "rib-file,/tmp/rib")] (scan_start (Stub.stub 0 [])) ;;
     after_scan (Stub.stub 0 []) v).
Proof.
  assert (H : Forall (fun o : ascii * string =>
                        takes_argument (fst o) = true /\
                        Ascii.eqb (first_char (snd o)) "-" = false)
                [("w"%char, "1,2"); ("d"%char, "singlefile");
                 ("o"%char, "rib-file,/tmp/rib")])
    by (repeat constructor).
  split; [exact H|].
  apply (options_run_left_to_right (Stub.stub 0 []) "bgpreader"
           [("w"%char, "1,2"); ("d"%char, "singlefile");
            ("o"%char, "rib-file,/tmp/rib")]).
  exact H.
Defined.

Lemma elements_one_per_line_witness :
  Forall (fun r : list ascii * bool => snd r = true)
    (serialised (Stub.stub 0 []) (repeat NUL 8) [Some "E1"; Some "E2"]) /\
  print_elems (Stub.stub 0 []) (repeat NUL 8) [Some "E1"; Some "E2"] =
    (flat_map (fun r : list ascii * bool =>
                 [Call bgpstream_record_get_next_elem;
                  Call (bgpstream_elem_snprintf true);
                  Stdout (cstring (fst r) +++ nl)])
       (serialised (Stub.stub 0 []) (repeat NUL 8) [Some "E1"; Some "E2"]) ++
     [Call bgpstream_record_get_next_elem],
     Ret (LoopDone,
          last (map fst (serialised (Stub.stub 0 []) (repeat NUL 8)
                           [Some "E1"; Some "E2"])) (repeat NUL 8))).
Proof.
  assert (H : Forall (fun r : list ascii * bool => snd r = true)
                (serialised (Stub.stub 0 []) (repeat NUL 8)
                   [Some "E1"; Some "E2"]))
    by (repeat constructor).
  split; [exact H|].
  apply (elements_one_per_line (Stub.stub 0 []) (repeat NUL 8)
           [Some "E1"; Some "E2"]).
  exact H.
Defined.

Lemma zero_pull_witness :
  (record_create_succeeds Stub.zero_second = true /\
   0 <= start_ret Stub.zero_second /\
   next_records Stub.zero_second =
     [(1, Stub.rec1, [Some "E0"])] ++
     (0, Stub.rec1, [Some "E1"]) :: [(1, Stub.rec1, [])] /\
   Forall (fun p : Z * bgpstream_record_t * list (option string) =>
             0 < fst (fst p)) [(1, Stub.rec1, [Some "E0"])] /\
   result (pull_loop Stub.zero_second Stub.all_modes elem_buf_init
             [(1, Stub.rec1, [Some "E0"])]) = Ret LoopDone) /\
  stream Stub.zero_second Stub.all_modes =
    ([Call bgpstream_record_create; Call bgpstream_start] ++
     trace (pull_loop Stub.zero_second Stub.all_modes elem_buf_init
              [(1, Stub.rec1, [Some "E0"])]) ++ teardown,
     Exit 0).
Proof.
  assert (Hpos : Forall (fun p : Z * bgpstream_record_t * list (option string) =>
                           0 < fst (fst p)) [(1, Stub.rec1, [Some "E0"])])
    by (repeat constructor).
  assert (Hdone : result (pull_loop Stub.zero_second Stub.all_modes
                            elem_buf_init [(1, Stub.rec1, [Some "E0"])])
                  = Ret LoopDone) by (vm_compute; reflexivity).
  split; [repeat split; first [reflexivity | lia | exact Hpos | exact Hdone]|].
  apply (zero_pull_ends_run Stub.zero_second Stub.all_modes
           [(1, Stub.rec1, [Some "E0"])] Stub.rec1 [Some "E1"]
           [(1, Stub.rec1, [])]);
    first [reflexivity | lia | exact Hpos | exact Hdone].
Defined.

Lemma status_witness :
  (record_create_succeeds Stub.negative_second = true /\
   0 <= start_ret Stub.negative_second) /\
  ((result (stream Stub.negative_second Stub.all_modes) = Exit 0 /\
    ~ In (Call (bgpstream_elem_snprintf false))
         (trace (stream Stub.negative_second Stub.all_modes))) \/
   (result (stream Stub.negative_second Stub.all_modes) = Exit (-1) /\
    In (Call (bgpstream_elem_snprintf false))
       (trace (stream Stub.negative_second Stub.all_modes)))).
Proof.
  split; [split; [reflexivity | simpl; lia]|].
  apply (status_tells_serialisation_failure Stub.negative_second Stub.all_modes);
    [reflexivity | simpl; lia].
Defined.

Lemma window_of_decimal_bounds_witness :
  (List.length (windows (scan_start (Stub.stub 0 []))) <> WINDOW_CMD_CNT /\
   0 <= 1420070400 < 2 ^ 32 /\
   0 <= 4294967295 < 2 ^ 32) /\
  handle_option (Stub.stub 0 []) "w"
    (Some (dec 1420070400 +++ "," +++ dec 4294967295)) "?"
    (scan_start (Stub.stub 0 [])) =
    ([], Ret (set_windows (scan_start (Stub.stub 0 []))
                (windows (scan_start (Stub.stub 0 [])) ++
                 [mk_window 1420070400 4294967295]))).
Proof.
  split; [repeat split; first [discriminate | lia]|].
  apply (window_of_decimal_bounds (Stub.stub 0 []) (scan_start (Stub.stub 0 []))
           "?" 1420070400 4294967295);
    first [discriminate | lia].
Defined.

Lemma rib_period_of_decimal_witness :
  - 2 ^ 31 <= -5 < 2 ^ 31 /\
  handle_option (Stub.stub 0 []) "P" (Some (dec (-5))) "?"
    (scan_start (Stub.stub 0 [])) =
    ([], Ret (set_rib_period (scan_start (Stub.stub 0 [])) (-5))) /\
  (In (Call (bgpstream_add_rib_period_filter (-5)))
      (trace (apply_filters (set_rib_period (scan_start (Stub.stub 0 [])) (-5))))
   <-> 0 < -5).
Proof.
  split; [lia|].
  apply (rib_period_of_decimal (Stub.stub 0 []) (scan_start (Stub.stub 0 []))
           "?" (-5)).
  lia.
Defined.

(** Without a description of the current data interface, [-o ?] reads a
    NULL pointer. *)
Example undescribed_interface_is_read :
  result (main Stub.undescribed ["bgpreader"; "-o"; "?"]) = Abort.
Proof. reflexivity. Qed.

Lemma stub_describes_interfaces start pulls :
  describes_interfaces (Stub.stub start pulls).
Proof.
  split; [discriminate|]. split; [discriminate|].
  intros name. cbn.
  destruct (String.eqb name "broker"); [discriminate|].
  destruct (String.eqb name "singlefile"); [discriminate|].
  intros H. exfalso. apply H. reflexivity.
Qed.

Lemma main_exits_witness :
  describes_interfaces (Stub.stub 0 [(1, Stub.rec1, [Some "E1"; None])]) /\
  (result (main (Stub.stub 0 [(1, Stub.rec1, [Some "E1"; None])])
             ["bgpreader"; "-w"; "1,2"; "-e"]) = Exit 0 \/
   result (main (Stub.stub 0 [(1, Stub.rec1, [Some "E1"; None])])
             ["bgpreader"; "-w"; "1,2"; "-e"]) = Exit (-1)).
Proof.
  split; [apply stub_describes_interfaces|].
  apply (main_exits_0_or_minus_1
           (Stub.stub 0 [(1, Stub.rec1, [Some "E1"; None])])
           ["bgpreader"; "-w"; "1,2"; "-e"]).
  apply stub_describes_interfaces.
Defined.

Lemma unknown_interface_witness :
  data_interface_id_by_name (Stub.stub 0 []) "mysql" = 0 /\
  handle_option (Stub.stub 0 []) "d" (Some "mysql") "?" Stub.singlefile =
    (Call (bgpstream_get_data_interface_id_by_name "mysql")
       :: Stderr ("ERROR: Invalid data interface name '" +++ "mysql" +++ "'"
                  +++ nl)
       :: trace (usage (Stub.stub 0 []) Stub.singlefile),
     Exit (-1)).
Proof.
  split; [reflexivity|].
  apply (unknown_interface_is_fatal (Stub.stub 0 []) "mysql" "?" Stub.singlefile).
  reflexivity.
Defined.

Lemma usage_same_after_scan_witness :
  scan (Stub.stub 0 []) 16 ["bgpreader"; "-d"; "singlefile"] getopt_init
       (scan_start (Stub.stub 0 [])) =
    ([Call (bgpstream_get_data_interface_id_by_name "singlefile");
      Call (bgpstream_get_data_interface_info 2)], Ret Stub.singlefile) /\
  usage (Stub.stub 0 []) Stub.singlefile =
    usage (Stub.stub 0 []) (scan_start (Stub.stub 0 [])).
Proof.
  split; [reflexivity|].
  apply (usage_same_after_scan (Stub.stub 0 []) 16
           ["bgpreader"; "-d"; "singlefile"] getopt_init
           (scan_start (Stub.stub 0 [])) Stub.singlefile
           [Call (bgpstream_get_data_interface_id_by_name "singlefile");
            Call (bgpstream_get_data_interface_info 2)]).
  reflexivity.
Defined.

Lemma create_failure_witness :
  create_succeeds Stub.uncreated = false /\
  main Stub.uncreated ["bgpreader"; "-h"] =
    ([Call bgpstream_create;
      Stderr ("ERROR: Could not create BGPStream instance" +++ nl)], Exit (-1)).
Proof.
  split; [reflexivity|].
  apply (create_failure_is_fatal Stub.uncreated ["bgpreader"; "-h"]).
  reflexivity.
Defined.

Lemma stdout_only_after_start_witness :
  ~ In (Call bgpstream_start)
       (trace (main (Stub.stub 0 [(1, Stub.rec1, [Some "E1"])])
                 ["bgpreader"; "-r"; "-e"])) /\
  stdout_text (trace (main (Stub.stub 0 [(1, Stub.rec1, [Some "E1"])])
                        ["bgpreader"; "-r"; "-e"])) = "".
Proof.
  assert (H : ~ In (Call bgpstream_start)
                (trace (main (Stub.stub 0 [(1, Stub.rec1, [Some "E1"])])
                          ["bgpreader"; "-r"; "-e"]))).
  { vm_compute. intros H.
    repeat (destruct H as [H|H]; [discriminate H|]). exact H. }
  split; [exact H|].
  apply (stdout_only_after_start (Stub.stub 0 [(1, Stub.rec1, [Some "E1"])])
           ["bgpreader"; "-r"; "-e"]).
  exact H.
Defined.
